(** * MCP-BOE: the request executor, the response normaliser, the query
      builder, the search-result validator and the identifier check

    A shallow embedding of

    - [src/mcp_boe/utils/http_client.py]  ([BOEHTTPClient]),
    - [src/mcp_boe/utils/warnings_handler.py]  ([SearchResultValidator]),
    - [src/mcp_boe/models/boe_models.py]  ([APIError], [validate_boe_identifier]),
    - [src/mcp_boe/tools/legislation.py]  (the identifier check of the law tools),

    followed by the properties proved about it.

    Conventions.  A Python [str] is a [string]: the sequence of its UTF-8
    bytes.  The whitespace of [str.split] and [str.strip] is the set of
    characters Python takes for whitespace, ASCII or not; the digits of
    [\d] are the ASCII digits and, beyond ASCII, the characters that a
    parameter stands for (Unicode's decimal digits).  A Python [int] is a
    [Z].  A Python [float] is read as the exact rational [Q] it denotes;
    for the one comparison made on floats, [matching / total < 0.3], the
    two readings agree as long as [total] is below 10^15.  A [dict] is an
    association list kept in insertion order, with replacement in place.
    A call that may raise returns a [result].  The libraries the code
    calls ([httpx], [json], [lxml], [str.lower], the clock) are parameters
    of the sections that use them; for the round trip of JSON documents
    the encoder and the decoder of [json] are embedded as well. *)

From Stdlib Require Import String Ascii List ZArith QArith Lia Bool DecimalString.
Import ListNotations.

Open Scope string_scope.
Open Scope list_scope.
Open Scope Z_scope.

Set Warnings "-register-all".

(* ===================================================================== *)
(** * Part I: the embedding                                                *)
(* ===================================================================== *)

(** ** Python values, dictionaries, exceptions *)

Module Py.

(** The values that cross the functions below ([json.loads] results, the
    output of [_xml_to_dict], the query payload).  Floats do not occur in
    them and are left out. *)
Inductive pyval : Type :=
| PNone
| PBool (b : bool)
| PInt (z : Z)
| PStr (s : string)
| PList (items : list pyval)
| PDict (entries : list (string * pyval)).

Definition dict : Type := list (string * pyval).

(** Induction on a value and on the values inside it. *)
Section pyval_induction.

Variable P : pyval -> Prop.
Hypothesis HNone : P PNone.
Hypothesis HBool : forall b, P (PBool b).
Hypothesis HInt : forall z, P (PInt z).
Hypothesis HStr : forall s, P (PStr s).
Hypothesis HList : forall items, Forall P items -> P (PList items).
Hypothesis HDict :
  forall entries, Forall (fun kv => P (snd kv)) entries -> P (PDict entries).

Fixpoint pyval_nested_ind (v : pyval) : P v :=
  match v with
  | PNone => HNone
  | PBool b => HBool b
  | PInt z => HInt z
  | PStr s => HStr s
  | PList items =>
      HList items
        ((fix all (l : list pyval) : Forall P l :=
            match l with
            | [] => Forall_nil P
            | x :: rest => Forall_cons x (pyval_nested_ind x) (all rest)
            end) items)
  | PDict entries =>
      HDict entries
        ((fix all (l : list (string * pyval)) : Forall (fun kv => P (snd kv)) l :=
            match l with
            | [] => Forall_nil _
            | kv :: rest =>
                Forall_cons (P := fun kv => P (snd kv)) kv
                            (pyval_nested_ind (snd kv)) (all rest)
            end) entries)
  end.

End pyval_induction.

(** [d.get(key)] *)
Fixpoint dict_get (key : string) (d : dict) : option pyval :=
  match d with
  | [] => None
  | (k, v) :: rest => if String.eqb key k then Some v else dict_get key rest
  end.

(** [d.get(key, default)] *)
Definition dict_get_default (key : string) (default : pyval) (d : dict) : pyval :=
  match dict_get key d with
  | Some v => v
  | None => default
  end.

(** [d[key] = value]: an existing key keeps its position. *)
Fixpoint dict_set (key : string) (value : pyval) (d : dict) : dict :=
  match d with
  | [] => [(key, value)]
  | (k, v) :: rest =>
      if String.eqb key k then (k, value) :: rest
      else (k, v) :: dict_set key value rest
  end.

(** [d.update(other)] *)
Definition dict_update (d other : dict) : dict :=
  fold_left (fun acc kv => dict_set (fst kv) (snd kv) acc) other d.

(** Truthiness of an [Optional[str]] argument: [None] and [''] are false. *)
Definition truthy (o : option string) : bool :=
  match o with
  | None => false
  | Some s => negb (String.eqb s "")
  end.

(** [str(n)] for an [int]. *)
Definition str_int (z : Z) : string := NilZero.string_of_int (Z.to_int z).

(** The double quote character, as a one-character string. *)
Definition dquote : string := String (ascii_of_nat 34) EmptyString.

(** [sep.join(parts)] *)
Fixpoint join (sep : string) (parts : list string) : string :=
  match parts with
  | [] => ""
  | [p] => p
  | p :: rest => p ++ sep ++ join sep rest
  end.

(** The code of a byte. *)
Definition code (c : ascii) : nat := nat_of_ascii c.

(** The characters that [str.split()] and [str.strip()] take for
    whitespace ([str.isspace]), as they stand in UTF-8.  One byte: TAB,
    LF, VT, FF, CR, FS, GS, RS, US and the space. *)
Definition ascii_space (c : ascii) : bool :=
  ((9 <=? code c)%nat && (code c <=? 13)%nat)
  || ((28 <=? code c)%nat && (code c <=? 32)%nat).

(** Two bytes: U+0085 (C2 85) and U+00A0 (C2 A0). *)
Definition space2 (c1 c2 : ascii) : bool :=
  (code c1 =? 194)%nat && ((code c2 =? 133)%nat || (code c2 =? 160)%nat).

(** Three bytes: U+1680 (E1 9A 80), U+2000 to U+200A (E2 80 80 to 8A),
    U+2028 and U+2029 (E2 80 A8, A9), U+202F (E2 80 AF), U+205F (E2 81 9F)
    and U+3000 (E3 80 80). *)
Definition space3 (c1 c2 c3 : ascii) : bool :=
  ((code c1 =? 225)%nat && (code c2 =? 154)%nat && (code c3 =? 128)%nat)
  || ((code c1 =? 226)%nat && (code c2 =? 128)%nat
      && (((128 <=? code c3)%nat && (code c3 <=? 138)%nat)
          || (code c3 =? 168)%nat || (code c3 =? 169)%nat || (code c3 =? 175)%nat))
  || ((code c1 =? 226)%nat && (code c2 =? 129)%nat && (code c3 =? 159)%nat)
  || ((code c1 =? 227)%nat && (code c2 =? 128)%nat && (code c3 =? 128)%nat).

(** The number of bytes of the whitespace character that [s] starts with,
    [0] when it starts with none. *)
Definition space_width (s : string) : nat :=
  match s with
  | EmptyString => 0
  | String c1 rest1 =>
      if ascii_space c1 then 1
      else
        match rest1 with
        | EmptyString => 0
        | String c2 rest2 =>
            if space2 c1 c2 then 2
            else
              match rest2 with
              | EmptyString => 0
              | String c3 _ => if space3 c1 c2 c3 then 3 else 0
              end
        end
  end.

(** [s.lstrip()]; [skip] counts the bytes still to drop of a whitespace
    character that has begun. *)
Fixpoint lstrip_from (skip : nat) (s : string) : string :=
  match s with
  | EmptyString => EmptyString
  | String c rest =>
      match skip with
      | S n => lstrip_from n rest
      | O =>
          match space_width s with
          | O => s
          | S n => lstrip_from n rest
          end
      end
  end.

(** [s.rstrip()]: the bytes of a whitespace character are kept only when
    something that is kept follows them. *)
Fixpoint rstrip_from (skip : nat) (s : string) : string :=
  match s with
  | EmptyString => EmptyString
  | String c rest =>
      match skip with
      | S n =>
          match rstrip_from n rest with
          | EmptyString => EmptyString
          | kept => String c kept
          end
      | O =>
          match space_width s with
          | O => String c (rstrip_from 0 rest)
          | S n =>
              match rstrip_from n rest with
              | EmptyString => EmptyString
              | kept => String c kept
              end
          end
      end
  end.

Definition lstrip (s : string) : string := lstrip_from 0 s.
Definition rstrip (s : string) : string := rstrip_from 0 s.

(** [s.strip()] *)
Definition strip (s : string) : string := rstrip (lstrip s).

(** The word read so far, as a token when it is not empty. *)
Definition flush (word : string) : list string :=
  match word with
  | EmptyString => []
  | _ => [word]
  end.

(** [s.split()]: the maximal runs of characters that are not whitespace.
    [word] is the run being read, [skip] as in [lstrip_from]. *)
Fixpoint split_from (skip : nat) (word : string) (s : string) : list string :=
  match s with
  | EmptyString => flush word
  | String c rest =>
      match skip with
      | S n => split_from n word rest
      | O =>
          match space_width s with
          | O => split_from 0 (word ++ String c EmptyString) rest
          | S n => flush word ++ split_from n EmptyString rest
          end
      end
  end.

Definition split (s : string) : list string := split_from 0 EmptyString s.

(** [needle in haystack] for two strings. *)
Fixpoint contains (needle haystack : string) : bool :=
  String.prefix needle haystack
  || match haystack with
     | EmptyString => false
     | String _ rest => contains needle rest
     end.

(** The exceptions that occur.  [RequestError] stands for
    [httpx.RequestError] and its subclasses, [httpx.TimeoutException] among
    them; each carries [str(e)]. *)
Inductive exn : Type :=
| RequestError (msg : string)
| HTTPStatusError (status : Z) (msg : string)
| JSONDecodeError (msg : string)
| XMLSyntaxError (msg : string)
| AttributeError (msg : string)
| UnboundLocalError (name : string)
| TypeError (msg : string)
| OtherError (msg : string).

Inductive result (A : Type) : Type :=
| Return (a : A)
| Raise (e : exn).

Arguments Return {A} a.
Arguments Raise {A} e.

Definition bind {A B : Type} (r : result A) (k : A -> result B) : result B :=
  match r with
  | Return a => k a
  | Raise e => Raise e
  end.

End Py.

Import Py.

Notation "x <- r ;; k" := (bind r (fun x => k))
  (at level 61, r at next level, right associativity).

(** ** The regular expressions of [re], as far as the pattern needs them *)

Module re.

Inductive regex : Type :=
| Bol                       (* ^ *)
| Eol                       (* $ *)
| Chr (c : ascii)           (* a literal character *)
| Digit                     (* \d *)
| Eps                       (* the empty pattern *)
| Seq (r1 r2 : regex)       (* r1r2 *)
| Alt (r1 r2 : regex).      (* r1|r2 *)

(** A literal word. *)
Fixpoint lit (s : string) : regex :=
  match s with
  | EmptyString => Eps
  | String c rest => Seq (Chr c) (lit rest)
  end.

(** [r{n}] *)
Fixpoint times (n : nat) (r : regex) : regex :=
  match n with
  | O => Eps
  | S k => Seq r (times k r)
  end.

(** [r{0,n}], greedy *)
Fixpoint upto (n : nat) (r : regex) : regex :=
  match n with
  | O => Eps
  | S k => Alt (Seq r (upto k r)) Eps
  end.

(** [r{lo,hi}] *)
Definition between (lo hi : nat) (r : regex) : regex :=
  Seq (times lo r) (upto (hi - lo) r).

(** The ASCII digits [0] to [9], and the bytes of the ASCII characters. *)
Definition ascii_digit (c : ascii) : bool :=
  (48 <=? nat_of_ascii c)%nat && (nat_of_ascii c <=? 57)%nat.

Definition is_ascii (c : ascii) : bool := (nat_of_ascii c <? 128)%nat.

Definition line_feed : ascii := ascii_of_nat 10.

(** Without [re.MULTILINE], [$] matches at the end of the string and just
    before a line feed that ends the string. *)
Definition at_end (rest : string) : bool :=
  match rest with
  | EmptyString => true
  | String c EmptyString => Ascii.eqb c line_feed
  | _ => false
  end.

Section Matcher.

(** Unicode's decimal digits beyond ASCII: for a subject that starts with
    a character outside ASCII, what follows that character when [\d]
    matches it. *)
Variable wide_digit : string -> option string.

(** [\d] at the head of [s]: what follows the digit, when there is one.
    For a [str] pattern [\d] matches every decimal digit of Unicode. *)
Definition digit (s : string) : option string :=
  match s with
  | EmptyString => None
  | String c rest =>
      if is_ascii c then (if ascii_digit c then Some rest else None)
      else wide_digit s
  end.

(** The backtracking matcher: [run r pos s k] matches [r] at offset [pos],
    where [s] is what is left of the subject, and hands the rest to [k]. *)
Fixpoint run (r : regex) (pos : nat) (s : string) (k : nat -> string -> bool) : bool :=
  match r with
  | Bol => Nat.eqb pos 0 && k pos s
  | Eol => at_end s && k pos s
  | Chr c =>
      match s with
      | String c' rest => Ascii.eqb c' c && k (S pos) rest
      | EmptyString => false
      end
  | Digit =>
      match digit s with
      | Some rest => k (S pos) rest
      | None => false
      end
  | Eps => k pos s
  | Seq r1 r2 => run r1 pos s (fun pos' s' => run r2 pos' s' k)
  | Alt r1 r2 => run r1 pos s k || run r2 pos s k
  end.

(** [bool(re.match(pattern, subject))]: a match that starts at offset 0 and
    may end anywhere. *)
Definition matches (pattern : regex) (subject : string) : bool :=
  run pattern 0 subject (fun _ _ => true).

End Matcher.

End re.

(** ** The [json] module: [json.dumps] and [json.loads]

    The encoder as [build_search_query] calls it, and the decoder as
    [_parse_response] calls it, for a [str] in UTF-8. *)

Module json.

Definition quote : ascii := ascii_of_nat 34.
Definition backslash : ascii := ascii_of_nat 92.

(** *** The encoder ([json/encoder.py]) *)

(** ['0123456789abcdef'[n]] *)
Definition hex_digit (n : nat) : ascii :=
  if (n <? 10)%nat then ascii_of_nat (48 + n) else ascii_of_nat (87 + n).

(** [ESCAPE_DCT]: what the encoder writes for a character.  The quote,
    the backslash and the control characters below U+0020 are escaped;
    with [ensure_ascii=False] every other character stands for itself. *)
Definition escape (c : ascii) : string :=
  let n := code c in
  if (n =? 34)%nat then String backslash (String quote EmptyString)
  else if (n =? 92)%nat then String backslash (String backslash EmptyString)
  else if (n =? 8)%nat then String backslash "b"
  else if (n =? 12)%nat then String backslash "f"
  else if (n =? 10)%nat then String backslash "n"
  else if (n =? 13)%nat then String backslash "r"
  else if (n =? 9)%nat then String backslash "t"
  else if (n <? 32)%nat
       then String backslash
              ("u00" ++ String (hex_digit (n / 16))
                          (String (hex_digit (n mod 16)) EmptyString))%string
  else String c EmptyString.

(** [ESCAPE.sub(replace, s)] *)
Fixpoint escape_all (s : string) : string :=
  match s with
  | EmptyString => EmptyString
  | String c rest => (escape c ++ escape_all rest)%string
  end.

(** [encode_basestring] *)
Definition encode_basestring (s : string) : string :=
  String quote (escape_all s ++ String quote EmptyString)%string.

(** [json.dumps(value, ensure_ascii=False)], as [build_search_query] calls
    it: no indentation, the separators [', '] and [': ']. *)
Fixpoint dumps (value : pyval) : string :=
  match value with
  | PNone => "null"
  | PBool true => "true"
  | PBool false => "false"
  | PInt z => str_int z
  | PStr s => encode_basestring s
  | PList items => ("[" ++ join ", " (map dumps items) ++ "]")%string
  | PDict entries =>
      ("{" ++ join ", " (map (fun kv => encode_basestring (fst kv) ++ ": " ++ dumps (snd kv))
                             entries)
           ++ "}")%string
  end.

(** *** The decoder ([json/decoder.py], [json/scanner.py] and their C
    twins in [_json]) *)

(** [WHITESPACE]: the space, TAB, LF and CR. *)
Definition is_whitespace (c : ascii) : bool :=
  (code c =? 32)%nat || (code c =? 9)%nat || (code c =? 10)%nat || (code c =? 13)%nat.

Fixpoint skip_whitespace (s : string) : string :=
  match s with
  | EmptyString => EmptyString
  | String c rest => if is_whitespace c then skip_whitespace rest else s
  end.

(** [s.startswith(word)] *)
Fixpoint startswith (word s : string) : bool :=
  match word with
  | EmptyString => true
  | String a word' =>
      match s with
      | EmptyString => false
      | String b s' => Ascii.eqb a b && startswith word' s'
      end
  end.

(** [s[n:]] *)
Fixpoint drop (n : nat) (s : string) : string :=
  match n, s with
  | S k, String _ rest => drop k rest
  | _, _ => s
  end.

(** The value of a hexadecimal digit. *)
Definition hex_value (c : ascii) : option N :=
  let n := N_of_ascii c in
  if ((48 <=? n) && (n <=? 57))%N then Some (n - 48)%N
  else if ((97 <=? n) && (n <=? 102))%N then Some (n - 87)%N
  else if ((65 <=? n) && (n <=? 70))%N then Some (n - 55)%N
  else None.

(** [_decode_uXXXX]: the number that four hexadecimal digits write. *)
Definition decode_uXXXX (h1 h2 h3 h4 : ascii) : option N :=
  match hex_value h1, hex_value h2, hex_value h3, hex_value h4 with
  | Some a, Some b, Some c, Some d => Some (((a * 16 + b) * 16 + c) * 16 + d)%N
  | _, _, _, _ => None
  end.

Definition byte_of (n : N) : ascii := ascii_of_N n.

(** [chr(n)], in UTF-8.  A lone surrogate, which a Python [str] can hold
    and UTF-8 cannot, is written in three bytes like its neighbours. *)
Definition chr (n : N) : string :=
  if (n <? 128)%N then String (byte_of n) EmptyString
  else if (n <? 2048)%N
       then String (byte_of (192 + n / 64))
              (String (byte_of (128 + n mod 64)) EmptyString)
  else if (n <? 65536)%N
       then String (byte_of (224 + n / 4096))
              (String (byte_of (128 + (n / 64) mod 64))
                 (String (byte_of (128 + n mod 64)) EmptyString))
  else String (byte_of (240 + n / 262144))
         (String (byte_of (128 + (n / 4096) mod 64))
            (String (byte_of (128 + (n / 64) mod 64))
               (String (byte_of (128 + n mod 64)) EmptyString))).

Definition high_surrogate (n : N) : bool := ((55296 <=? n) && (n <=? 56319))%N.
Definition low_surrogate (n : N) : bool := ((56320 <=? n) && (n <=? 57343))%N.

(** [BACKSLASH]: the character a one-letter escape stands for. *)
Definition BACKSLASH (esc : ascii) : option ascii :=
  let n := code esc in
  if (n =? 34)%nat then Some quote
  else if (n =? 92)%nat then Some backslash
  else if (n =? 47)%nat then Some "/"%char
  else if (n =? 98)%nat then Some (ascii_of_nat 8)
  else if (n =? 102)%nat then Some (ascii_of_nat 12)
  else if (n =? 110)%nat then Some (ascii_of_nat 10)
  else if (n =? 114)%nat then Some (ascii_of_nat 13)
  else if (n =? 116)%nat then Some (ascii_of_nat 9)
  else None.

(** The errors of the decoder, by the message of the [JSONDecodeError]. *)
Definition unterminated_string : string := "Unterminated string starting at".
Definition invalid_control_character : string := "Invalid control character at".
Definition invalid_escape : string := "Invalid \escape".
Definition invalid_uXXXX_escape : string := "Invalid \uXXXX escape".
Definition expecting_value : string := "Expecting value".
Definition expecting_property_name : string :=
  "Expecting property name enclosed in double quotes".
Definition expecting_colon : string := "Expecting ':' delimiter".
Definition expecting_comma : string := "Expecting ',' delimiter".
Definition extra_data : string := "Extra data".
Definition unexpected_bom : string := "Unexpected UTF-8 BOM (decode using utf-8-sig)".

(** What the functions below answer when their fuel is used up. *)
Definition too_deep : string := "maximum recursion depth exceeded".

(** The characters [chars], then what [scanned] holds. *)
Definition then_scanned (chars : string) (scanned : (string * string) + string)
  : (string * string) + string :=
  match scanned with
  | inl (text, rest) => inl ((chars ++ text)%string, rest)
  | inr e => inr e
  end.

(** [scanstring] in strict mode, from behind the opening quote: the text
    of the string and what follows its closing quote. *)
Fixpoint scanstring (s : string) : (string * string) + string :=
  match s with
  | EmptyString => inr unterminated_string
  | String c rest =>
      if Ascii.eqb c quote then inl (EmptyString, rest)
      else if Ascii.eqb c backslash then
        match rest with
        | EmptyString => inr unterminated_string
        | String esc after =>
            if Ascii.eqb esc "u" then
              match after with
              | String h1 (String h2 (String h3 (String h4 (String _ _ as more)))) =>
                  match decode_uXXXX h1 h2 h3 h4 with
                  | None => inr invalid_uXXXX_escape
                  | Some uni =>
                      if high_surrogate uni then
                        match more with
                        | String b (String u (String g1 (String g2 (String g3
                            (String g4 (String _ _ as more2)))))) =>
                            if Ascii.eqb b backslash && Ascii.eqb u "u" then
                              match decode_uXXXX g1 g2 g3 g4 with
                              | None => inr invalid_uXXXX_escape
                              | Some uni2 =>
                                  if low_surrogate uni2
                                  then then_scanned
                                         (chr (65536 + (uni - 55296) * 1024 + (uni2 - 56320))%N)
                                         (scanstring more2)
                                  else then_scanned (chr uni) (scanstring more)
                              end
                            else then_scanned (chr uni) (scanstring more)
                        | _ => then_scanned (chr uni) (scanstring more)
                        end
                      else then_scanned (chr uni) (scanstring more)
                  end
              | _ => inr invalid_uXXXX_escape
              end
            else
              match BACKSLASH esc with
              | Some char => then_scanned (String char EmptyString) (scanstring after)
              | None => inr invalid_escape
              end
        end
      else if (code c <? 32)%nat then inr invalid_control_character
      else then_scanned (String c EmptyString) (scanstring rest)
  end.

(** The digits that [s] starts with, and what follows them. *)
Definition is_digit (c : ascii) : bool := (48 <=? code c)%nat && (code c <=? 57)%nat.

Fixpoint span_digits (s : string) : string * string :=
  match s with
  | EmptyString => (EmptyString, EmptyString)
  | String c rest =>
      if is_digit c
      then let (digits, after) := span_digits rest in (String c digits, after)
      else (EmptyString, s)
  end.

(** The fraction [.digits] that [s] starts with, if any. *)
Definition span_fraction (s : string) : string * string :=
  match s with
  | String c (String d rest) =>
      if Ascii.eqb c "." && is_digit d
      then let (digits, after) := span_digits rest in (String c (String d digits), after)
      else (EmptyString, s)
  | _ => (EmptyString, s)
  end.

(** The exponent [e], sign, digits that [s] starts with, if any. *)
Definition span_exponent (s : string) : string * string :=
  match s with
  | String e rest =>
      if Ascii.eqb e "e" || Ascii.eqb e "E" then
        let (sign, unsigned) :=
          match rest with
          | String c rest' =>
              if Ascii.eqb c "-" || Ascii.eqb c "+"
              then (String c EmptyString, rest') else (EmptyString, rest)
          | EmptyString => (EmptyString, rest)
          end in
        match span_digits unsigned with
        | (EmptyString, _) => (EmptyString, s)
        | (digits, after) => (String e (sign ++ digits)%string, after)
        end
      else (EmptyString, s)
  | EmptyString => (EmptyString, s)
  end.

(** [_match_number]: the literal of the number that [s] starts with,
    whether it has a fraction or an exponent, and what follows it.  After
    the integer part [integer], with [after] left: *)
Definition match_number_tail (integer after : string) : string * bool * string :=
  let (fraction, after_fraction) := span_fraction after in
  let (exponent, after_exponent) := span_exponent after_fraction in
  ((integer ++ fraction ++ exponent)%string,
   negb (String.eqb fraction "" && String.eqb exponent ""),
   after_exponent).

(** After the sign: [0] alone, or a digit from [1] to [9] and more digits. *)
Definition match_unsigned (sign unsigned : string) : option (string * bool * string) :=
  match unsigned with
  | EmptyString => None
  | String c rest =>
      if Ascii.eqb c "0"
      then Some (match_number_tail (sign ++ String c EmptyString) rest)
      else if is_digit c
           then let (digits, after) := span_digits rest in
                Some (match_number_tail (sign ++ String c digits) after)
      else None
  end.

Definition match_number (s : string) : option (string * bool * string) :=
  match s with
  | EmptyString => None
  | String c rest =>
      if Ascii.eqb c "-" then match_unsigned (String c EmptyString) rest
      else match_unsigned EmptyString s
  end.

Section Decoder.

(** The hooks of the decoder: what [int], [float] and the constants [NaN],
    [Infinity] and [-Infinity] read as ([int] and [float] by default; a
    hook may raise). *)
Variable parse_int : string -> pyval + string.
Variable parse_float : string -> pyval + string.
Variable parse_constant : string -> pyval + string.

(** A value read and what follows it, or the error. *)
Definition scanned : Type := (pyval * string) + string.

Definition hooked (value : pyval + string) (rest : string) : scanned :=
  match value with
  | inl v => inl (v, rest)
  | inr e => inr e
  end.

(** [scan_once], [JSONObject] and [JSONArray]: the value that [s] starts
    with.  [fuel] bounds the calls in progress. *)
Fixpoint scan_once (fuel : nat) (s : string) {struct fuel} : scanned :=
  match fuel with
  | O => inr too_deep
  | S n =>
      match s with
      | EmptyString => inr expecting_value
      | String c rest =>
          if Ascii.eqb c quote then
            match scanstring rest with
            | inl (text, after) => inl (PStr text, after)
            | inr e => inr e
            end
          else if Ascii.eqb c "{" then
            match skip_whitespace rest with
            | String c' after as inside =>
                if Ascii.eqb c' "}" then inl (PDict [], after)
                else JSONObject n inside []
            | EmptyString => inr expecting_property_name
            end
          else if Ascii.eqb c "[" then
            match skip_whitespace rest with
            | String c' after as inside =>
                if Ascii.eqb c' "]" then inl (PList [], after)
                else JSONArray n inside []
            | EmptyString => inr expecting_value
            end
          else if startswith "null" s then inl (PNone, drop 4 s)
          else if startswith "true" s then inl (PBool true, drop 4 s)
          else if startswith "false" s then inl (PBool false, drop 5 s)
          else if startswith "NaN" s then hooked (parse_constant "NaN") (drop 3 s)
          else if startswith "Infinity" s
               then hooked (parse_constant "Infinity") (drop 8 s)
          else if startswith "-Infinity" s
               then hooked (parse_constant "-Infinity") (drop 9 s)
          else
            match match_number s with
            | Some (literal, true, after) => hooked (parse_float literal) after
            | Some (literal, false, after) => hooked (parse_int literal) after
            | None => inr expecting_value
            end
      end
  end

with JSONObject (fuel : nat) (s : string) (pairs : dict) {struct fuel} : scanned :=
  match fuel with
  | O => inr too_deep
  | S n =>
      match s with
      | EmptyString => inr expecting_property_name
      | String c rest =>
          if Ascii.eqb c quote then
            match scanstring rest with
            | inr e => inr e
            | inl (key, after_key) =>
                match skip_whitespace after_key with
                | EmptyString => inr expecting_colon
                | String colon after_colon =>
                    if Ascii.eqb colon ":" then
                      match scan_once n (skip_whitespace after_colon) with
                      | inr e => inr e
                      | inl (value, after_value) =>
                          let pairs' := dict_set key value pairs in
                          match skip_whitespace after_value with
                          | EmptyString => inr expecting_comma
                          | String c' after =>
                              if Ascii.eqb c' "}" then inl (PDict pairs', after)
                              else if Ascii.eqb c' ","
                                   then JSONObject n (skip_whitespace after) pairs'
                              else inr expecting_comma
                          end
                      end
                    else inr expecting_colon
                end
            end
          else inr expecting_property_name
      end
  end

with JSONArray (fuel : nat) (s : string) (values : list pyval) {struct fuel} : scanned :=
  match fuel with
  | O => inr too_deep
  | S n =>
      match scan_once n s with
      | inr e => inr e
      | inl (value, after_value) =>
          match skip_whitespace after_value with
          | EmptyString => inr expecting_comma
          | String c' after =>
              if Ascii.eqb c' "]" then inl (PList (values ++ [value]), after)
              else if Ascii.eqb c' ","
                   then JSONArray n (skip_whitespace after) (values ++ [value])
              else inr expecting_comma
          end
      end
  end.

(** U+FEFF, in UTF-8. *)
Definition BOM : string :=
  String (ascii_of_nat 239) (String (ascii_of_nat 187) (String (ascii_of_nat 191) EmptyString)).

(** [json.loads(s)] for a [str]: one value, with whitespace around it and
    nothing else.  The interpreter's recursion limit is not modelled:
    [fuel] starts at twice the length of the text and two, and more than
    that changes nothing. *)
Definition loads (s : string) : pyval + string :=
  if startswith BOM s then inr unexpected_bom
  else
    match scan_once (2 * String.length s + 2) (skip_whitespace s) with
    | inr e => inr e
    | inl (value, rest) =>
        match skip_whitespace rest with
        | EmptyString => inl value
        | _ => inr extra_data
        end
    end.

End Decoder.

End json.

(** ** boe_models.py: the error model and the identifier check *)

Module boe_models.

(** [class APIError(BaseModel)]: a pydantic model with four fields. *)
Record APIError : Type := mkAPIError {
  codigo : Z;
  mensaje : string;
  detalles : option string;
  timestamp : Z
}.

(** What a [raise] statement is given in this code base: an exception
    instance, or an instance of the [APIError] model. *)
Inductive raised : Type :=
| Exc (e : exn)
| Model (a : APIError).

Definition not_an_exception : string := "exceptions must derive from BaseException".

(** The statement [raise o].  Python raises [o] when its class derives from
    [BaseException], and [TypeError] otherwise; [APIError] derives from
    pydantic's [BaseModel] only (boe_models.py, line 468). *)
Definition py_raise {A : Type} (o : raised) : result A :=
  match o with
  | Exc e => Raise e
  | Model _ => Raise (TypeError not_an_exception)
  end.

Import re.

(** [r'^(BOE|BORME)-S-\d{4}-\d{1,3}$'] *)
Definition pattern : regex :=
  Seq Bol
   (Seq (Alt (lit "BOE") (lit "BORME"))
    (Seq (lit "-S-")
     (Seq (times 4 Digit)
      (Seq (Chr "-")
       (Seq (between 1 3 Digit) Eol))))).

(** [validate_boe_identifier]: [bool(re.match(pattern, identifier))];
    [wide_digit] as in [re]. *)
Definition validate_boe_identifier (wide_digit : string -> option string)
           (identifier : string) : bool :=
  matches wide_digit pattern identifier.

End boe_models.

Import boe_models.

(** ** http_client.py: BOEHTTPClient *)

Module http_client.

(** An [httpx.Response], as far as the client reads it. *)
Record Response : Type := mkResponse {
  status_code : Z;
  text : string
}.

(** [response.is_success]: a 2xx status; [raise_for_status] raises
    [HTTPStatusError] for every other one. *)
Definition is_success (r : Response) : bool :=
  (200 <=? status_code r) && (status_code r <=? 299).

(** What the executor does to the outside world, in order. *)
Inductive event : Type :=
| Request (attempt : Z)
| Sleep (seconds : Q).

(** An [lxml] element: tag, attributes in document order, the text before
    the first child, the child elements. *)
Inductive element : Type :=
| Element (tag : string) (attrib : list (string * string))
          (text : option string) (children : list element).

Definition tag_of (e : element) : string :=
  match e with Element t _ _ _ => t end.

(** [range(n)] *)
Definition range (n : Z) : list Z := map Z.of_nat (seq 0 (Z.to_nat n)).

Section Client.

(** The client's configuration. *)
Variable max_retries : Z.
Variable retry_delay : Q.

(** The transport: what [self._client.request] does in attempt [attempt],
    a response or an exception. *)
Variable request : Z -> result Response.

(** [str(e)] of the [HTTPStatusError] that [raise_for_status] builds for a
    response; httpx words it. *)
Variable status_error_text : Response -> string.

(** [datetime.now()] *)
Variable now : Z.

(** [json.loads] and [lxml.etree.fromstring]: the parsed value, or the
    text of the [JSONDecodeError] / [XMLSyntaxError] raised. *)
Variable json_loads : string -> pyval + string.
Variable etree_fromstring : string -> element + string.

(** [json.dumps(value, ensure_ascii=False)] *)
Variable json_dumps : pyval -> string.

(** [str(last_exception)] *)
Definition str_last (last_exception : option string) : string :=
  match last_exception with
  | None => "None"
  | Some cause => cause
  end.

(** The operand of the [raise] that follows the loop (lines 180-185). *)
Definition retries_exhausted (last_exception : option string) : APIError :=
  mkAPIError 500 "Error de conexión después de varios reintentos"
             (Some (str_last last_exception)) now.

(** The operand of the [raise] in the [HTTPStatusError] handler
    (lines 172-177). *)
Definition http_error (status : Z) (details : string) : APIError :=
  mkAPIError status ("Error HTTP " ++ str_int status) (Some details) now.

(** The [try] block of one attempt (lines 145-160): the request, then
    [response.raise_for_status()]. *)
Definition try_request (attempt : Z) : result Response :=
  response <- request attempt ;;
  if is_success response then Return response
  else Raise (HTTPStatusError (status_code response) (status_error_text response)).

(** The body of [for attempt in range(self.max_retries + 1)], over the
    attempts still to make; [trace] holds the events so far.  The log
    lines are left out. *)
Fixpoint attempts (todo : list Z) (last_exception : option string)
         (trace : list event) : result Response * list event :=
  match todo with
  | [] => (py_raise (Model (retries_exhausted last_exception)), trace)
  | attempt :: rest =>
      let trace := trace ++ [Request attempt] in
      match try_request attempt with
      | Return response => (Return response, trace)
      | Raise (RequestError cause) =>
          let trace :=
            if attempt <? max_retries
            then trace ++ [Sleep (retry_delay * inject_Z (attempt + 1))]
            else trace in
          attempts rest (Some cause) trace
      | Raise (HTTPStatusError status details) =>
          (py_raise (Model (http_error status details)), trace)
      | Raise e => (Raise e, trace)
      end
  end.

Definition _make_request : result Response * list event :=
  attempts (range (max_retries + 1)) None [].

(** [_xml_to_dict]: the entry a child adds to [child_dict]. *)
Definition add_child (child_dict : dict) (tag : string) (child_data : pyval) : dict :=
  match dict_get tag child_dict with
  | Some existing =>
      let items :=
        match existing with
        | PList items => items
        | _ => [existing]
        end in
      dict_set tag (PList (items ++ [child_data])) child_dict
  | None => dict_set tag child_data child_dict
  end.

(** The attributes of an element, each under its name prefixed with [@]. *)
Definition attributes (attrib : list (string * string)) : dict :=
  fold_left (fun result kv => dict_set ("@" ++ fst kv) (PStr (snd kv)) result)
            attrib [].

(** [element.text.strip()] when [element.text and element.text.strip()]. *)
Definition own_text (text : option string) : option string :=
  match text with
  | None => None
  | Some t => if String.eqb (strip t) "" then None else Some (strip t)
  end.

Fixpoint _xml_to_dict (e : element) : pyval :=
  match e with
  | Element _ attrib text children =>
      let result := attributes attrib in
      match children with
      | [] =>
          PStr (match text with
                | Some t => strip t
                | None => ""
                end)
      | _ :: _ =>
          let child_dict :=
            fold_left (fun cd child => add_child cd (tag_of child) (_xml_to_dict child))
                      children [] in
          let child_dict :=
            match own_text text with
            | Some t => dict_set "text" (PStr t) child_dict
            | None => child_dict
            end in
          PDict (dict_update result child_dict)
      end
  end.

(** The local variable [child_dict] once the children are read. *)
Definition child_dict_of (children : list element) : dict :=
  fold_left (fun cd child => add_child cd (tag_of child) (_xml_to_dict child))
            children [].

(** The operands of the two [raise] statements of [_parse_response]. *)
Definition unsupported_format (accept_format : string) : APIError :=
  mkAPIError 400 ("Formato no soportado: " ++ accept_format) None now.

Definition parse_error (details : string) : APIError :=
  mkAPIError 500 "Error parseando respuesta de la API" (Some details) now.

(** The [try] block of [_parse_response]: what it returns or raises, and
    whether the local name [etree] has been bound by then (only the XML
    branch runs [from lxml import etree]). *)
Definition parse_body (content accept_format : string) : result pyval * bool :=
  if String.eqb accept_format "application/json" then
    (match json_loads content with
     | inl value => Return value
     | inr msg => Raise (JSONDecodeError msg)
     end, false)
  else if String.eqb accept_format "application/xml" then
    (match etree_fromstring content with
     | inl root => Return (_xml_to_dict root)
     | inr msg => Raise (XMLSyntaxError msg)
     end, true)
  else (py_raise (Model (unsupported_format accept_format)), false).

(** [_parse_response].  When the body raises, the clause
    [except (json.JSONDecodeError, etree.XMLSyntaxError) as e] first
    evaluates its tuple, which reads the local name [etree]. *)
Definition _parse_response (content accept_format : string) : result pyval :=
  match parse_body content accept_format with
  | (Return value, _) => Return value
  | (Raise e, etree_bound) =>
      if etree_bound then
        match e with
        | JSONDecodeError msg | XMLSyntaxError msg =>
            py_raise (Model (parse_error msg))
        | _ => Raise e
        end
      else Raise (UnboundLocalError "etree")
  end.

(** [build_search_query]: the list [query_parts]. *)
Definition clause (present : option string) (render : string -> string) : list string :=
  match present with
  | Some value => if truthy present then [render value] else []
  | None => []
  end.

Definition query_parts (text title department legal_range matter : option string)
  : list string :=
  clause text (fun v => "texto:" ++ dquote ++ v ++ dquote)%string
  ++ clause title (fun v => "titulo:" ++ dquote ++ v ++ dquote)%string
  ++ clause department (fun v => "departamento@codigo:" ++ v)%string
  ++ clause legal_range (fun v => "rango@codigo:" ++ v)%string
  ++ clause matter (fun v => "materia@codigo:" ++ v)%string.

Definition query_string (parts : list string) : string :=
  match parts with
  | [] => ""
  | _ => join " AND " parts
  end.

(** The dictionary [date_range]. *)
Definition date_range (date_from date_to : option string) : dict :=
  let d := [] in
  let d := match date_from with
           | Some v => if truthy date_from then dict_set "gte" (PStr v) d else d
           | None => d
           end in
  match date_to with
  | Some v => if truthy date_to then dict_set "lte" (PStr v) d else d
  | None => d
  end.

(** The dictionary [query_json] that is serialised. *)
Definition query_json (text title department legal_range matter date_from date_to
                       : option string) : pyval :=
  let inner :=
    [("query_string",
      PDict [("query",
              PStr (query_string (query_parts text title department legal_range matter)))])] in
  let inner :=
    if truthy date_from || truthy date_to then
      dict_set "range" (PDict [("fecha_publicacion", PDict (date_range date_from date_to))])
               inner
    else inner in
  PDict [("query", PDict inner)].

Definition build_search_query (text title department legal_range matter date_from date_to
                               : option string) : string :=
  json_dumps (query_json text title department legal_range matter date_from date_to).

End Client.

End http_client.

(** ** warnings_handler.py: BOEWarnings and SearchResultValidator *)

Module warnings_handler.

Definition newline : string := String (ascii_of_nat 10) EmptyString.

(** [BOEWarnings._get_example_for_param] *)
Definition _get_example_for_param (param_name : string) : string :=
  if String.eqb param_name "law_id" then "`BOE-A-2015-10565`"
  else if String.eqb param_name "date" then "`20240529` (formato AAAAMMDD)"
  else if String.eqb param_name "from_date" then "`20240101` (formato AAAAMMDD)"
  else if String.eqb param_name "to_date" then "`20241231` (formato AAAAMMDD)"
  else if String.eqb param_name "department_code" then "`7723` (Jefatura del Estado)"
  else if String.eqb param_name "legal_range_code" then "`1300` (Ley)"
  else if String.eqb param_name "limit" then "`20` (número entre 1-100)"
  else if String.eqb param_name "offset" then "`0` (número >= 0)"
  else "Ver documentación".

(** [BOEWarnings.invalid_parameter_warning] *)
Definition invalid_parameter_warning (param_name param_value expected_format : string)
  : string :=
  ("❌ **Parámetro inválido: " ++ param_name ++ "**" ++ newline
   ++ "   - Valor proporcionado: `" ++ param_value ++ "`" ++ newline
   ++ "   - Formato esperado: " ++ expected_format ++ newline
   ++ "   - Ejemplo correcto: " ++ _get_example_for_param param_name)%string.

(** The dictionary [validation]. *)
Record validation : Type := mkValidation {
  search_text : string;
  total_results : Z;
  matching_results : Z;
  confidence : Q;
  likely_incorrect : bool;
  mismatched_titles : list pyval
}.

Definition count_match (v : validation) : validation :=
  mkValidation (search_text v) (total_results v) (matching_results v + 1)
               (confidence v) (likely_incorrect v) (mismatched_titles v).

Definition add_mismatch (title : pyval) (v : validation) : validation :=
  mkValidation (search_text v) (total_results v) (matching_results v)
               (confidence v) (likely_incorrect v) (mismatched_titles v ++ [title]).

Definition set_confidence (c : Q) (v : validation) : validation :=
  mkValidation (search_text v) (total_results v) (matching_results v)
               c (likely_incorrect v) (mismatched_titles v).

Definition set_likely_incorrect (b : bool) (v : validation) : validation :=
  mkValidation (search_text v) (total_results v) (matching_results v)
               (confidence v) b (mismatched_titles v).

(** [x < y] on floats. *)
Definition Qlt_bool (x y : Q) : bool := negb (Qle_bool y x).

Section Validator.

(** [str.lower], which rests on Unicode's case tables. *)
Variable lower : string -> string.

(** [value.lower()] on a value taken from a result: only a [str] has the
    method. *)
Definition lower_of (value : pyval) : result string :=
  match value with
  | PStr s => Return (lower s)
  | _ => Raise (AttributeError "lower")
  end.

(** The loop over [search_terms], which stops at the first term found
    (lines 246-250). *)
Fixpoint match_found (search_terms : list string) (title identifier : string) : bool :=
  match search_terms with
  | [] => false
  | term :: rest =>
      if contains term title || contains term identifier then true
      else match_found rest title identifier
  end.

(** The loop over [results] (lines 241-255). *)
Fixpoint check_results (search_terms : list string) (results : list dict)
         (v : validation) : result validation :=
  match results with
  | [] => Return v
  | r :: rest =>
      title <- lower_of (dict_get_default "titulo" (PStr "") r) ;;
      identifier <- lower_of (dict_get_default "identificador" (PStr "") r) ;;
      check_results search_terms rest
        (if match_found search_terms title identifier
         then count_match v
         else add_mismatch (dict_get_default "titulo" (PStr "Sin título") r) v)
  end.

(** [SearchResultValidator.validate_search_results].  [log_mismatches]
    only selects whether a warning is logged and is left out. *)
Definition validate_search_results (search_text : string) (results : list dict)
  : result validation :=
  let validation :=
    mkValidation search_text (Z.of_nat (length results)) 0 0%Q false [] in
  match results with
  | [] => Return validation
  | _ :: _ =>
      let search_lower := lower search_text in
      let search_terms := split search_lower in
      validation <- check_results search_terms results validation ;;
      let validation :=
        if 0 <? total_results validation
        then set_confidence (inject_Z (matching_results validation)
                             / inject_Z (total_results validation))%Q validation
        else validation in
      Return (set_likely_incorrect (Qlt_bool (confidence validation) (3 # 10)) validation)
  end.

End Validator.

(** [str.lower] on the ASCII letters; the other bytes are kept. *)
Definition ascii_lower_char (c : ascii) : ascii :=
  let n := nat_of_ascii c in
  if (65 <=? n)%nat && (n <=? 90)%nat then ascii_of_nat (n + 32) else c.

Fixpoint ascii_lower (s : string) : string :=
  match s with
  | EmptyString => EmptyString
  | String c rest => String (ascii_lower_char c) (ascii_lower rest)
  end.

End warnings_handler.



(** ** legislation.py: the identifier check of the law tools *)

Module legislation.

Import warnings_handler.

(** A [TextContent] of type [text]. *)
Record TextContent : Type := mkTextContent { content_text : string }.

Section Tools.

(** Unicode's decimal digits beyond ASCII, as in [re]. *)
Variable wide_digit : string -> option string.

(** The rest of [get_consolidated_law] (from line 410 on): the answer it
    builds and the calls [get_law_by_id(law_id, section)] it makes. *)
Variable fetch_law : string -> list TextContent * list (string * string).

(** [LegislationTools.get_consolidated_law], for a [law_id] given as a
    string (lines 398-408): the answer and the client calls made. *)
Definition get_consolidated_law (law_id : string)
  : list TextContent * list (string * string) :=
  if negb (validate_boe_identifier wide_digit law_id) then
    ([mkTextContent (invalid_parameter_warning "law_id" law_id "BOE-A-YYYY-NNNNN")], [])
  else fetch_law law_id.

End Tools.

End legislation.

(** ** The vocabulary of the statements *)

Module spec.

Import http_client warnings_handler.

(** The attempts made and the pauses taken, read off a trace. *)
Fixpoint requests_of (trace : list event) : list Z :=
  match trace with
  | [] => []
  | Request attempt :: rest => attempt :: requests_of rest
  | Sleep _ :: rest => requests_of rest
  end.

Fixpoint sleeps_of (trace : list event) : list Q :=
  match trace with
  | [] => []
  | Request _ :: rest => sleeps_of rest
  | Sleep seconds :: rest => seconds :: sleeps_of rest
  end.

(** Attempts [start], ..., [start + n - 1], each followed by its linear
    back-off pause. *)
Definition backoff (retry_delay : Q) (start n : nat) : list event :=
  flat_map (fun attempt => [Request attempt; Sleep (retry_delay * inject_Z (attempt + 1))])
           (map Z.of_nat (seq start n)).

(** The last transient cause after the attempts [start .. start + n - 1]. *)
Definition last_cause (cause : Z -> string) (start n : nat) (before : option string)
  : option string :=
  match n with
  | O => before
  | S k => Some (cause (Z.of_nat (start + k)))
  end.

(** The value a tag is bound to, given the conversions of the children
    that carry it, in document order. *)
Definition grouped (conversions : list pyval) : option pyval :=
  match conversions with
  | [] => None
  | [single] => Some single
  | _ => Some (PList conversions)
  end.

Definition tagged (tag : string) (children : list element) : list element :=
  filter (fun child => String.eqb (tag_of child) tag) children.

(** [needle] occurs in [haystack]. *)
Definition substring (needle haystack : string) : Prop :=
  exists before after, haystack = (before ++ needle ++ after)%string.

(** A search result whose title and identifier, when present, are strings. *)
Definition is_str_or_absent (field : option pyval) : bool :=
  match field with
  | None | Some (PStr _) => true
  | Some _ => false
  end.

Definition well_formed (r : dict) : bool :=
  is_str_or_absent (dict_get "titulo" r) && is_str_or_absent (dict_get "identificador" r).

(** The text of a field of a well-formed result, [''] when it is absent. *)
Definition field_text (key : string) (r : dict) : string :=
  match dict_get key r with
  | Some (PStr s) => s
  | _ => ""
  end.

(** The title a result is listed under, ['Sin título'] when it has none. *)
Definition listed_title (r : dict) : pyval :=
  dict_get_default "titulo" (PStr "Sin título") r.

(** A result matches when some token occurs in its lowercased title or in
    its lowercased identifier. *)
Definition result_matches (lower : string -> string) (tokens : list string) (r : dict)
  : bool :=
  existsb (fun token => contains token (lower (field_text "titulo" r))
                        || contains token (lower (field_text "identificador" r)))
          tokens.

(** [value[k1][k2]...], [None] when a key is missing. *)
Fixpoint at_path (path : list string) (value : pyval) : option pyval :=
  match path with
  | [] => Some value
  | key :: rest =>
      match value with
      | PDict entries =>
          match dict_get key entries with
          | Some inner => at_path rest inner
          | None => None
          end
      | _ => None
      end
  end.

(** What a pattern consumes: from offset [pos] with [s] left, it can stop
    at offset [pos'] with [s'] left. *)
Fixpoint consumes (wide_digit : string -> option string) (r : re.regex)
         (pos : nat) (s : string) (pos' : nat) (s' : string) : Prop :=
  match r with
  | re.Bol => pos = 0%nat /\ pos' = pos /\ s' = s
  | re.Eol => re.at_end s = true /\ pos' = pos /\ s' = s
  | re.Chr c => s = String c s' /\ pos' = S pos
  | re.Digit => re.digit wide_digit s = Some s' /\ pos' = S pos
  | re.Eps => pos' = pos /\ s' = s
  | re.Seq r1 r2 =>
      exists pos1 s1,
        consumes wide_digit r1 pos s pos1 s1 /\ consumes wide_digit r2 pos1 s1 pos' s'
  | re.Alt r1 r2 =>
      consumes wide_digit r1 pos s pos' s' \/ consumes wide_digit r2 pos s pos' s'
  end.

(** [s] starts with [n] characters that [\d] matches, and [rest] follows
    them. *)
Fixpoint digits_then (wide_digit : string -> option string) (n : nat)
         (s rest : string) : Prop :=
  match n with
  | O => s = rest
  | S k => exists after, re.digit wide_digit s = Some after
                         /\ digits_then wide_digit k after rest
  end.

(** A string of ASCII digits. *)
Fixpoint all_digits (s : string) : bool :=
  match s with
  | EmptyString => true
  | String c rest => re.ascii_digit c && all_digits rest
  end.

(** [s] is [(BOE|BORME)-S-<4 digits>-<1 to 3 digits>] followed by [tail],
    the digits being the characters that [\d] matches. *)
Definition identifier_then (wide_digit : string -> option string) (s tail : string)
  : Prop :=
  exists prefix year_on number_on n,
    (prefix = "BOE" \/ prefix = "BORME")
    /\ s = (prefix ++ "-S-" ++ year_on)%string
    /\ digits_then wide_digit 4 year_on ("-" ++ number_on)
    /\ (1 <= n <= 3)%nat
    /\ digits_then wide_digit n number_on tail.

(** The shape [(BOE|BORME)-S-<4 digits>-<1 to 3 digits>]. *)
Definition identifier_shape (wide_digit : string -> option string) (s : string) : Prop :=
  identifier_then wide_digit s EmptyString.

(** The keys are distinct. *)
Fixpoint distinct (keys : list string) : bool :=
  match keys with
  | [] => true
  | key :: rest => negb (existsb (String.eqb key) rest) && distinct rest
  end.

(** A generic document that JSON can hold: a tree of text scalars, lists
    and maps whose keys are distinct strings; [None] and the booleans,
    which JSON has as well, are admitted too. *)
Fixpoint representable (v : pyval) : bool :=
  match v with
  | PNone => true
  | PBool _ => true
  | PInt _ => false
  | PStr _ => true
  | PList items => forallb representable items
  | PDict entries =>
      distinct (map fst entries) && forallb (fun kv => representable (snd kv)) entries
  end.

(** A value that the decoder reads back from its serialisation, whatever
    follows it. *)
Definition reads_back (parse_int parse_float parse_constant : string -> pyval + string)
           (v : pyval) : Prop :=
  forall fuel rest,
    (String.length (json.dumps v) <= fuel)%nat ->
    json.scan_once parse_int parse_float parse_constant fuel (json.dumps v ++ rest)
    = inl (v, rest).

(** Stand-ins for the hooks of the decoder in the examples: [int] on the
    literal of an integer, and no floats. *)
Definition decimal_int (literal : string) : pyval + string :=
  match NilZero.int_of_string literal with
  | Some i => inl (PInt (Z.of_int i))
  | None => inr "invalid literal for int() with base 10"
  end.

Definition no_float (literal : string) : pyval + string :=
  inr "could not convert string to float".

(** A document for the examples: a text with quotes and a line feed in
    it, a list that holds a text, a map, an empty list and [True], and an
    empty map under a key that is not ASCII. *)
Definition json_example : pyval :=
  PDict [("titulo",
          PStr ("Ley " ++ dquote ++ "A" ++ dquote ++ String (ascii_of_nat 10) "fin")%string);
         ("items",
          PList [PStr "a"; PDict [("b", PStr "ç"); ("c", PNone)]; PList []; PBool true]);
         ("vacío", PDict [])].

(** The two documents of the XML examples, as [lxml] parses them:
    [<a><b>1</b><b>2</b></a>] and [<a x="1">hi</a>]. *)
Definition xml_repeated : element :=
  Element "a" [] None [Element "b" [] (Some "1") []; Element "b" [] (Some "2") []].

Definition xml_attribute : element :=
  Element "a" [("x", "1")] (Some "hi") [].

(** [<a x="1">hi<b>2</b></a>] *)
Definition xml_mixed : element :=
  Element "a" [("x", "1")] (Some "hi") [Element "b" [] (Some "2") []].

(** The no-break space U+00A0 and the fullwidth digits U+FF10 to U+FF19,
    in UTF-8. *)
Definition nbsp : string :=
  String (ascii_of_nat 194) (String (ascii_of_nat 160) EmptyString).

Definition fullwidth (d : nat) : string :=
  String (ascii_of_nat 239)
    (String (ascii_of_nat 188) (String (ascii_of_nat (144 + d)) EmptyString)).

(** A [\d] that knows, beyond ASCII, the fullwidth digits only. *)
Definition fullwidth_digit (s : string) : option string :=
  match s with
  | String c1 (String c2 (String c3 rest)) =>
      if ((code c1 =? 239)%nat && (code c2 =? 188)%nat
          && (144 <=? code c3)%nat && (code c3 <=? 153)%nat)%bool
      then Some rest else None
  | _ => None
  end.

(** Stand-ins for the libraries in the examples: a transport whose every
    attempt times out, one that always answers with a given status, and a
    JSON decoder that knows three documents. *)
Definition always_times_out (attempt : Z) : result Response :=
  Raise (RequestError ("timed out, attempt " ++ str_int attempt)).

Definition always_answers (status : Z) (attempt : Z) : result Response :=
  Return (mkResponse status "").

Definition status_text (r : Response) : string :=
  ("status " ++ str_int (status_code r))%string.

Definition small_loads (content : string) : pyval + string :=
  if String.eqb content "[]" then inl (PList [])
  else if String.eqb content "{}" then inl (PDict [])
  else if String.eqb content "null" then inl PNone
  else inr "Expecting value".

Definition example_fromstring (content : string) : element + string :=
  if String.eqb content "<a><b>1</b><b>2</b></a>" then inl xml_repeated
  else if String.eqb content ("<a x=" ++ dquote ++ "1" ++ dquote ++ ">hi</a>")
       then inl xml_attribute
  else if String.eqb content ("<a x=" ++ dquote ++ "1" ++ dquote ++ ">hi<b>2</b></a>")
       then inl xml_mixed
  else inr "Start tag expected".

End spec.

(** ** Python's [try] / [except] over the classes the code names *)

Module Py_except.

(** The classes that the [except] clauses of the code name. *)
Inductive pyclass : Type :=
| APIError_class
| Exception_class.

(** Whether a class derives from [BaseException]: [APIError] derives from
    pydantic's [BaseModel] only (boe_models.py, line 468). *)
Definition is_exception_class (c : pyclass) : bool :=
  match c with
  | APIError_class => false
  | Exception_class => true
  end.

Definition not_catchable : string :=
  "catching classes that do not inherit from BaseException is not allowed".

(** [isinstance(e, cls)] for an exception [e] of [exn]: each of them is an
    [Exception], none is an [APIError]. *)
Definition is_instance (e : exn) (cls : pyclass) : bool :=
  match cls with
  | APIError_class => false
  | Exception_class => true
  end.

(** An exception [e] meets the [except] clauses of a [try] statement, in
    order.  Testing [e] against a class that is no exception class raises
    [TypeError], which leaves the statement. *)
Fixpoint handle {A : Type} (e : exn) (clauses : list (pyclass * (exn -> result A)))
  : result A :=
  match clauses with
  | [] => Raise e
  | (cls, handler) :: rest =>
      if negb (is_exception_class cls) then Raise (TypeError not_catchable)
      else if is_instance e cls then handler e
      else handle e rest
  end.

(** [ValueError(msg)], carried as [OtherError]. *)
Definition ValueError (msg : string) : exn := OtherError msg.

(** [str(e)] *)
Definition str_exn (e : exn) : string :=
  match e with
  | RequestError msg | HTTPStatusError _ msg | JSONDecodeError msg
  | XMLSyntaxError msg | AttributeError msg | TypeError msg | OtherError msg => msg
  | UnboundLocalError name =>
      ("cannot access local variable '" ++ name
       ++ "' where it is not associated with a value")%string
  end.

End Py_except.

(** ** http_client.py: the endpoint methods of BOEHTTPClient *)

Module http_client_endpoints.

Import http_client Py_except.

Definition BASE_URL : string := "https://www.boe.es/datosabiertos/api".

(** [ENDPOINTS[name]], for the four names the client uses. *)
Definition ENDPOINTS (name : string) : string :=
  if String.eqb name "legislation" then "/legislacion-consolidada"
  else if String.eqb name "boe_summary" then "/boe/sumario"
  else if String.eqb name "borme_summary" then "/borme/sumario"
  else if String.eqb name "auxiliary" then "/tablas-auxiliares"
  else "".

(** What [self._client.request] is given. *)
Record http_request : Type := mkRequest {
  method : string;
  url : string;
  params : dict;
  headers : dict
}.

(** [self.default_headers] (lines 71-76). *)
Definition default_headers (user_agent : option string) : dict :=
  [("User-Agent",
    PStr (match user_agent with
          | Some ua => if truthy user_agent then ua
                       else "MCP-BOE/0.1.0 (https://github.com/tuusuario/mcp-boe)"
          | None => "MCP-BOE/0.1.0 (https://github.com/tuusuario/mcp-boe)"
          end));
   ("Accept", PStr "application/json");
   ("Accept-Charset", PStr "utf-8");
   ("Accept-Encoding", PStr "gzip, deflate")].

(** The dictionary [params] of [search_legislation] (lines 335-348). *)
Definition search_params (query from_date to_date : option string) (offset limit : Z)
           (kwargs : dict) : dict :=
  let params := [("offset", PInt offset); ("limit", PInt limit)] in
  let params := match query with
                | Some q => if truthy query then dict_set "query" (PStr q) params else params
                | None => params
                end in
  let params := match from_date with
                | Some d => if truthy from_date then dict_set "from" (PStr d) params else params
                | None => params
                end in
  let params := match to_date with
                | Some d => if truthy to_date then dict_set "to" (PStr d) params else params
                | None => params
                end in
  dict_update params kwargs.

(** The names of the parameters of [search_legislation] (lines 312-320). *)
Definition repeats_parameter (key : string) : bool :=
  String.eqb key "self" || String.eqb key "query" || String.eqb key "from_date"
  || String.eqb key "to_date" || String.eqb key "offset" || String.eqb key "limit".

(** The text of the [TypeError] of a call that gives an argument twice;
    Python adds the names of the function and of the argument. *)
Definition multiple_values : string := "got multiple values for keyword argument".

Section Endpoints.

Variable max_retries : Z.
Variable retry_delay : Q.
Variable status_error_text : Response -> string.
Variable now : Z.
Variable json_loads : string -> pyval + string.
Variable etree_fromstring : string -> element + string.
Variable user_agent : option string.

(** The transport: what [self._client.request] does with a request in a
    given attempt. *)
Variable transport : http_request -> Z -> result Response.

(** [_make_request] with its arguments: the headers given are laid over
    the default ones (lines 137-139). *)
Definition send (method url : string) (params headers : dict)
  : result Response * list event :=
  _make_request max_retries retry_delay
    (transport (mkRequest method url params
                          (dict_update (default_headers user_agent) headers)))
    status_error_text now.

(** [get] (lines 207-220) *)
Definition get (endpoint : string) (params : dict) (accept_format : string)
  : result pyval * list event :=
  let url := (BASE_URL ++ endpoint)%string in
  let headers := [("Accept", PStr accept_format)] in
  match send "GET" url params headers with
  | (Return response, trace) =>
      (_parse_response now json_loads etree_fromstring (text response) accept_format,
       trace)
  | (Raise e, trace) => (Raise e, trace)
  end.

(** [search_legislation], in a call that gives its five parameters by
    name and passes [**kwargs] besides.  A keyword argument that repeats
    the name of a parameter makes the call itself raise [TypeError],
    before the body runs; so the body's [kwargs] holds no such name. *)
Definition search_legislation (query from_date to_date : option string) (offset limit : Z)
           (kwargs : dict) : result pyval * list event :=
  if existsb repeats_parameter (map fst kwargs)
  then (Raise (TypeError multiple_values), [])
  else get (ENDPOINTS "legislation")
           (search_params query from_date to_date offset limit kwargs)
           "application/json".

(** [get_law_by_id] *)
Definition get_law_by_id (law_id : string) (section : option string)
  : result pyval * list event :=
  let endpoint := (ENDPOINTS "legislation" ++ "/id/" ++ law_id)%string in
  let endpoint := match section with
                  | Some sec => if truthy section then (endpoint ++ "/" ++ sec)%string
                                else endpoint
                  | None => endpoint
                  end in
  get endpoint [] "application/json".

(** [get_boe_summary], [get_borme_summary], [get_auxiliary_table] *)
Definition get_boe_summary (date : string) : result pyval * list event :=
  get (ENDPOINTS "boe_summary" ++ "/" ++ date)%string [] "application/json".

Definition get_borme_summary (date : string) : result pyval * list event :=
  get (ENDPOINTS "borme_summary" ++ "/" ++ date)%string [] "application/json".

Definition get_auxiliary_table (table_name : string) : result pyval * list event :=
  get (ENDPOINTS "auxiliary" ++ "/" ++ table_name)%string [] "application/json".

(** [health_check] (lines 436-441): [search_legislation(limit=1)] inside
    [try], with the clause [except APIError: return False]. *)
Definition health_check : result bool * list event :=
  match search_legislation None None None 0 1 [] with
  | (Return _, trace) => (Return true, trace)
  | (Raise e, trace) => (handle e [(APIError_class, fun _ => Return false)], trace)
  end.

End Endpoints.

End http_client_endpoints.

(** ** boe_models.py: the identifier check of the law metadata *)

Module boe_models_metadata.

Import re.

(** A character class given by its members, as the alternation of them. *)
Fixpoint any_of (first : ascii) (others : string) : regex :=
  match others with
  | EmptyString => Chr first
  | String next rest => Alt (Chr first) (any_of next rest)
  end.

(** [[A-Z]] *)
Definition upper : regex := any_of "A" "BCDEFGHIJKLMNOPQRSTUVWXYZ".

(** [r'^BOE-[A-Z]-\d{4}-\d{1,5}$'] (line 79) *)
Definition identificador_pattern : regex :=
  Seq Bol
   (Seq (lit "BOE-")
    (Seq upper
     (Seq (Chr "-")
      (Seq (times 4 Digit)
       (Seq (Chr "-")
        (Seq (between 1 5 Digit) Eol)))))).

(** [ConsolidatedLawMetadata.validate_identificador]: the value, or the
    text of the [ValueError] raised; [wide_digit] as in [re]. *)
Definition validate_identificador (wide_digit : string -> option string) (v : string)
  : string + string :=
  if negb (matches wide_digit identificador_pattern v)
  then inr ("Identificador inválido: " ++ v)%string
  else inl v.

End boe_models_metadata.

(** ** legislation.py: the tools that take a law identifier and a section *)

Module legislation_tools.

Import http_client http_client_endpoints Py_except legislation.

Section LawTools.

Variable max_retries : Z.
Variable retry_delay : Q.
Variable status_error_text : Response -> string.
Variable now : Z.
Variable json_loads : string -> pyval + string.
Variable etree_fromstring : string -> element + string.
Variable user_agent : option string.
Variable transport : http_request -> Z -> result Response.
Variable wide_digit : string -> option string.

(** What each tool makes of the response it got: the test of
    [response.get('data')] and the formatting that follows. *)
Variable render_block : string -> string -> pyval -> result (list TextContent).
Variable render_structure : string -> pyval -> result (list TextContent).
Variable render_relations : string -> string -> pyval -> result (list TextContent).

(** The [try] block shared by [get_law_text_block], [get_law_structure]
    and [find_related_laws]: the identifier check, which raises
    [ValueError], then the request for the section. *)
Definition section_body (law_id section : string)
           (render : pyval -> result (list TextContent))
  : result (list TextContent) * list event :=
  if negb (validate_boe_identifier wide_digit law_id) then
    (Raise (ValueError ("Identificador de norma inválido: " ++ law_id)), [])
  else
    match get_law_by_id max_retries retry_delay status_error_text now json_loads
                        etree_fromstring user_agent transport law_id (Some section) with
    | (Return response, trace) => (render response, trace)
    | (Raise e, trace) => (Raise e, trace)
    end.

(** The two clauses that follow each of these [try] blocks:
    [except APIError as e], then [except Exception as e].  The first
    handler, which reads [e.mensaje], has no exception of [exn] to run on. *)
Definition section_tool (api_error_text : string) (law_id section : string)
           (render : pyval -> result (list TextContent))
  : result (list TextContent) * list event :=
  match section_body law_id section render with
  | (Return answer, trace) => (Return answer, trace)
  | (Raise e, trace) =>
      (handle e
         [(APIError_class, fun _ => Return [mkTextContent api_error_text]);
          (Exception_class,
           fun e => Return [mkTextContent ("Error interno: " ++ str_exn e)])],
       trace)
  end.

Definition get_law_text_block (law_id block_id : string)
  : result (list TextContent) * list event :=
  section_tool "Error accediendo al bloque: " law_id ("texto/bloque/" ++ block_id)
               (render_block law_id block_id).

Definition get_law_structure (law_id : string)
  : result (list TextContent) * list event :=
  section_tool "Error accediendo a la estructura: " law_id "texto/indice"
               (render_structure law_id).

Definition find_related_laws (law_id relation_type : string)
  : result (list TextContent) * list event :=
  section_tool "Error accediendo a las relaciones: " law_id "analisis"
               (render_relations law_id relation_type).

End LawTools.

End legislation_tools.

(** ** More vocabulary *)

Module spec_more.

Import http_client.

(** The exceptions that [_make_request] retries or translates; any other
    one leaves it as it is. *)
Definition handled_by_make_request (e : exn) : bool :=
  match e with
  | RequestError _ | HTTPStatusError _ _ => true
  | _ => false
  end.

(** The entries of a dictionary value. *)
Definition entries_of (value : pyval) : dict :=
  match value with
  | PDict entries => entries
  | _ => []
  end.

(** The value an attribute list binds a name to: the last one given. *)
Fixpoint attribute_value (name : string) (attrib : list (string * string))
  : option string :=
  match attrib with
  | [] => None
  | (k, v) :: rest =>
      match attribute_value name rest with
      | Some later => Some later
      | None => if String.eqb name k then Some v else None
      end
  end.

(** The number of filters that are supplied. *)
Definition supplied (filters : list (option string)) : nat :=
  length (filter truthy filters).

(** [c] is one of [A] to [Z]. *)
Definition is_upper (c : ascii) : bool :=
  let n := nat_of_ascii c in (65 <=? n)%nat && (n <=? 90)%nat.

(** [s] is [BOE-<A to Z>-<4 digits>-<1 to 5 digits>] followed by [tail],
    the digits being the characters that [\d] matches. *)
Definition metadata_then (wide_digit : string -> option string) (s tail : string)
  : Prop :=
  exists series year_on number_on n,
    is_upper series = true
    /\ s = ("BOE-" ++ String series ("-" ++ year_on))%string
    /\ spec.digits_then wide_digit 4 year_on ("-" ++ number_on)
    /\ (1 <= n <= 5)%nat
    /\ spec.digits_then wide_digit n number_on tail.

(** A transport that fails [failures] times with a transient fault and
    then answers with [response]. *)
Definition fails_then_answers (failures : Z) (response : Response) (attempt : Z)
  : result Response :=
  if attempt <? failures then Raise (RequestError "connection refused")
  else Return response.

End spec_more.

(* ===================================================================== *)
(** * Part II: the properties                                              *)
(* ===================================================================== *)

Import http_client warnings_handler spec.

(** ** The request executor *)

Section RetryFacts.

Variable max_retries : Z.
Variable retry_delay : Q.
Variable request : Z -> result Response.
Variable status_error_text : Response -> string.
Variable now : Z.

Let run := attempts max_retries retry_delay request status_error_text now.

Lemma try_request_transient :
  forall attempt msg,
    request attempt = Raise (RequestError msg) ->
    try_request request status_error_text attempt = Raise (RequestError msg).
Proof.
  intros attempt msg H. unfold try_request. rewrite H. reflexivity.
Qed.

(** A run of transient failures below [max_retries] is retried, each
    failure followed by its pause. *)
Lemma attempts_transient_run :
  forall (cause : Z -> string) n start rest before trace,
    (forall j, (start <= j < start + n)%nat ->
               request (Z.of_nat j) = Raise (RequestError (cause (Z.of_nat j)))) ->
    Z.of_nat (start + n) <= max_retries ->
    run (map Z.of_nat (seq start n) ++ rest) before trace
    = run rest (last_cause cause start n before) (trace ++ backoff retry_delay start n).
Proof.
  intros cause n. induction n as [|n IH]; intros start rest before trace Hfail Hle.
  - unfold backoff. simpl. rewrite app_nil_r. reflexivity.
  - assert (Hrun : forall a t b tr, run (a :: t) b tr = attempts max_retries retry_delay request status_error_text now (a :: t) b tr)
      by reflexivity.
    change (seq start (S n)) with (start :: seq (S start) n).
    rewrite map_cons, <- app_comm_cons, Hrun. cbn [attempts].
    rewrite (try_request_transient (Z.of_nat start) (cause (Z.of_nat start)))
      by (apply Hfail; lia).
    assert (Hlt : (Z.of_nat start <? max_retries) = true) by (apply Z.ltb_lt; lia).
    rewrite Hlt.
    fold run.
    rewrite IH.
    + f_equal.
      * destruct n as [|n]; simpl.
        -- now rewrite Nat.add_0_r.
        -- f_equal. f_equal. f_equal. lia.
      * unfold backoff. simpl. rewrite <- !app_assoc. reflexivity.
    + intros j Hj. apply Hfail. lia.
    + lia.
Qed.

(** The executor only adds to the trace. *)
Lemma attempts_extend :
  forall todo before trace,
    exists more, snd (run todo before trace) = trace ++ more.
Proof.
  induction todo as [|attempt rest IH]; intros before trace.
  - exists []. simpl. now rewrite app_nil_r.
  - unfold run. cbn [attempts].
    destruct (try_request request status_error_text attempt) as [response|e].
    + exists [Request attempt]. reflexivity.
    + destruct e; try (exists [Request attempt]; reflexivity).
      fold run.
      destruct (attempt <? max_retries).
      * destruct (IH (Some msg) ((trace ++ [Request attempt])
                                  ++ [Sleep (retry_delay * inject_Z (attempt + 1))]))
          as [more Hmore].
        rewrite Hmore. eexists. rewrite <- !app_assoc. reflexivity.
      * destruct (IH (Some msg) (trace ++ [Request attempt])) as [more Hmore].
        rewrite Hmore. eexists. rewrite <- !app_assoc. reflexivity.
Qed.

End RetryFacts.

Lemma requests_of_app :
  forall t1 t2, requests_of (t1 ++ t2) = requests_of t1 ++ requests_of t2.
Proof.
  induction t1 as [|[attempt|seconds] t1 IH]; intros t2; simpl; rewrite ?IH; reflexivity.
Qed.

Lemma sleeps_of_app :
  forall t1 t2, sleeps_of (t1 ++ t2) = sleeps_of t1 ++ sleeps_of t2.
Proof.
  induction t1 as [|[attempt|seconds] t1 IH]; intros t2; simpl; rewrite ?IH; reflexivity.
Qed.

Lemma requests_of_backoff :
  forall retry_delay n start,
    requests_of (backoff retry_delay start n) = map Z.of_nat (seq start n).
Proof.
  intros retry_delay n. induction n as [|n IH]; intros start.
  - reflexivity.
  - unfold backoff in *. simpl. f_equal. apply IH.
Qed.

Lemma sleeps_of_backoff :
  forall retry_delay n start,
    sleeps_of (backoff retry_delay start n)
    = map (fun attempt => (retry_delay * inject_Z (attempt + 1))%Q) (map Z.of_nat (seq start n)).
Proof.
  intros retry_delay n. induction n as [|n IH]; intros start.
  - reflexivity.
  - unfold backoff in *. simpl. f_equal. apply IH.
Qed.

Lemma backoff_snoc :
  forall retry_delay n,
    backoff retry_delay 0 (S n)
    = backoff retry_delay 0 n
      ++ [Request (Z.of_nat n); Sleep (retry_delay * inject_Z (Z.of_nat n + 1))].
Proof.
  intros retry_delay n. unfold backoff.
  rewrite seq_S, map_app, flat_map_app. simpl. reflexivity.
Qed.

(** [range (R + 1)] read as the attempts before [i], then [i], then the rest. *)
Lemma range_split :
  forall R i, 0 <= i <= R ->
    exists rest, range (R + 1) = map Z.of_nat (seq 0 (Z.to_nat i)) ++ i :: rest.
Proof.
  intros R i Hi. unfold range.
  replace (Z.to_nat (R + 1)) with (Z.to_nat i + S (Z.to_nat (R - i)))%nat by lia.
  rewrite seq_app, map_app. simpl.
  exists (map Z.of_nat (seq (S (Z.to_nat i)) (Z.to_nat (R - i)))).
  f_equal. f_equal. lia.
Qed.

Lemma range_last :
  forall R, 0 <= R -> range (R + 1) = map Z.of_nat (seq 0 (Z.to_nat R)) ++ [R].
Proof.
  intros R HR. unfold range.
  replace (Z.to_nat (R + 1)) with (S (Z.to_nat R)) by lia.
  rewrite seq_S, map_app. simpl. f_equal. f_equal. lia.
Qed.

(** When every attempt fails with a transient fault, the executor makes
    the attempts [0 .. R], pauses after each but the last, and ends in the
    [raise] that follows the loop. *)
Lemma make_request_all_transient :
  forall R retry_delay request status_error_text now (cause : Z -> string),
    0 <= R ->
    (forall j, 0 <= j <= R -> request j = Raise (RequestError (cause j))) ->
    _make_request R retry_delay request status_error_text now
    = (py_raise (Model (retries_exhausted now (Some (cause R)))),
       backoff retry_delay 0 (Z.to_nat R) ++ [Request R]).
Proof.
  intros R retry_delay request status_error_text now cause HR Hfail.
  unfold _make_request. rewrite (range_last R HR).
  rewrite (attempts_transient_run R retry_delay request status_error_text now cause).
  - cbn [attempts].
    rewrite (try_request_transient request status_error_text R (cause R))
      by (apply Hfail; lia).
    rewrite Z.ltb_irrefl. simpl app. reflexivity.
  - intros j Hj. apply Hfail. lia.
  - lia.
Qed.

(** After transient failures in the attempts before [i], the executor
    reaches attempt [i] with the pauses taken so far. *)
Lemma make_request_reaches :
  forall R retry_delay request status_error_text now (cause : Z -> string) i,
    0 <= i <= R ->
    (forall j, 0 <= j < i -> request j = Raise (RequestError (cause j))) ->
    exists rest before,
      _make_request R retry_delay request status_error_text now
      = attempts R retry_delay request status_error_text now (i :: rest) before
                 (backoff retry_delay 0 (Z.to_nat i)).
Proof.
  intros R retry_delay request status_error_text now cause i Hi Hfail.
  destruct (range_split R i Hi) as [rest Hrange].
  exists rest, (last_cause cause 0 (Z.to_nat i) None).
  unfold _make_request. rewrite Hrange.
  rewrite (attempts_transient_run R retry_delay request status_error_text now cause).
  - reflexivity.
  - intros j Hj. apply Hfail. lia.
  - lia.
Qed.

(** C1.  With [max_retries = R >= 0] and a transport whose every attempt
    fails with a transient fault, [_make_request] makes exactly the [R + 1]
    attempts [0 .. R] and then runs the [raise] that follows the loop.  The
    operand of that [raise] is an [APIError] with [codigo = 500] whose
    [detalles] is the text of the last transient cause; since [APIError]
    is a pydantic model and no exception, what the caller receives is a
    [TypeError] and no [APIError].  With [R = 0] there is one attempt and
    no pause. *)
Theorem make_request_exhausts_retries :
  forall (R : Z) (retry_delay : Q) (cause : Z -> string)
         (status_error_text : Response -> string) (now : Z),
    0 <= R ->
    let request := fun attempt => Raise (RequestError (cause attempt)) in
    let out := _make_request R retry_delay request status_error_text now in
    requests_of (snd out) = range (R + 1)
    /\ Z.of_nat (length (requests_of (snd out))) = R + 1
    /\ fst out = py_raise (Model (retries_exhausted now (Some (cause R))))
    /\ codigo (retries_exhausted now (Some (cause R))) = 500
    /\ detalles (retries_exhausted now (Some (cause R))) = Some (cause R)
    /\ fst out = Raise (TypeError not_an_exception)
    /\ (R = 0 -> snd out = [Request 0]).
Proof.
  intros R retry_delay cause status_error_text now HR request out.
  assert (Hout : out = (py_raise (Model (retries_exhausted now (Some (cause R)))),
                        backoff retry_delay 0 (Z.to_nat R) ++ [Request R])).
  { unfold out. apply make_request_all_transient; [exact HR | reflexivity]. }
  assert (Hreq : requests_of (snd out) = range (R + 1)).
  { rewrite Hout. cbn [snd]. rewrite requests_of_app, requests_of_backoff.
    rewrite (range_last R HR). reflexivity. }
  repeat split.
  - exact Hreq.
  - rewrite Hreq. unfold range. rewrite length_map, length_seq. lia.
  - rewrite Hout. reflexivity.
  - rewrite Hout. reflexivity.
  - intros ->. rewrite Hout. reflexivity.
Qed.

Lemma make_request_exhausts_retries_witness :
  0 <= 0
  /\ (let out := _make_request 0 1 always_times_out status_text 0 in
      requests_of (snd out) = range (0 + 1)
      /\ Z.of_nat (length (requests_of (snd out))) = 0 + 1
      /\ fst out = py_raise (Model (retries_exhausted 0 (Some "timed out, attempt 0")))
      /\ codigo (retries_exhausted 0 (Some "timed out, attempt 0")) = 500
      /\ detalles (retries_exhausted 0 (Some "timed out, attempt 0"))
         = Some "timed out, attempt 0"
      /\ fst out = Raise (TypeError not_an_exception)
      /\ (0 = 0 -> snd out = [Request 0])).
Proof.
  split; [lia |].
  exact (make_request_exhausts_retries 0 1
           (fun attempt => ("timed out, attempt " ++ str_int attempt)%string)
           status_text 0 ltac:(lia)).
Defined.

(** C2.  When an attempt is answered with a status outside 2xx,
    [_make_request] stops at that attempt whatever [max_retries] leaves:
    the trace ends with that request, and the [raise] of the
    [HTTPStatusError] handler is run on an [APIError] whose [codigo] is the
    HTTP status and whose [detalles] is the text of the status error.  As
    [APIError] is no exception, the caller receives a [TypeError] and no
    [APIError]. *)
Theorem make_request_http_error_not_retried :
  forall (R : Z) (retry_delay : Q) (request : Z -> result Response)
         (status_error_text : Response -> string) (now : Z)
         (cause : Z -> string) (i : Z) (response : Response),
    0 <= i <= R ->
    (forall j, 0 <= j < i -> request j = Raise (RequestError (cause j))) ->
    request i = Return response ->
    is_success response = false ->
    let out := _make_request R retry_delay request status_error_text now in
    let error := http_error now (status_code response) (status_error_text response) in
    fst out = py_raise (Model error)
    /\ codigo error = status_code response
    /\ detalles error = Some (status_error_text response)
    /\ snd out = backoff retry_delay 0 (Z.to_nat i) ++ [Request i]
    /\ fst out = Raise (TypeError not_an_exception).
Proof.
  intros R retry_delay request status_error_text now cause i response
         Hi Hfail Hresp Hstatus out error.
  destruct (make_request_reaches R retry_delay request status_error_text now cause i Hi Hfail)
    as [rest [before Hreach]].
  assert (Hout : out = (py_raise (Model error),
                        backoff retry_delay 0 (Z.to_nat i) ++ [Request i])).
  { unfold out. rewrite Hreach. cbn [attempts]. unfold try_request.
    rewrite Hresp. cbn [bind]. rewrite Hstatus. reflexivity. }
  rewrite Hout. repeat split.
Qed.

Lemma make_request_http_error_not_retried_witness :
  0 <= 0 <= 3
  /\ (let out := _make_request 3 1 (always_answers 404) status_text 0 in
      let error := http_error 0 404 "status 404" in
      fst out = py_raise (Model error)
      /\ codigo error = 404
      /\ detalles error = Some "status 404"
      /\ snd out = [Request 0]
      /\ fst out = Raise (TypeError not_an_exception)).
Proof.
  split; [lia |].
  exact (make_request_http_error_not_retried 3 1 (always_answers 404) status_text 0
           (fun _ => EmptyString) 0 (mkResponse 404 "")
           ltac:(lia) ltac:(intros j Hj; lia) eq_refl eq_refl).
Defined.

(** C8.  When the attempts [0 .. i] fail with a transient fault and
    [i < max_retries], the executor pauses for [retry_delay * (i + 1)]
    between attempt [i] and attempt [i + 1]; and when the last attempt,
    [max_retries], fails as well, the trace ends with that request: no
    pause follows it, and the pauses taken are those after the attempts
    [0 .. max_retries - 1]. *)
Theorem backoff_is_linear :
  forall (R : Z) (retry_delay : Q) (request : Z -> result Response)
         (status_error_text : Response -> string) (now : Z)
         (cause : Z -> string) (i : Z),
    0 <= i < R ->
    (forall j, 0 <= j <= i -> request j = Raise (RequestError (cause j))) ->
    let trace := snd (_make_request R retry_delay request status_error_text now) in
    (exists later,
       trace = backoff retry_delay 0 (Z.to_nat i)
               ++ [Request i; Sleep (retry_delay * inject_Z (i + 1)); Request (i + 1)]
               ++ later)
    /\ ((forall j, 0 <= j <= R -> request j = Raise (RequestError (cause j))) ->
        trace = backoff retry_delay 0 (Z.to_nat R) ++ [Request R]
        /\ sleeps_of trace
           = map (fun attempt => (retry_delay * inject_Z (attempt + 1))%Q) (range R)).
Proof.
  intros R retry_delay request status_error_text now cause i Hi Hfail trace.
  split.
  - destruct (make_request_reaches R retry_delay request status_error_text now cause (i + 1))
      as [rest [before Hreach]]; [lia | intros j Hj; apply Hfail; lia |].
    unfold trace. rewrite Hreach. cbn [attempts].
    set (t0 := backoff retry_delay 0 (Z.to_nat (i + 1)) ++ [Request (i + 1)]).
    assert (Ht0 : t0 = backoff retry_delay 0 (Z.to_nat i)
                       ++ [Request i; Sleep (retry_delay * inject_Z (i + 1)); Request (i + 1)]).
    { unfold t0. replace (Z.to_nat (i + 1)) with (S (Z.to_nat i)) by lia.
      rewrite backoff_snoc, <- app_assoc.
      replace (Z.of_nat (Z.to_nat i)) with i by lia. reflexivity. }
    destruct (try_request request status_error_text (i + 1)) as [response|e].
    + exists []. cbn [snd]. rewrite Ht0, app_nil_r. reflexivity.
    + destruct e; try (exists []; cbn [snd]; rewrite Ht0, app_nil_r; reflexivity).
      match goal with
      | |- context [attempts ?m ?d ?rq ?st ?n rest ?b ?tr] =>
          destruct (attempts_extend m d rq st n rest b tr) as [more Hmore]
      end.
      cbv zeta. rewrite Hmore.
      destruct (i + 1 <? R).
      * eexists. rewrite <- app_assoc. fold t0. rewrite Ht0, <- app_assoc. reflexivity.
      * exists more. fold t0. rewrite Ht0, <- app_assoc. reflexivity.
  - intros Hall. unfold trace.
    rewrite (make_request_all_transient R retry_delay request status_error_text now cause)
      by (lia || assumption).
    cbn [snd]. split; [reflexivity |].
    rewrite sleeps_of_app, sleeps_of_backoff. simpl. rewrite app_nil_r. reflexivity.
Qed.

Lemma backoff_is_linear_witness :
  0 <= 0 < 2
  /\ snd (_make_request 2 (1 # 2) always_times_out status_text 0)
     = [Request 0; Sleep ((1 # 2) * inject_Z (0 + 1));
        Request 1; Sleep ((1 # 2) * inject_Z (1 + 1));
        Request 2].
Proof.
  split; [lia |].
  exact (proj1 (proj2 (backoff_is_linear 2 (1 # 2) always_times_out status_text 0
                         (fun attempt => ("timed out, attempt " ++ str_int attempt)%string) 0
                         ltac:(lia) ltac:(intros j Hj; reflexivity))
                      ltac:(intros j Hj; reflexivity))).
Defined.

(** ** The response normaliser *)

Lemma dict_get_set_same :
  forall key value d, dict_get key (dict_set key value d) = Some value.
Proof.
  intros key value d. induction d as [|[k v] d IH]; simpl.
  - now rewrite String.eqb_refl.
  - destruct (String.eqb key k) eqn:E; simpl; rewrite E; [reflexivity | exact IH].
Qed.

Lemma dict_get_set_other :
  forall key key' value d,
    key <> key' -> dict_get key (dict_set key' value d) = dict_get key d.
Proof.
  intros key key' value d Hneq. induction d as [|[k v] d IH]; simpl.
  - apply String.eqb_neq in Hneq. now rewrite Hneq.
  - destruct (String.eqb key' k) eqn:E; simpl.
    + apply String.eqb_eq in E. subst k.
      apply String.eqb_neq in Hneq. now rewrite Hneq.
    + destruct (String.eqb key k); [reflexivity | exact IH].
Qed.

(** [_xml_to_dict] yields a string or a dictionary, never a list. *)
Lemma xml_to_dict_not_list :
  forall e items, _xml_to_dict e <> PList items.
Proof.
  intros [tag attrib text [|child children]] items; simpl; discriminate.
Qed.

Lemma child_dict_of_snoc :
  forall children child,
    child_dict_of (children ++ [child])
    = add_child (child_dict_of children) (tag_of child) (_xml_to_dict child).
Proof.
  intros children child. unfold child_dict_of. rewrite fold_left_app. reflexivity.
Qed.

Lemma tagged_snoc :
  forall tag children child,
    tagged tag (children ++ [child])
    = tagged tag children ++ (if String.eqb (tag_of child) tag then [child] else []).
Proof.
  intros tag children child. unfold tagged. rewrite filter_app. reflexivity.
Qed.

(** Each tag is bound to the conversions of the children that carry it,
    in document order: directly when there is one, as a list otherwise. *)
Lemma child_dict_of_grouped :
  forall children tag,
    dict_get tag (child_dict_of children)
    = grouped (map _xml_to_dict (tagged tag children)).
Proof.
  intros children. induction children as [|child children IH] using rev_ind; intros tag.
  - reflexivity.
  - rewrite child_dict_of_snoc, tagged_snoc.
    destruct (String.eqb (tag_of child) tag) eqn:E.
    + apply String.eqb_eq in E. subst tag.
      rewrite map_app. simpl map. unfold add_child.
      rewrite IH.
      destruct (tagged (tag_of child) children) as [|c1 [|c2 more]]; simpl.
      * apply dict_get_set_same.
      * rewrite dict_get_set_same.
        destruct (_xml_to_dict c1) eqn:E1; try reflexivity.
        exfalso. exact (xml_to_dict_not_list c1 items E1).
      * rewrite dict_get_set_same. reflexivity.
    + rewrite app_nil_r. unfold add_child.
      assert (Hneq : tag <> tag_of child).
      { intros ->. rewrite String.eqb_refl in E. discriminate. }
      destruct (dict_get (tag_of child) (child_dict_of children));
        rewrite dict_get_set_other by exact Hneq; apply IH.
Qed.

(** C3, as the code has it.  [_parse_response] hands the root element to
    [_xml_to_dict], which converts the element's attributes, children and
    text and never stores the element's own tag: the input
    [<a><b>1</b><b>2</b></a>] becomes [{b: [1, 2]}], with no entry [a]
    around it. *)
Lemma xml_root_tag_is_not_a_key :
  _parse_response 0 small_loads example_fromstring
                  "<a><b>1</b><b>2</b></a>" "application/xml"
  = Return (PDict [("b", PList [PStr "1"; PStr "2"])])
  /\ Return (PDict [("b", PList [PStr "1"; PStr "2"])])
     <> Return (PDict [("a", PDict [("b", PList [PStr "1"; PStr "2"])])]).
Proof.
  split; [reflexivity | discriminate].
Qed.

(** C3, amended.  The XML path returns the conversion of the root element,
    in which the root's own tag does not occur.  [<a><b>1</b><b>2</b></a>]
    becomes [{b: [1, 2]}] and [<a x="1">hi<b>2</b></a>] becomes
    [{@x: 1, b: 2, text: hi}].  For an element with child elements the
    result holds the attributes under [@name], then the entries of
    [child_dict], in which the text, when not blank, is stored under
    [text]; and [child_dict] binds every tag to the conversions of the
    children that carry it, in document order: to the conversion itself
    when there is one such child, to their list when there are several.
    The text is trimmed as [str.strip] does, of every character Python
    takes for whitespace: around [hi], no-break spaces go as well. *)
Theorem xml_normalisation :
  (forall now json_loads,
      _parse_response now json_loads example_fromstring
                      "<a><b>1</b><b>2</b></a>" "application/xml"
      = Return (PDict [("b", PList [PStr "1"; PStr "2"])]))
  /\ (forall now json_loads,
         _parse_response now json_loads example_fromstring
                         ("<a x=" ++ dquote ++ "1" ++ dquote ++ ">hi<b>2</b></a>")
                         "application/xml"
         = Return (PDict [("@x", PStr "1"); ("b", PStr "2"); ("text", PStr "hi")]))
  /\ (forall tag tag' attrib text children,
         _xml_to_dict (Element tag attrib text children)
         = _xml_to_dict (Element tag' attrib text children))
  /\ (forall tag attrib text child children,
         _xml_to_dict (Element tag attrib text (child :: children))
         = PDict (dict_update (attributes attrib)
                    (match own_text text with
                     | Some t => dict_set "text" (PStr t) (child_dict_of (child :: children))
                     | None => child_dict_of (child :: children)
                     end)))
  /\ (forall children tag,
         dict_get tag (child_dict_of children)
         = grouped (map _xml_to_dict (tagged tag children)))
  /\ _xml_to_dict (Element "a" [] (Some (nbsp ++ "hi" ++ nbsp ++ " ")%string)
                           [Element "b" [] (Some "1") []])
     = PDict [("b", PStr "1"); ("text", PStr "hi")].
Proof.
  split; [reflexivity |]. split; [reflexivity |]. split; [reflexivity |].
  split; [reflexivity |]. split; [apply child_dict_of_grouped | reflexivity].
Qed.

(** C5.  A payload that its declared format rejects does not end in the
    parse-failure [APIError].  Under [application/json] the handler's
    clause reads the local name [etree], which only the XML branch binds,
    and the call ends in [UnboundLocalError].  Under [application/xml] the
    handler is entered and runs [raise] on an [APIError] with
    [codigo = 500] and the parser's message as [detalles]; as [APIError]
    is no exception, the call ends in [TypeError]. *)
Theorem parse_response_malformed :
  forall (now : Z) (json_loads : string -> pyval + string)
         (etree_fromstring : string -> element + string) (content msg : string),
    (json_loads content = inr msg ->
     _parse_response now json_loads etree_fromstring content "application/json"
     = Raise (UnboundLocalError "etree"))
    /\ (etree_fromstring content = inr msg ->
        _parse_response now json_loads etree_fromstring content "application/xml"
        = py_raise (Model (parse_error now msg))
        /\ codigo (parse_error now msg) = 500
        /\ detalles (parse_error now msg) = Some msg
        /\ _parse_response now json_loads etree_fromstring content "application/xml"
           = Raise (TypeError not_an_exception)).
Proof.
  intros now json_loads etree_fromstring content msg. split.
  - intros H. unfold _parse_response, parse_body. simpl. rewrite H. reflexivity.
  - intros H. unfold _parse_response, parse_body. simpl. rewrite H. repeat split.
Qed.

Lemma parse_response_malformed_witness :
  small_loads "{" = inr "Expecting value"
  /\ example_fromstring "{" = inr "Start tag expected"
  /\ _parse_response 0 small_loads example_fromstring "{" "application/json"
     = Raise (UnboundLocalError "etree")
  /\ _parse_response 0 small_loads example_fromstring "{" "application/xml"
     = Raise (TypeError not_an_exception).
Proof.
  split; [reflexivity |]. split; [reflexivity |]. split.
  - exact (proj1 (parse_response_malformed 0 small_loads example_fromstring
                    "{" "Expecting value") eq_refl).
  - exact (proj2 (proj2 (proj2 (proj2 (parse_response_malformed 0 small_loads
                    example_fromstring "{" "Start tag expected") eq_refl)))).
Defined.

(** ** The JSON round trip *)

Lemma string_app_assoc :
  forall s1 s2 s3 : string, ((s1 ++ s2) ++ s3 = s1 ++ s2 ++ s3)%string.
Proof.
  induction s1 as [|c s1 IH]; intros s2 s3; simpl; [reflexivity | now rewrite IH].
Qed.

Lemma string_app_nil_r :
  forall s : string, (s ++ "")%string = s.
Proof.
  induction s as [|c s IH]; simpl; [reflexivity | now rewrite IH].
Qed.

Lemma string_length_app :
  forall s1 s2, String.length (s1 ++ s2) = (String.length s1 + String.length s2)%nat.
Proof.
  induction s1 as [|c s1 IH]; intros s2; simpl; [reflexivity | now rewrite IH].
Qed.

Section JsonFacts.

Import json.

(** What the encoder writes for a character, the decoder reads as that
    character. *)
Lemma scanstring_escape :
  forall c c' rest,
    scanstring (escape c ++ String c' rest)
    = then_scanned (String c EmptyString) (scanstring (String c' rest)).
Proof.
  intros [[] [] [] [] [] [] [] []] c' rest; reflexivity.
Qed.

Lemma escape_all_head :
  forall s rest, exists c' tail, (escape_all s ++ String quote rest)%string = String c' tail.
Proof.
  intros [|c s] rest; [simpl; eauto |].
  cbn [escape_all]. rewrite string_app_assoc.
  destruct c as [[] [] [] [] [] [] [] []]; simpl; eauto.
Qed.

Lemma scanstring_escape_all :
  forall s rest,
    scanstring (escape_all s ++ String quote rest) = inl (s, rest).
Proof.
  induction s as [|c s IH]; intros rest.
  - reflexivity.
  - cbn [escape_all]. rewrite string_app_assoc.
    destruct (escape_all_head s rest) as [c' [tail Hhead]].
    rewrite Hhead, scanstring_escape, <- Hhead, IH. reflexivity.
Qed.

Lemma scanstring_encode_basestring :
  forall s rest,
    exists encoded,
      (encode_basestring s ++ rest)%string = String quote encoded
      /\ scanstring encoded = inl (s, rest).
Proof.
  intros s rest. exists (escape_all s ++ String quote rest)%string. split.
  - unfold encode_basestring. simpl. rewrite string_app_assoc. reflexivity.
  - apply scanstring_escape_all.
Qed.

(** A serialisation starts with a character that is neither whitespace
    nor a closing bracket. *)
Lemma dumps_head :
  forall v,
    representable v = true ->
    exists c tail,
      dumps v = String c tail /\ is_whitespace c = false
      /\ Ascii.eqb c "]" = false.
Proof.
  intros [| [|] | z | s | items | entries] H; try discriminate H;
    cbn [dumps]; unfold encode_basestring; simpl; eauto.
Qed.

Lemma distinct_NoDup :
  forall keys, distinct keys = true -> NoDup keys.
Proof.
  induction keys as [|key keys IH]; intros H; [constructor |].
  cbn [distinct] in H. apply andb_true_iff in H as [Hnew Hrest].
  constructor; [| exact (IH Hrest)].
  intros Hin. apply negb_true_iff in Hnew.
  assert (existsb (String.eqb key) keys = true); [| congruence].
  apply existsb_exists. exists key. split; [exact Hin | apply String.eqb_refl].
Qed.

Lemma dict_set_new :
  forall key value (d : dict),
    ~ In key (map fst d) -> dict_set key value d = d ++ [(key, value)].
Proof.
  intros key value d. induction d as [|[k v] d IH]; intros Hnew; [reflexivity |].
  cbn [dict_set]. destruct (String.eqb key k) eqn:E.
  - apply String.eqb_eq in E. subst k. exfalso. apply Hnew. left. reflexivity.
  - rewrite IH; [reflexivity |]. intros Hin. apply Hnew. right. exact Hin.
Qed.

Variable parse_int : string -> pyval + string.
Variable parse_float : string -> pyval + string.
Variable parse_constant : string -> pyval + string.

(** The equations of the decoder. *)
Lemma scan_once_string :
  forall n rest,
    scan_once parse_int parse_float parse_constant (S n) (String quote rest)
    = match scanstring rest with
      | inl (text, after) => inl (PStr text, after)
      | inr e => inr e
      end.
Proof. reflexivity. Qed.

Lemma scan_once_object :
  forall n rest,
    scan_once parse_int parse_float parse_constant (S n) (String "{" rest)
    = match skip_whitespace rest with
      | String c' after as inside =>
          if Ascii.eqb c' "}" then inl (PDict [], after)
          else JSONObject parse_int parse_float parse_constant n inside []
      | EmptyString => inr expecting_property_name
      end.
Proof. reflexivity. Qed.

Lemma scan_once_array :
  forall n rest,
    scan_once parse_int parse_float parse_constant (S n) (String "[" rest)
    = match skip_whitespace rest with
      | String c' after as inside =>
          if Ascii.eqb c' "]" then inl (PList [], after)
          else JSONArray parse_int parse_float parse_constant n inside []
      | EmptyString => inr expecting_value
      end.
Proof. reflexivity. Qed.

Lemma JSONArray_step :
  forall n s values,
    JSONArray parse_int parse_float parse_constant (S n) s values
    = match scan_once parse_int parse_float parse_constant n s with
      | inr e => inr e
      | inl (value, after_value) =>
          match skip_whitespace after_value with
          | EmptyString => inr expecting_comma
          | String c' after =>
              if Ascii.eqb c' "]" then inl (PList (values ++ [value]), after)
              else if Ascii.eqb c' ","
                   then JSONArray parse_int parse_float parse_constant n
                                  (skip_whitespace after) (values ++ [value])
              else inr expecting_comma
          end
      end.
Proof. reflexivity. Qed.

Lemma JSONObject_step :
  forall n rest pairs,
    JSONObject parse_int parse_float parse_constant (S n) (String quote rest) pairs
    = match scanstring rest with
      | inr e => inr e
      | inl (key, after_key) =>
          match skip_whitespace after_key with
          | EmptyString => inr expecting_colon
          | String colon after_colon =>
              if Ascii.eqb colon ":" then
                match scan_once parse_int parse_float parse_constant n
                                (skip_whitespace after_colon) with
                | inr e => inr e
                | inl (value, after_value) =>
                    let pairs' := dict_set key value pairs in
                    match skip_whitespace after_value with
                    | EmptyString => inr expecting_comma
                    | String c' after =>
                        if Ascii.eqb c' "}" then inl (PDict pairs', after)
                        else if Ascii.eqb c' ","
                             then JSONObject parse_int parse_float parse_constant n
                                             (skip_whitespace after) pairs'
                        else inr expecting_comma
                    end
                end
              else inr expecting_colon
          end
      end.
Proof. reflexivity. Qed.

Lemma skip_whitespace_dumps :
  forall v rest,
    representable v = true ->
    skip_whitespace (dumps v ++ rest) = (dumps v ++ rest)%string.
Proof.
  intros v rest H. destruct (dumps_head v H) as [c [tail [Hhead [Hc _]]]].
  rewrite Hhead. simpl. rewrite Hc. reflexivity.
Qed.

Lemma array_reads_back :
  forall es e values fuel rest,
    Forall (fun x => representable x = true
                     /\ reads_back parse_int parse_float parse_constant x) (e :: es) ->
    (String.length (join ", " (map dumps (e :: es))) < fuel)%nat ->
    JSONArray parse_int parse_float parse_constant fuel
              (join ", " (map dumps (e :: es)) ++ String "]" rest) values
    = inl (PList (values ++ e :: es), rest).
Proof.
  induction es as [|e' es IH]; intros e values fuel rest Hall Hfuel;
    inversion Hall as [|x l [Hrep Hback] Hrest]; subst.
  - cbn [map join] in *. destruct fuel as [|n]; [lia |].
    rewrite JSONArray_step, (Hback n (String "]" rest)) by lia.
    reflexivity.
  - change (join ", " (map dumps (e :: e' :: es)))
      with (dumps e ++ ", " ++ join ", " (map dumps (e' :: es)))%string in *.
    rewrite !string_length_app in Hfuel.
    change (String.length ", ") with 2%nat in Hfuel.
    destruct fuel as [|n]; [lia |].
    rewrite JSONArray_step, !string_app_assoc, (Hback n) by lia.
    inversion Hrest as [|y l' [Hrep' _] _]; subst.
    change (", " ++ ?x)%string with (String "," (String " " x)).
    change (skip_whitespace (String "," ?x)) with (String "," x).
    cbv beta iota.
    change (Ascii.eqb "," "]") with false.
    change (Ascii.eqb "," ",") with true.
    cbv beta iota.
    assert (Hskip : forall tail,
               skip_whitespace (String " " (join ", " (map dumps (e' :: es)) ++ tail))
               = (join ", " (map dumps (e' :: es)) ++ tail)%string).
    { intros tail. change (skip_whitespace (String " " ?x)) with (skip_whitespace x).
      destruct es as [|e'' es].
      - cbn [map join]. apply skip_whitespace_dumps. exact Hrep'.
      - change (join ", " (map dumps (e' :: e'' :: es)))
          with (dumps e' ++ ", " ++ join ", " (map dumps (e'' :: es)))%string.
        rewrite string_app_assoc. apply skip_whitespace_dumps. exact Hrep'. }
    rewrite Hskip.
    rewrite (IH e' (values ++ [e]) n rest Hrest) by lia.
    rewrite <- app_assoc. reflexivity.
Qed.

(** The text of an entry, and what it starts with. *)
Lemma entry_text :
  forall key value tail,
    ((encode_basestring key ++ ": " ++ dumps value) ++ tail)%string
    = String quote
        (escape_all key ++ String quote (String ":" (String " " (dumps value ++ tail)))).
Proof.
  intros key value tail. unfold encode_basestring. simpl.
  rewrite !string_app_assoc. reflexivity.
Qed.

Lemma entries_head :
  forall kv es tail,
    exists inside,
      (join ", " (map (fun kv => encode_basestring (fst kv) ++ ": " ++ dumps (snd kv))%string
                      (kv :: es))
         ++ tail)%string
      = String quote inside.
Proof.
  intros [key value] es tail. destruct es as [|kv' es].
  - cbn [map join fst snd]. rewrite entry_text. eauto.
  - change (join ", " (map ?f ((key, value) :: kv' :: es)))
      with (f (key, value) ++ ", " ++ join ", " (map f (kv' :: es)))%string.
    cbn [fst snd]. rewrite string_app_assoc, entry_text. eauto.
Qed.

Lemma object_reads_back :
  forall es kv pairs fuel rest,
    Forall (fun kv => representable (snd kv) = true
                      /\ reads_back parse_int parse_float parse_constant (snd kv))
           (kv :: es) ->
    NoDup (map fst (pairs ++ kv :: es)) ->
    let text :=
      join ", " (map (fun kv => encode_basestring (fst kv) ++ ": " ++ dumps (snd kv))%string
                     (kv :: es)) in
    (String.length text < fuel)%nat ->
    JSONObject parse_int parse_float parse_constant fuel (text ++ String "}" rest) pairs
    = inl (PDict (pairs ++ kv :: es), rest).
Proof.
  induction es as [|kv' es IH]; intros [key value] pairs fuel rest Hall Hkeys text Hfuel;
    subst text; inversion Hall as [|x l [Hrep Hback] Hrest]; subst; cbn [fst snd] in *.
  - cbn [map join fst snd] in *. rewrite !string_length_app in Hfuel.
    change (String.length ": ") with 2%nat in Hfuel.
    destruct fuel as [|n]; [lia |].
    rewrite entry_text, JSONObject_step, scanstring_escape_all.
    change (skip_whitespace (String ":" ?x)) with (String ":" x). cbv beta iota.
    change (Ascii.eqb ":" ":") with true. cbv beta iota.
    change (skip_whitespace (String " " ?x)) with (skip_whitespace x).
    rewrite (skip_whitespace_dumps value _ Hrep), (Hback n) by lia.
    cbv zeta. rewrite dict_set_new; [reflexivity |].
    rewrite map_app in Hkeys. apply NoDup_remove_2 in Hkeys.
    intros Hin. apply Hkeys. apply in_or_app. left. exact Hin.
  - change (join ", " (map ?f ((key, value) :: kv' :: es)))
      with (f (key, value) ++ ", " ++ join ", " (map f (kv' :: es)))%string in *.
    cbn [fst snd] in *. rewrite !string_length_app in Hfuel.
    change (String.length ": ") with 2%nat in Hfuel.
    change (String.length ", ") with 2%nat in Hfuel.
    destruct fuel as [|n]; [lia |].
    rewrite string_app_assoc, entry_text, JSONObject_step, scanstring_escape_all.
    change (skip_whitespace (String ":" ?x)) with (String ":" x). cbv beta iota.
    change (Ascii.eqb ":" ":") with true. cbv beta iota.
    change (skip_whitespace (String " " ?x)) with (skip_whitespace x).
    rewrite (skip_whitespace_dumps value _ Hrep), (Hback n) by lia.
    cbv zeta. rewrite string_app_assoc.
    change (", " ++ ?x)%string with (String "," (String " " x)).
    change (skip_whitespace (String "," ?x)) with (String "," x). cbv beta iota.
    change (Ascii.eqb "," "}") with false.
    change (Ascii.eqb "," ",") with true. cbv beta iota.
    change (skip_whitespace (String " " ?x)) with (skip_whitespace x).
    destruct (entries_head kv' es (String "}" rest)) as [inside Hhead].
    rewrite Hhead.
    change (skip_whitespace (String quote inside)) with (String quote inside).
    rewrite <- Hhead.
    assert (Hnew : ~ In key (map fst pairs)).
    { rewrite map_app in Hkeys. apply NoDup_remove_2 in Hkeys.
      intros Hin. apply Hkeys. apply in_or_app. left. exact Hin. }
    rewrite (dict_set_new key value pairs Hnew).
    rewrite (IH kv' (pairs ++ [(key, value)]) n rest Hrest).
    + rewrite <- app_assoc. reflexivity.
    + rewrite <- app_assoc. exact Hkeys.
    + lia.
Qed.

Lemma items_head :
  forall e es tail,
    representable e = true ->
    exists c inside,
      (join ", " (map dumps (e :: es)) ++ tail)%string = String c inside
      /\ is_whitespace c = false /\ Ascii.eqb c "]" = false.
Proof.
  intros e es tail Hrep. destruct (dumps_head e Hrep) as [c [inside [Hhead H]]].
  destruct es as [|e' es].
  - cbn [map join]. rewrite Hhead. simpl. eauto.
  - change (join ", " (map dumps (e :: e' :: es)))
      with (dumps e ++ ", " ++ join ", " (map dumps (e' :: es)))%string.
    rewrite Hhead. simpl. eauto.
Qed.

(** Every representable value is read back from its serialisation. *)
Lemma representable_reads_back :
  forall v,
    representable v = true -> reads_back parse_int parse_float parse_constant v.
Proof.
  induction v as [| b | z | s | items IH | entries IH] using pyval_nested_ind;
    intros Hrep fuel rest Hfuel.
  - destruct fuel as [|n]; [simpl in Hfuel; lia | reflexivity].
  - destruct fuel as [|n]; [destruct b; simpl in Hfuel; lia |].
    destruct b; reflexivity.
  - discriminate Hrep.
  - destruct fuel as [|n]; [simpl in Hfuel; lia |].
    destruct (scanstring_encode_basestring s rest) as [encoded [Htext Hscan]].
    cbn [dumps]. rewrite Htext, scan_once_string, Hscan. reflexivity.
  - cbn [representable] in Hrep.
    assert (Hall : Forall (fun x => representable x = true
                                    /\ reads_back parse_int parse_float parse_constant x)
                          items).
    { rewrite forallb_forall in Hrep. rewrite Forall_forall in IH |- *.
      intros x Hx. split; [exact (Hrep x Hx) | exact (IH x Hx (Hrep x Hx))]. }
    cbn [dumps] in *. rewrite !string_length_app in Hfuel.
    change (String.length "[") with 1%nat in Hfuel.
    change (String.length "]") with 1%nat in Hfuel.
    destruct fuel as [|n]; [lia |].
    rewrite !string_app_assoc.
    change ("[" ++ ?x)%string with (String "[" x). rewrite scan_once_array.
    destruct items as [|e es].
    + reflexivity.
    + change ("]" ++ rest)%string with (String "]" rest).
      inversion Hall as [|x l [Hrep' _] _]; subst.
      destruct (items_head e es (String "]" rest) Hrep')
        as [c [inside [Hhead [Hc Hclose]]]].
      rewrite Hhead. cbn [skip_whitespace]. rewrite Hc, Hclose, <- Hhead.
      apply (array_reads_back es e [] n rest Hall). lia.
  - cbn [representable] in Hrep. apply andb_true_iff in Hrep as [Hkeys Hrep].
    assert (Hall : Forall (fun kv => representable (snd kv) = true
                                     /\ reads_back parse_int parse_float parse_constant
                                                   (snd kv))
                          entries).
    { rewrite forallb_forall in Hrep. rewrite Forall_forall in IH |- *.
      intros x Hx. split; [exact (Hrep x Hx) | exact (IH x Hx (Hrep x Hx))]. }
    cbn [dumps] in *. rewrite !string_length_app in Hfuel.
    change (String.length "{") with 1%nat in Hfuel.
    change (String.length "}") with 1%nat in Hfuel.
    destruct fuel as [|n]; [lia |].
    rewrite !string_app_assoc.
    change ("{" ++ ?x)%string with (String "{" x). rewrite scan_once_object.
    destruct entries as [|kv es].
    + reflexivity.
    + change ("}" ++ rest)%string with (String "}" rest).
      destruct (entries_head kv es (String "}" rest)) as [inside Hhead].
      rewrite Hhead. cbn [skip_whitespace].
      change (is_whitespace quote) with false. cbv beta iota.
      change (Ascii.eqb quote "}") with false. cbv beta iota.
      rewrite <- Hhead.
      apply (object_reads_back es kv [] n rest Hall).
      * apply distinct_NoDup. exact Hkeys.
      * lia.
Qed.

Lemma dumps_not_bom :
  forall v, representable v = true -> startswith BOM (dumps v) = false.
Proof.
  intros [| [|] | z | s | items | entries] H; try discriminate H; reflexivity.
Qed.

(** [json.loads(json.dumps(v, ensure_ascii=False)) == v] *)
Lemma loads_dumps :
  forall v,
    representable v = true ->
    loads parse_int parse_float parse_constant (dumps v) = inl v.
Proof.
  intros v Hrep. unfold loads. rewrite (dumps_not_bom v Hrep).
  rewrite <- (string_app_nil_r (dumps v)) at 2.
  rewrite (skip_whitespace_dumps v "" Hrep).
  rewrite (representable_reads_back v Hrep) by lia.
  reflexivity.
Qed.

(** *** The fuel of the decoder *)

Lemma skip_whitespace_length :
  forall s, (String.length (skip_whitespace s) <= String.length s)%nat.
Proof.
  induction s as [|c s IH]; simpl; [lia |].
  destruct (is_whitespace c); simpl; lia.
Qed.

Lemma then_scanned_inv :
  forall chars scanned text rest,
    then_scanned chars scanned = inl (text, rest) ->
    exists text', scanned = inl (text', rest).
Proof.
  intros chars [[text' rest'] | e] text rest H; simpl in H; [| discriminate H].
  injection H as _ ->. eauto.
Qed.

Lemma scanstring_length :
  forall n s text rest,
    (String.length s <= n)%nat ->
    scanstring s = inl (text, rest) ->
    (String.length rest < String.length s)%nat.
Proof.
  induction n as [|n IH]; intros s text rest Hn H.
  - destruct s; [discriminate H | simpl in Hn; lia].
  - destruct s as [|c s]; [discriminate H |].
    cbn [scanstring] in H.
    destruct (Ascii.eqb c quote).
    { injection H as _ ->. simpl. lia. }
    destruct (Ascii.eqb c backslash).
    + destruct s as [|esc after]; [discriminate H |].
      destruct (Ascii.eqb esc "u").
      * destruct after as [|h1 [|h2 [|h3 [|h4 [|c5 more]]]]]; try discriminate H.
        destruct (decode_uXXXX h1 h2 h3 h4) as [uni|]; [| discriminate H].
        assert (Hplain : forall chars,
                   then_scanned chars (scanstring (String c5 more)) = inl (text, rest) ->
                   (String.length rest
                    < String.length
                        (String c (String esc (String h1 (String h2 (String h3 (String h4
                           (String c5 more))))))))%nat).
        { intros chars Hthen. apply then_scanned_inv in Hthen as [text' Hthen].
          apply IH in Hthen; [simpl in *; lia | simpl in *; lia]. }
        destruct (high_surrogate uni); [| exact (Hplain _ H)].
        destruct more as [|u [|g1 [|g2 [|g3 [|g4 [|c6 more2]]]]]];
          try exact (Hplain _ H).
        destruct (Ascii.eqb c5 backslash && Ascii.eqb u "u"); [| exact (Hplain _ H)].
        destruct (decode_uXXXX g1 g2 g3 g4) as [uni2|]; [| discriminate H].
        destruct (low_surrogate uni2); [| exact (Hplain _ H)].
        apply then_scanned_inv in H as [text' H].
        apply IH in H; simpl in *; lia.
      * destruct (BACKSLASH esc); [| discriminate H].
        apply then_scanned_inv in H as [text' H].
        apply IH in H; simpl in *; lia.
    + destruct (code c <? 32)%nat; [discriminate H |].
      apply then_scanned_inv in H as [text' H].
      apply IH in H; simpl in *; lia.
Qed.

Lemma startswith_drop :
  forall word s,
    startswith word s = true ->
    (String.length (drop (String.length word) s) + String.length word
     = String.length s)%nat.
Proof.
  induction word as [|a word IH]; intros s H; [destruct s; simpl; lia |].
  destruct s as [|b s]; [discriminate H |].
  cbn [startswith] in H. apply andb_true_iff in H as [_ H].
  simpl. rewrite <- (IH s H). lia.
Qed.

Lemma hooked_inv :
  forall value rest v rest', hooked value rest = inl (v, rest') -> rest' = rest.
Proof.
  intros [value | e] rest v rest' H; simpl in H; [| discriminate H].
  now injection H as _ <-.
Qed.

Lemma span_digits_length :
  forall s, (String.length (snd (span_digits s)) <= String.length s)%nat.
Proof.
  induction s as [|c s IH]; simpl; [lia |].
  destruct (is_digit c); [| simpl; lia].
  destruct (span_digits s) as [digits after]. simpl in *. lia.
Qed.

Lemma span_fraction_length :
  forall s, (String.length (snd (span_fraction s)) <= String.length s)%nat.
Proof.
  intros [|c [|d rest]]; simpl; try lia.
  destruct (Ascii.eqb c "." && is_digit d); [| simpl; lia].
  pose proof (span_digits_length rest) as H.
  destruct (span_digits rest) as [digits after]. simpl in *. lia.
Qed.

Lemma span_exponent_length :
  forall s, (String.length (snd (span_exponent s)) <= String.length s)%nat.
Proof.
  intros [|e rest]; simpl; [lia |].
  destruct (Ascii.eqb e "e" || Ascii.eqb e "E"); [| simpl; lia].
  assert (H : forall unsigned,
             (String.length unsigned <= String.length rest)%nat ->
             forall sign,
               (String.length
                  (snd (match span_digits unsigned with
                        | (EmptyString, _) => (EmptyString, String e rest)
                        | (digits, after) => (String e (sign ++ digits)%string, after)
                        end))
                <= S (String.length rest))%nat).
  { intros unsigned Hle sign. pose proof (span_digits_length unsigned) as H.
    destruct (span_digits unsigned) as [[|d digits] after]; simpl in *; lia. }
  destruct rest as [|c rest'].
  - apply (H EmptyString). simpl. lia.
  - destruct (Ascii.eqb c "-" || Ascii.eqb c "+").
    + apply (H rest'). simpl. lia.
    + apply (H (String c rest')). simpl. lia.
Qed.

Lemma match_number_tail_length :
  forall integer after,
    (String.length (snd (match_number_tail integer after)) <= String.length after)%nat.
Proof.
  intros integer after. unfold match_number_tail.
  pose proof (span_fraction_length after) as Hf.
  destruct (span_fraction after) as [fraction after_fraction].
  pose proof (span_exponent_length after_fraction) as He.
  destruct (span_exponent after_fraction) as [exponent after_exponent].
  simpl in *. lia.
Qed.

Lemma match_unsigned_length :
  forall sign unsigned literal is_float rest,
    match_unsigned sign unsigned = Some (literal, is_float, rest) ->
    (String.length rest < String.length unsigned)%nat.
Proof.
  intros sign [|c rest0] literal is_float rest H; [discriminate H |].
  cbn [match_unsigned] in H. destruct (Ascii.eqb c "0").
  - pose proof (match_number_tail_length (sign ++ String c EmptyString) rest0) as Ht.
    injection H as H. rewrite H in Ht. simpl in *. lia.
  - destruct (is_digit c); [| discriminate H].
    pose proof (span_digits_length rest0) as Hd.
    destruct (span_digits rest0) as [digits after].
    pose proof (match_number_tail_length (sign ++ String c digits) after) as Ht.
    injection H as H. rewrite H in Ht. simpl in *. lia.
Qed.

Lemma match_number_length :
  forall s literal is_float rest,
    match_number s = Some (literal, is_float, rest) ->
    (String.length rest < String.length s)%nat.
Proof.
  intros [|c s'] literal is_float rest H; [discriminate H |].
  cbn [match_number] in H. destruct (Ascii.eqb c "-").
  - apply match_unsigned_length in H. simpl. lia.
  - apply match_unsigned_length in H. exact H.
Qed.

(** The general equation of [scan_once]. *)
Lemma scan_once_step :
  forall n s,
    scan_once parse_int parse_float parse_constant (S n) s
    = match s with
      | EmptyString => inr expecting_value
      | String c rest =>
          if Ascii.eqb c quote then
            match scanstring rest with
            | inl (text, after) => inl (PStr text, after)
            | inr e => inr e
            end
          else if Ascii.eqb c "{" then
            match skip_whitespace rest with
            | String c' after as inside =>
                if Ascii.eqb c' "}" then inl (PDict [], after)
                else JSONObject parse_int parse_float parse_constant n inside []
            | EmptyString => inr expecting_property_name
            end
          else if Ascii.eqb c "[" then
            match skip_whitespace rest with
            | String c' after as inside =>
                if Ascii.eqb c' "]" then inl (PList [], after)
                else JSONArray parse_int parse_float parse_constant n inside []
            | EmptyString => inr expecting_value
            end
          else if startswith "null" s then inl (PNone, drop 4 s)
          else if startswith "true" s then inl (PBool true, drop 4 s)
          else if startswith "false" s then inl (PBool false, drop 5 s)
          else if startswith "NaN" s then hooked (parse_constant "NaN") (drop 3 s)
          else if startswith "Infinity" s
               then hooked (parse_constant "Infinity") (drop 8 s)
          else if startswith "-Infinity" s
               then hooked (parse_constant "-Infinity") (drop 9 s)
          else
            match match_number s with
            | Some (literal, true, after) => hooked (parse_float literal) after
            | Some (literal, false, after) => hooked (parse_int literal) after
            | None => inr expecting_value
            end
      end.
Proof. reflexivity. Qed.

Lemma JSONObject_step_any :
  forall n s pairs,
    JSONObject parse_int parse_float parse_constant (S n) s pairs
    = match s with
      | EmptyString => inr expecting_property_name
      | String c rest =>
          if Ascii.eqb c quote then
            match scanstring rest with
            | inr e => inr e
            | inl (key, after_key) =>
                match skip_whitespace after_key with
                | EmptyString => inr expecting_colon
                | String colon after_colon =>
                    if Ascii.eqb colon ":" then
                      match scan_once parse_int parse_float parse_constant n
                                      (skip_whitespace after_colon) with
                      | inr e => inr e
                      | inl (value, after_value) =>
                          let pairs' := dict_set key value pairs in
                          match skip_whitespace after_value with
                          | EmptyString => inr expecting_comma
                          | String c' after =>
                              if Ascii.eqb c' "}" then inl (PDict pairs', after)
                              else if Ascii.eqb c' ","
                                   then JSONObject parse_int parse_float parse_constant n
                                                   (skip_whitespace after) pairs'
                              else inr expecting_comma
                          end
                      end
                    else inr expecting_colon
                end
            end
          else inr expecting_property_name
      end.
Proof. reflexivity. Qed.

(** A value that is read takes at least one character. *)
Lemma scan_consumes :
  forall fuel,
    (forall s v rest,
        scan_once parse_int parse_float parse_constant fuel s = inl (v, rest) ->
        (String.length rest < String.length s)%nat)
    /\ (forall s pairs v rest,
           JSONObject parse_int parse_float parse_constant fuel s pairs = inl (v, rest) ->
           (String.length rest < String.length s)%nat)
    /\ (forall s values v rest,
           JSONArray parse_int parse_float parse_constant fuel s values = inl (v, rest) ->
           (String.length rest < String.length s)%nat).
Proof.
  induction fuel as [|n [IHscan [IHobject IHarray]]].
  - repeat split; intros; discriminate.
  - split; [| split].
    + intros s v rest H. rewrite scan_once_step in H.
      destruct s as [|c s']; [discriminate H |].
      destruct (Ascii.eqb c quote).
      { destruct (scanstring s') as [[text after] | e] eqn:E; [| discriminate H].
        injection H as _ <-.
        apply (scanstring_length (String.length s')) in E; simpl; lia. }
      destruct (Ascii.eqb c "{").
      { pose proof (skip_whitespace_length s') as Hskip.
        destruct (skip_whitespace s') as [|c' after]; [discriminate H |].
        destruct (Ascii.eqb c' "}").
        - injection H as _ <-. simpl in *. lia.
        - apply IHobject in H. simpl in *. lia. }
      destruct (Ascii.eqb c "[").
      { pose proof (skip_whitespace_length s') as Hskip.
        destruct (skip_whitespace s') as [|c' after]; [discriminate H |].
        destruct (Ascii.eqb c' "]").
        - injection H as _ <-. simpl in *. lia.
        - apply IHarray in H. simpl in *. lia. }
      destruct (startswith "null" (String c s')) eqn:E1.
      { injection H as _ <-. apply startswith_drop in E1. simpl in *. lia. }
      destruct (startswith "true" (String c s')) eqn:E2.
      { injection H as _ <-. apply startswith_drop in E2. simpl in *. lia. }
      destruct (startswith "false" (String c s')) eqn:E3.
      { injection H as _ <-. apply startswith_drop in E3. simpl in *. lia. }
      destruct (startswith "NaN" (String c s')) eqn:E4.
      { apply hooked_inv in H. subst rest. apply startswith_drop in E4. simpl in *. lia. }
      destruct (startswith "Infinity" (String c s')) eqn:E5.
      { apply hooked_inv in H. subst rest. apply startswith_drop in E5. simpl in *. lia. }
      destruct (startswith "-Infinity" (String c s')) eqn:E6.
      { apply hooked_inv in H. subst rest. apply startswith_drop in E6. simpl in *. lia. }
      destruct (match_number (String c s')) as [[[literal is_float] after]|] eqn:E;
        [| discriminate H].
      apply match_number_length in E.
      destruct is_float; apply hooked_inv in H; subst rest; exact E.
    + intros s pairs v rest H. rewrite JSONObject_step_any in H.
      destruct s as [|c s']; [discriminate H |].
      destruct (Ascii.eqb c quote); [| discriminate H].
      destruct (scanstring s') as [[key after_key] | e] eqn:E; [| discriminate H].
      apply (scanstring_length (String.length s')) in E; [| lia].
      pose proof (skip_whitespace_length after_key) as Hskip1.
      destruct (skip_whitespace after_key) as [|colon after_colon]; [discriminate H |].
      destruct (Ascii.eqb colon ":"); [| discriminate H].
      pose proof (skip_whitespace_length after_colon) as Hskip2.
      destruct (scan_once parse_int parse_float parse_constant n
                          (skip_whitespace after_colon))
        as [[value after_value] | e] eqn:Evalue; [| discriminate H].
      apply IHscan in Evalue. cbv zeta in H.
      pose proof (skip_whitespace_length after_value) as Hskip3.
      destruct (skip_whitespace after_value) as [|c' after]; [discriminate H |].
      destruct (Ascii.eqb c' "}").
      { injection H as _ <-. simpl in *. lia. }
      destruct (Ascii.eqb c' ","); [| discriminate H].
      apply IHobject in H. pose proof (skip_whitespace_length after) as Hskip4.
      simpl in *. lia.
    + intros s values v rest H. rewrite JSONArray_step in H.
      destruct (scan_once parse_int parse_float parse_constant n s)
        as [[value after_value] | e] eqn:Evalue; [| discriminate H].
      apply IHscan in Evalue.
      pose proof (skip_whitespace_length after_value) as Hskip3.
      destruct (skip_whitespace after_value) as [|c' after]; [discriminate H |].
      destruct (Ascii.eqb c' "]").
      { injection H as _ <-. simpl in *. lia. }
      destruct (Ascii.eqb c' ","); [| discriminate H].
      apply IHarray in H. pose proof (skip_whitespace_length after) as Hskip4.
      simpl in *. lia.
Qed.

(** Fuel beyond twice the length of the text changes nothing. *)
Lemma fuel_enough :
  forall fuel fuel',
    (forall s,
        (2 * String.length s + 1 <= fuel)%nat -> (2 * String.length s + 1 <= fuel')%nat ->
        scan_once parse_int parse_float parse_constant fuel s
        = scan_once parse_int parse_float parse_constant fuel' s)
    /\ (forall s pairs,
           (2 * String.length s <= fuel)%nat -> (2 * String.length s <= fuel')%nat ->
           (1 <= fuel)%nat -> (1 <= fuel')%nat ->
           JSONObject parse_int parse_float parse_constant fuel s pairs
           = JSONObject parse_int parse_float parse_constant fuel' s pairs)
    /\ (forall s values,
           (2 * String.length s + 2 <= fuel)%nat -> (2 * String.length s + 2 <= fuel')%nat ->
           JSONArray parse_int parse_float parse_constant fuel s values
           = JSONArray parse_int parse_float parse_constant fuel' s values).
Proof.
  induction fuel as [|n IH]; intros fuel'.
  - repeat split; intros; lia.
  - destruct fuel' as [|n']; [repeat split; intros; lia |].
    destruct (IH n') as [IHscan [IHobject IHarray]].
    split; [| split].
    + intros s Hn Hn'. rewrite !scan_once_step.
      destruct s as [|c s']; [reflexivity |].
      destruct (Ascii.eqb c quote); [reflexivity |].
      destruct (Ascii.eqb c "{").
      { pose proof (skip_whitespace_length s') as Hskip.
        destruct (skip_whitespace s') as [|c' after]; [reflexivity |].
        destruct (Ascii.eqb c' "}"); [reflexivity |].
        apply IHobject; simpl in *; lia. }
      destruct (Ascii.eqb c "[").
      { pose proof (skip_whitespace_length s') as Hskip.
        destruct (skip_whitespace s') as [|c' after]; [reflexivity |].
        destruct (Ascii.eqb c' "]"); [reflexivity |].
        apply IHarray; simpl in *; lia. }
      reflexivity.
    + intros s pairs Hn Hn' _ _. rewrite !JSONObject_step_any.
      destruct s as [|c s']; [reflexivity |].
      destruct (Ascii.eqb c quote); [| reflexivity].
      destruct (scanstring s') as [[key after_key] | e] eqn:E; [| reflexivity].
      apply (scanstring_length (String.length s')) in E; [| lia].
      pose proof (skip_whitespace_length after_key) as Hskip1.
      destruct (skip_whitespace after_key) as [|colon after_colon]; [reflexivity |].
      destruct (Ascii.eqb colon ":"); [| reflexivity].
      pose proof (skip_whitespace_length after_colon) as Hskip2.
      rewrite (IHscan (skip_whitespace after_colon)) by (simpl in *; lia).
      destruct (scan_once parse_int parse_float parse_constant n'
                          (skip_whitespace after_colon))
        as [[value after_value] | e] eqn:Evalue; [| reflexivity].
      apply (proj1 (scan_consumes n')) in Evalue. cbv zeta.
      pose proof (skip_whitespace_length after_value) as Hskip3.
      destruct (skip_whitespace after_value) as [|c' after]; [reflexivity |].
      destruct (Ascii.eqb c' "}"); [reflexivity |].
      destruct (Ascii.eqb c' ","); [| reflexivity].
      pose proof (skip_whitespace_length after) as Hskip4.
      apply IHobject; simpl in *; lia.
    + intros s values Hn Hn'. rewrite !JSONArray_step.
      rewrite (IHscan s) by lia.
      destruct (scan_once parse_int parse_float parse_constant n' s)
        as [[value after_value] | e] eqn:Evalue; [| reflexivity].
      apply (proj1 (scan_consumes n')) in Evalue.
      pose proof (skip_whitespace_length after_value) as Hskip3.
      destruct (skip_whitespace after_value) as [|c' after]; [reflexivity |].
      destruct (Ascii.eqb c' "]"); [reflexivity |].
      destruct (Ascii.eqb c' ","); [| reflexivity].
      pose proof (skip_whitespace_length after) as Hskip4.
      apply IHarray; simpl in *; lia.
Qed.

(** So the fuel that [loads] gives is enough for every text. *)
Lemma loads_fuel :
  forall s fuel,
    (2 * String.length s + 2 <= fuel)%nat ->
    scan_once parse_int parse_float parse_constant fuel (skip_whitespace s)
    = scan_once parse_int parse_float parse_constant (2 * String.length s + 2)
                (skip_whitespace s).
Proof.
  intros s fuel Hfuel. pose proof (skip_whitespace_length s) as Hskip.
  apply (proj1 (fuel_enough fuel (2 * String.length s + 2))); lia.
Qed.

End JsonFacts.

(** C6.  For every generic document that JSON can hold (a tree of text
    scalars, lists and maps with distinct string keys; [None] and the
    booleans as well), [json.loads] reads the document back from its
    serialisation by [json.dumps], and so does [_parse_response] under
    [application/json], which returns what [json.loads] returns: the
    serialisation of the document normalises to the document. *)
Theorem parse_response_json_round_trip :
  forall (now : Z) (parse_int parse_float parse_constant : string -> pyval + string)
         (etree_fromstring : string -> element + string) (doc : pyval),
    representable doc = true ->
    json.loads parse_int parse_float parse_constant (json.dumps doc) = inl doc
    /\ _parse_response now (json.loads parse_int parse_float parse_constant)
                       etree_fromstring (json.dumps doc) "application/json"
       = Return doc.
Proof.
  intros now parse_int parse_float parse_constant etree_fromstring doc Hdoc.
  pose proof (loads_dumps parse_int parse_float parse_constant doc Hdoc) as Hloads.
  split; [exact Hloads |].
  unfold _parse_response, parse_body. simpl. rewrite Hloads. reflexivity.
Qed.

Lemma parse_response_json_round_trip_witness :
  representable json_example = true
  /\ _parse_response 0 (json.loads decimal_int no_float no_float) example_fromstring
                     (json.dumps json_example) "application/json"
     = Return json_example.
Proof.
  split; [reflexivity |].
  exact (proj2 (parse_response_json_round_trip 0 decimal_int no_float no_float
                  example_fromstring json_example eq_refl)).
Defined.

(** ** The query builder *)

Lemma date_range_keys :
  forall date_from date_to key,
    dict_get key (date_range date_from date_to)
    = if String.eqb key "gte" then (if truthy date_from then option_map PStr date_from else None)
      else if String.eqb key "lte" then (if truthy date_to then option_map PStr date_to else None)
      else None.
Proof.
  intros date_from date_to key. unfold date_range.
  destruct date_from as [f|], date_to as [t|]; simpl;
    repeat match goal with
           | |- context [String.eqb ?a ""] => destruct (String.eqb a "")
           end; simpl;
    destruct (String.eqb key "gte") eqn:Eg; destruct (String.eqb key "lte") eqn:El;
    try reflexivity;
    apply String.eqb_eq in Eg; apply String.eqb_eq in El; congruence.
Qed.

(** C9.  Without filters [build_search_query] serialises the payload
    whose query string is empty and which has no range clause.  With only
    [department = "7723"] and [legal_range = "1300"] the clause list has
    exactly two terms, joined by [AND] in the query string.  The payload
    has a range clause exactly when [date_from] or [date_to] is supplied
    (a non-empty string), and the range holds [gte] exactly when
    [date_from] is supplied, [lte] exactly when [date_to] is, and no other
    key. *)
Theorem build_search_query_clauses :
  forall (json_dumps : pyval -> string),
    build_search_query json_dumps None None None None None None None
    = json_dumps (PDict [("query", PDict [("query_string", PDict [("query", PStr "")])])])
    /\ query_parts None None None None None = []
    /\ query_parts None None (Some "7723") (Some "1300") None
       = ["departamento@codigo:7723"; "rango@codigo:1300"]
    /\ build_search_query json_dumps None None (Some "7723") (Some "1300") None None None
       = json_dumps
           (PDict [("query",
                    PDict [("query_string",
                            PDict [("query",
                                    PStr "departamento@codigo:7723 AND rango@codigo:1300")])])])
    /\ (forall text title department legal_range matter date_from date_to,
           let payload :=
             query_json text title department legal_range matter date_from date_to in
           build_search_query json_dumps text title department legal_range matter
                              date_from date_to
           = json_dumps payload
           /\ at_path ["query"; "query_string"; "query"] payload
              = Some (PStr (query_string
                              (query_parts text title department legal_range matter)))
           /\ at_path ["query"; "range"] payload
              = (if truthy date_from || truthy date_to
                 then Some (PDict [("fecha_publicacion",
                                    PDict (date_range date_from date_to))])
                 else None)
           /\ dict_get "gte" (date_range date_from date_to)
              = (if truthy date_from then option_map PStr date_from else None)
           /\ dict_get "lte" (date_range date_from date_to)
              = (if truthy date_to then option_map PStr date_to else None)
           /\ (forall key, key <> "gte" -> key <> "lte" ->
                           dict_get key (date_range date_from date_to) = None)).
Proof.
  intros json_dumps. repeat split.
  - unfold query_json. destruct (truthy date_from || truthy date_to); reflexivity.
  - unfold query_json. destruct (truthy date_from || truthy date_to); reflexivity.
  - rewrite date_range_keys. reflexivity.
  - rewrite date_range_keys. reflexivity.
  - intros key Hg Hl. rewrite date_range_keys.
    apply String.eqb_neq in Hg, Hl. now rewrite Hg, Hl.
Qed.

(** ** The search-result validator *)

Lemma prefix_app :
  forall needle haystack,
    String.prefix needle haystack = true
    <-> exists after, haystack = (needle ++ after)%string.
Proof.
  induction needle as [|c needle IH]; intros haystack; simpl.
  - split; [intros _; exists haystack; reflexivity | intros _; destruct haystack; reflexivity].
  - destruct haystack as [|c' haystack].
    + split; [discriminate | intros [after H]; discriminate].
    + simpl. destruct (ascii_dec c c') as [Heq|Hneq].
      * subst c'. rewrite IH. split; intros [after H]; exists after; congruence.
      * split; [discriminate | intros [after H]; congruence].
Qed.

(** [needle in haystack] holds exactly when [needle] occurs in [haystack]. *)
Lemma contains_substring :
  forall needle haystack,
    contains needle haystack = true <-> substring needle haystack.
Proof.
  intros needle haystack. induction haystack as [|c haystack IH].
  - cbn [contains]. rewrite orb_false_r, prefix_app. split.
    + intros [after H]. exists EmptyString, after. exact H.
    + intros [[|b before] [after H]]; [exists after; exact H | discriminate].
  - cbn [contains]. rewrite orb_true_iff, prefix_app, IH. split.
    + intros [[after H] | [before [after H]]].
      * exists EmptyString, after. exact H.
      * exists (String c before), after. simpl. now rewrite H.
    + intros [[|b before] [after H]].
      * left. exists after. exact H.
      * right. exists before, after. simpl in H. congruence.
Qed.

Lemma match_found_existsb :
  forall search_terms title identifier,
    match_found search_terms title identifier
    = existsb (fun term => contains term title || contains term identifier) search_terms.
Proof.
  induction search_terms as [|term rest IH]; intros title identifier; simpl.
  - reflexivity.
  - rewrite IH. destruct (contains term title || contains term identifier); reflexivity.
Qed.

Lemma lower_of_field :
  forall lower key default r,
    is_str_or_absent (dict_get key r) = true ->
    lower_of lower (dict_get_default key (PStr default) r)
    = Return (lower (match dict_get key r with
                     | Some (PStr s) => s
                     | _ => default
                     end)).
Proof.
  intros lower key default r H. unfold dict_get_default.
  destruct (dict_get key r) as [[]|]; simpl in *; try discriminate; reflexivity.
Qed.

(** The loop over well-formed results counts the matching ones and lists
    the titles of the others, in order. *)
Lemma check_results_well_formed :
  forall lower search_terms results v,
    forallb well_formed results = true ->
    check_results lower search_terms results v
    = Return
        (mkValidation
           (search_text v) (total_results v)
           (matching_results v
            + Z.of_nat (length (filter (result_matches lower search_terms) results)))
           (confidence v) (likely_incorrect v)
           (mismatched_titles v
            ++ map listed_title
                   (filter (fun r => negb (result_matches lower search_terms r)) results))).
Proof.
  intros lower search_terms results.
  induction results as [|r rest IH]; intros v Hwf.
  - simpl. rewrite Z.add_0_r, app_nil_r. destruct v; reflexivity.
  - simpl in Hwf. apply andb_true_iff in Hwf as [Hr Hrest].
    unfold well_formed in Hr. apply andb_true_iff in Hr as [Ht Hi].
    cbn [check_results].
    rewrite (lower_of_field lower "titulo" "" r Ht).
    rewrite (lower_of_field lower "identificador" "" r Hi).
    cbn [bind]. rewrite match_found_existsb.
    change (existsb _ search_terms) with (result_matches lower search_terms r).
    rewrite IH by exact Hrest.
    cbn [filter]. destruct (result_matches lower search_terms r); cbn [negb].
    + f_equal. unfold count_match. cbn. f_equal. lia.
    + f_equal. unfold add_mismatch. cbn. f_equal. now rewrite <- app_assoc.
Qed.

(** A result with a title or an identifier that is no string stops the
    loop with an exception. *)
Lemma check_results_ill_formed :
  forall lower search_terms results v,
    forallb well_formed results = false ->
    exists e, check_results lower search_terms results v = Raise e.
Proof.
  intros lower search_terms results.
  induction results as [|r rest IH]; intros v Hwf; [discriminate |].
  simpl in Hwf. cbn [check_results].
  unfold well_formed, dict_get_default in *.
  destruct (dict_get "titulo" r) as [[]|]; cbn in *;
    try (eexists; reflexivity);
    destruct (dict_get "identificador" r) as [[]|]; cbn in *;
      try (eexists; reflexivity);
      apply IH; exact Hwf.
Qed.

Lemma Qlt_bool_iff :
  forall x y, Qlt_bool x y = true <-> (x < y)%Q.
Proof.
  intros x y. unfold Qlt_bool. rewrite negb_true_iff. split.
  - intros H. apply Qnot_le_lt. intros Hle. apply Qle_bool_iff in Hle. congruence.
  - intros H. destruct (Qle_bool y x) eqn:E; [|reflexivity].
    apply Qle_bool_iff in E. exfalso. exact (Qlt_not_le _ _ H E).
Qed.

Lemma filter_length_le :
  forall (A : Type) (f : A -> bool) (l : list A), (length (filter f l) <= length l)%nat.
Proof.
  intros A f l. induction l as [|a l IH]; simpl; [lia |].
  destruct (f a); simpl; lia.
Qed.

(** What [validate_search_results] returns on well-formed results. *)
Lemma validate_search_results_report :
  forall lower text results,
    forallb well_formed results = true ->
    let matching :=
      Z.of_nat (length (filter (result_matches lower (split (lower text))) results)) in
    let total := Z.of_nat (length results) in
    let confidence :=
      match results with
      | [] => 0%Q
      | _ :: _ => (inject_Z matching / inject_Z total)%Q
      end in
    validate_search_results lower text results
    = Return
        (mkValidation
           text total matching confidence
           (match results with
            | [] => false
            | _ :: _ => Qlt_bool confidence (3 # 10)
            end)
           (map listed_title
                (filter (fun r => negb (result_matches lower (split (lower text)) r))
                        results))).
Proof.
  intros lower text results Hwf matching total confidence.
  unfold validate_search_results.
  destruct results as [|r rest] eqn:E; [reflexivity |].
  rewrite <- E in *.
  rewrite check_results_well_formed by exact Hwf.
  cbn [bind total_results matching_results mismatched_titles search_text
       warnings_handler.confidence likely_incorrect app Z.add].
  assert (Hpos : (0 <? Z.of_nat (length results)) = true).
  { apply Z.ltb_lt. rewrite E. simpl length. lia. }
  rewrite Hpos. unfold set_likely_incorrect, set_confidence. cbn.
  subst confidence matching total. rewrite E. reflexivity.
Qed.

(** C4, as the code has it.  For an empty result list the report is
    returned before [likely_incorrect] is computed: its confidence is [0],
    below [0.30], and [likely_incorrect] is false. *)
Lemma empty_results_not_flagged :
  exists report,
    validate_search_results ascii_lower "Constitución" [] = Return report
    /\ total_results report = 0
    /\ (confidence report == 0)%Q
    /\ (confidence report < 3 # 10)%Q
    /\ likely_incorrect report = false.
Proof.
  eexists. split; [reflexivity |]. cbn. repeat split.
Qed.

(** C4, amended.  For every search text and every sequence of results
    whose titles and identifiers are strings, [validate_search_results]
    returns a report with [matching_results <= total_results], whose
    confidence is [matching_results / total_results] when
    [total_results > 0] and [0] otherwise, and in which
    [likely_incorrect] holds exactly when there is at least one result and
    the confidence is below [0.30]. *)
Theorem validation_report_invariants :
  forall (lower : string -> string) (text : string) (results : list dict),
    forallb well_formed results = true ->
    exists report,
      validate_search_results lower text results = Return report
      /\ total_results report = Z.of_nat (length results)
      /\ 0 <= matching_results report <= total_results report
      /\ (0 < total_results report ->
          (confidence report
           == inject_Z (matching_results report) / inject_Z (total_results report))%Q)
      /\ (total_results report = 0 -> (confidence report == 0)%Q)
      /\ (likely_incorrect report = true
          <-> 0 < total_results report /\ (confidence report < 3 # 10)%Q).
Proof.
  intros lower text results Hwf.
  eexists. split; [apply validate_search_results_report; exact Hwf |].
  cbn [total_results matching_results confidence likely_incorrect].
  split; [reflexivity |]. split.
  { pose proof (filter_length_le dict (result_matches lower (split (lower text))) results).
    lia. }
  destruct results as [|r rest].
  - split; [simpl; lia |]. split; [reflexivity |].
    split; [discriminate | simpl; lia].
  - split; [reflexivity |]. split; [simpl length; lia |].
    rewrite Qlt_bool_iff. split; [intros H; split; [simpl length; lia | exact H] | tauto].
Qed.

Lemma validation_report_invariants_witness :
  forallb well_formed
          [[("titulo", PStr "Ley 40/2015 de Régimen Jurídico del Sector Público")];
           [("titulo", PStr "Ley de Comercio"); ("identificador", PStr "BOE-A-2024-456")]]
  = true
  /\ exists report,
       validate_search_results ascii_lower "Ley 40"
         [[("titulo", PStr "Ley 40/2015 de Régimen Jurídico del Sector Público")];
          [("titulo", PStr "Ley de Comercio"); ("identificador", PStr "BOE-A-2024-456")]]
       = Return report
       /\ total_results report = Z.of_nat 2
       /\ 0 <= matching_results report <= total_results report
       /\ (0 < total_results report ->
           (confidence report
            == inject_Z (matching_results report) / inject_Z (total_results report))%Q)
       /\ (total_results report = 0 -> (confidence report == 0)%Q)
       /\ (likely_incorrect report = true
           <-> 0 < total_results report /\ (confidence report < 3 # 10)%Q).
Proof.
  split; [reflexivity |].
  exact (validation_report_invariants ascii_lower "Ley 40"
           [[("titulo", PStr "Ley 40/2015 de Régimen Jurídico del Sector Público")];
            [("titulo", PStr "Ley de Comercio"); ("identificador", PStr "BOE-A-2024-456")]]
           eq_refl).
Defined.

(** [ascii_lower] keeps the whitespace and the other characters apart, so
    lowering a text and cutting it into tokens commute. *)
Lemma ascii_lower_char_cases :
  forall c,
    ascii_lower_char c = c
    \/ ((65 <= code c <= 90)%nat /\ (97 <= code (ascii_lower_char c) <= 122)%nat).
Proof.
  intros [[] [] [] [] [] [] [] []];
    first [left; reflexivity | right; cbv; repeat split; lia].
Qed.

Ltac decide_byte_tests :=
  repeat match goal with
         | |- context [Nat.eqb ?a ?b] => destruct (Nat.eqb_spec a b); try lia
         | |- context [Nat.leb ?a ?b] => destruct (Nat.leb_spec a b); try lia
         end.

Lemma ascii_space_lower :
  forall c, ascii_space (ascii_lower_char c) = ascii_space c.
Proof.
  intros c. destruct (ascii_lower_char_cases c) as [-> | [H1 H2]]; [reflexivity |].
  unfold ascii_space. decide_byte_tests; reflexivity.
Qed.

Lemma space2_lower :
  forall c1 c2,
    space2 (ascii_lower_char c1) (ascii_lower_char c2) = space2 c1 c2.
Proof.
  intros c1 c2.
  destruct (ascii_lower_char_cases c1) as [-> | [H1 H1']],
           (ascii_lower_char_cases c2) as [-> | [H2 H2']];
    try reflexivity; unfold space2; decide_byte_tests; reflexivity.
Qed.

Lemma space3_lower :
  forall c1 c2 c3,
    space3 (ascii_lower_char c1) (ascii_lower_char c2) (ascii_lower_char c3)
    = space3 c1 c2 c3.
Proof.
  intros c1 c2 c3.
  destruct (ascii_lower_char_cases c1) as [-> | [H1 H1']],
           (ascii_lower_char_cases c2) as [-> | [H2 H2']],
           (ascii_lower_char_cases c3) as [-> | [H3 H3']];
    try reflexivity; unfold space3; decide_byte_tests; reflexivity.
Qed.

Lemma space_width_lower :
  forall s, space_width (ascii_lower s) = space_width s.
Proof.
  intros [|c1 [|c2 [|c3 rest]]]; cbn [ascii_lower space_width];
    rewrite ?ascii_space_lower, ?space2_lower, ?space3_lower; reflexivity.
Qed.

Lemma flush_lower :
  forall word, flush (ascii_lower word) = map ascii_lower (flush word).
Proof.
  intros [|c word]; reflexivity.
Qed.

Lemma ascii_lower_app :
  forall s1 s2, ascii_lower (s1 ++ s2) = (ascii_lower s1 ++ ascii_lower s2)%string.
Proof.
  induction s1 as [|c s1 IH]; intros s2; simpl; [reflexivity | now rewrite IH].
Qed.

Lemma ascii_lower_split_from :
  forall s skip word,
    split_from skip (ascii_lower word) (ascii_lower s)
    = map ascii_lower (split_from skip word s).
Proof.
  induction s as [|c s IH]; intros skip word.
  - apply flush_lower.
  - change (ascii_lower (String c s)) with (String (ascii_lower_char c) (ascii_lower s)).
    cbn [split_from]. destruct skip as [|n]; [| apply IH].
    change (String (ascii_lower_char c) (ascii_lower s)) with (ascii_lower (String c s)).
    rewrite space_width_lower.
    destruct (space_width (String c s)) as [|n].
    + rewrite <- IH, ascii_lower_app. reflexivity.
    + rewrite map_app, flush_lower. f_equal. apply (IH n EmptyString).
Qed.

Lemma ascii_lower_split :
  forall s, split (ascii_lower s) = map ascii_lower (split s).
Proof.
  intros s. apply (ascii_lower_split_from s 0%nat EmptyString).
Qed.

(** C7.  The search terms are the whitespace-separated tokens of the
    search text, each lowercased.  A result matches exactly when some
    token occurs in its lowercased title or in its lowercased identifier.
    [matching_results] counts the matching results and
    [mismatched_titles] lists the titles of exactly the other results, in
    input order (a result without a title is listed as ['Sin título']). *)
Theorem validator_matching :
  forall (lower : string -> string) (text : string) (results : list dict),
    (forall s, split (lower s) = map lower (split s)) ->
    forallb well_formed results = true ->
    let tokens := map lower (split text) in
    exists report,
      validate_search_results lower text results = Return report
      /\ matching_results report
         = Z.of_nat (length (filter (result_matches lower tokens) results))
      /\ mismatched_titles report
         = map listed_title
               (filter (fun r => negb (result_matches lower tokens r)) results)
      /\ (forall r,
             result_matches lower tokens r = true
             <-> exists token,
                   In token tokens
                   /\ (substring token (lower (field_text "titulo" r))
                       \/ substring token (lower (field_text "identificador" r)))).
Proof.
  intros lower text results Hsplit Hwf tokens.
  eexists. split; [apply validate_search_results_report; exact Hwf |].
  cbn [matching_results mismatched_titles].
  rewrite Hsplit. fold tokens.
  split; [reflexivity |]. split; [reflexivity |].
  intros r. unfold result_matches. rewrite existsb_exists.
  split; intros [token [Hin H]]; exists token; (split; [exact Hin |]).
  - apply orb_true_iff in H. rewrite !contains_substring in H. exact H.
  - apply orb_true_iff. rewrite !contains_substring. exact H.
Qed.

Lemma validator_matching_witness :
  (forall s, split (ascii_lower s) = map ascii_lower (split s))
  /\ forallb well_formed
             [[("titulo", PStr "Real Decreto sobre Aguas")];
              [("titulo", PStr "Ley 40/2015"); ("identificador", PStr "BOE-A-2015-10566")];
              [("identificador", PStr "BOE-A-2024-789")]]
     = true
  /\ exists report,
       validate_search_results ascii_lower ("Constitución " ++ nbsp ++ "LEY")%string
         [[("titulo", PStr "Real Decreto sobre Aguas")];
          [("titulo", PStr "Ley 40/2015"); ("identificador", PStr "BOE-A-2015-10566")];
          [("identificador", PStr "BOE-A-2024-789")]]
       = Return report
       /\ matching_results report = 1
       /\ mismatched_titles report = [PStr "Real Decreto sobre Aguas"; PStr "Sin título"].
Proof.
  split; [exact ascii_lower_split |]. split; [reflexivity |].
  destruct (validator_matching ascii_lower ("Constitución " ++ nbsp ++ "LEY")%string
              [[("titulo", PStr "Real Decreto sobre Aguas")];
               [("titulo", PStr "Ley 40/2015"); ("identificador", PStr "BOE-A-2015-10566")];
               [("identificador", PStr "BOE-A-2024-789")]]
              ascii_lower_split eq_refl)
    as [report [Hreport [Hcount [Htitles _]]]].
  exists report. split; [exact Hreport |]. split; [exact Hcount | exact Htitles].
Defined.

(** ** The identifier check *)

Section RegexFacts.

Import re legislation.

Variable wide_digit : string -> option string.

(** The matcher succeeds exactly when the pattern can consume a prefix
    that the continuation accepts. *)
Lemma run_consumes :
  forall r pos s k,
    run wide_digit r pos s k = true
    <-> exists pos' s', consumes wide_digit r pos s pos' s' /\ k pos' s' = true.
Proof.
  induction r as [| | c | | | r1 IH1 r2 IH2 | r1 IH1 r2 IH2]; intros pos s k; cbn [run consumes].
  - rewrite andb_true_iff, Nat.eqb_eq. split.
    + intros [H1 H2]. exists pos, s. auto.
    + intros [pos' [s' [[H1 [H2 H3]] H4]]]. subst. auto.
  - rewrite andb_true_iff. split.
    + intros [H1 H2]. exists pos, s. auto.
    + intros [pos' [s' [[H1 [H2 H3]] H4]]]. subst. auto.
  - destruct s as [|c' rest].
    + split; [discriminate | intros [pos' [s' [[H _] _]]]; discriminate].
    + rewrite andb_true_iff, Ascii.eqb_eq. split.
      * intros [H1 H2]. subst c'. exists (S pos), rest. auto.
      * intros [pos' [s' [[H1 H2] H3]]]. injection H1 as -> ->. subst pos'. auto.
  - destruct (digit wide_digit s) as [rest|].
    + split.
      * intros H. exists (S pos), rest. auto.
      * intros [pos' [s' [[H1 H2] H3]]]. injection H1 as ->. subst pos'. exact H3.
    + split; [discriminate | intros [pos' [s' [[H _] _]]]; discriminate].
  - split.
    + intros H. exists pos, s. auto.
    + intros [pos' [s' [[H1 H2] H3]]]. subst. exact H3.
  - rewrite IH1. split.
    + intros [pos1 [s1 [H1 H2]]]. apply IH2 in H2 as [pos' [s' [H2 H3]]].
      exists pos', s'. split; [exists pos1, s1; auto | exact H3].
    + intros [pos' [s' [[pos1 [s1 [H1 H2]]] H3]]].
      exists pos1, s1. split; [exact H1 |]. apply IH2. exists pos', s'. auto.
  - rewrite orb_true_iff, IH1, IH2. split.
    + intros [[pos' [s' [H1 H2]]] | [pos' [s' [H1 H2]]]]; exists pos', s'; auto.
    + intros [pos' [s' [[H1 | H1] H2]]]; [left | right]; exists pos', s'; auto.
Qed.

Lemma consumes_lit :
  forall word pos s pos' s',
    consumes wide_digit (lit word) pos s pos' s'
    <-> s = (word ++ s')%string /\ pos' = (pos + String.length word)%nat.
Proof.
  induction word as [|c word IH]; intros pos s pos' s'; cbn [lit consumes].
  - simpl. split; intros [H1 H2]; subst; split; auto; lia.
  - split.
    + intros [pos1 [s1 [[H1 H2] H3]]]. apply IH in H3 as [H3 H4]. subst. simpl. split; [reflexivity | lia].
    + intros [H1 H2]. exists (S pos), (word ++ s')%string. split; [auto |].
      apply IH. split; [reflexivity | simpl in H2; lia].
Qed.

Lemma consumes_times_digit :
  forall n pos s pos' s',
    consumes wide_digit (times n Digit) pos s pos' s'
    <-> digits_then wide_digit n s s' /\ pos' = (pos + n)%nat.
Proof.
  induction n as [|n IH]; intros pos s pos' s'; cbn [times consumes digits_then].
  - split.
    + intros [H1 H2]. subst. split; [reflexivity | lia].
    + intros [H1 H2]. subst. split; [lia | reflexivity].
  - split.
    + intros [pos1 [s1 [[Hd H1] H2]]]. apply IH in H2 as [H2 H3].
      split; [exists s1; auto | lia].
    + intros [[after [Hd H1]] H2]. exists (S pos), after. split; [auto |].
      apply IH. split; [exact H1 | lia].
Qed.

Lemma consumes_upto_digit :
  forall n pos s pos' s',
    consumes wide_digit (upto n Digit) pos s pos' s'
    <-> exists k, (k <= n)%nat /\ digits_then wide_digit k s s' /\ pos' = (pos + k)%nat.
Proof.
  induction n as [|n IH]; intros pos s pos' s'; cbn [upto consumes].
  - split.
    + intros [H1 H2]. subst. exists 0%nat. simpl. repeat split; lia.
    + intros [k [H1 [H2 H3]]]. assert (k = 0%nat) by lia. subst k.
      simpl in H2. subst. split; [lia | reflexivity].
  - split.
    + intros [[pos1 [s1 [[Hd H1] H2]]] | [H1 H2]].
      * apply IH in H2 as [k [H2 [H3 H4]]]. exists (S k).
        split; [lia |]. split; [exists s1; auto | lia].
      * subst. exists 0%nat. simpl. repeat split; lia.
    + intros [[|k] [H1 [H2 H3]]].
      * right. simpl in H2. subst. split; [lia | reflexivity].
      * left. destruct H2 as [after [Hd H2]].
        exists (S pos), after. split; [auto |].
        apply IH. exists k. repeat split; auto; lia.
Qed.

Lemma digits_then_add :
  forall a b s middle rest,
    digits_then wide_digit a s middle ->
    digits_then wide_digit b middle rest ->
    digits_then wide_digit (a + b) s rest.
Proof.
  induction a as [|a IH]; intros b s middle rest Ha Hb; simpl in *.
  - subst. exact Hb.
  - destruct Ha as [after [Hd Ha]]. exists after. split; [exact Hd |].
    apply (IH b after middle rest Ha Hb).
Qed.

(** ASCII digits are digits whatever [wide_digit] is. *)
Lemma ascii_digit_is_ascii :
  forall c, ascii_digit c = true -> is_ascii c = true.
Proof.
  intros c. unfold ascii_digit, is_ascii.
  rewrite andb_true_iff, !Nat.leb_le, Nat.ltb_lt. lia.
Qed.

Lemma all_digits_then :
  forall ds rest,
    all_digits ds = true ->
    digits_then wide_digit (String.length ds) (ds ++ rest) rest.
Proof.
  induction ds as [|d ds IH]; intros rest H; simpl in *; [reflexivity |].
  apply andb_true_iff in H as [Hd H].
  exists (ds ++ rest)%string. rewrite (ascii_digit_is_ascii d Hd), Hd. auto.
Qed.

Lemma at_end_iff :
  forall s, at_end s = true <-> s = EmptyString \/ s = newline.
Proof.
  intros [|c [|c' s]]; simpl.
  - split; auto.
  - rewrite Ascii.eqb_eq. unfold newline. split.
    + intros ->. right. reflexivity.
    + intros [H | H]; [discriminate | now injection H].
  - split; [discriminate | intros [H | H]; discriminate].
Qed.

(** The check succeeds exactly on the strings of the shape, with or
    without one line feed after them. *)
Lemma validate_boe_identifier_iff :
  forall s,
    validate_boe_identifier wide_digit s = true
    <-> identifier_then wide_digit s EmptyString \/ identifier_then wide_digit s newline.
Proof.
  intros s. unfold validate_boe_identifier, matches. rewrite run_consumes.
  unfold pattern, between. cbn [consumes].
  split.
  - intros [pos' [s' [H _]]].
    destruct H as [p1 [s1 [[_ [-> ->]] H]]].
    destruct H as [p2 [s2 [Hprefix H]]].
    destruct H as [p3 [s3 [Hs H]]].
    destruct H as [p4 [s4 [Hyear H]]].
    destruct H as [p5 [s5 [[Hdash _] H]]].
    destruct H as [p6 [s6 [Hnumber [Hend [_ ->]]]]].
    destruct Hnumber as [p7 [s7 [Hn1 Hn2]]].
    apply consumes_lit in Hs as [Hs _].
    apply consumes_times_digit in Hyear as [Hyear _].
    apply consumes_times_digit in Hn1 as [Hn1 _].
    apply consumes_upto_digit in Hn2 as [k [Hk [Hn2 _]]].
    apply at_end_iff in Hend.
    assert (Hshape : forall prefix, (prefix = "BOE" \/ prefix = "BORME") ->
                       s = (prefix ++ s2)%string ->
                       identifier_then wide_digit s s6).
    { intros prefix Hp Hsplit.
      exists prefix, s3, s5, (1 + k)%nat. subst s2 s4.
      split; [exact Hp |]. split; [exact Hsplit |]. split; [exact Hyear |].
      split; [simpl in Hk; lia |].
      exact (digits_then_add 1 k s5 s7 s6 Hn1 Hn2). }
    assert (Hthen : identifier_then wide_digit s s6).
    { destruct Hprefix as [Hp | Hp]; apply consumes_lit in Hp as [Hp _].
      - apply (Hshape "BOE"); auto.
      - apply (Hshape "BORME"); auto. }
    destruct Hend as [Hend | Hend]; subst s6; [left | right]; exact Hthen.
  - intros Hthen.
    assert (H : exists tail, identifier_then wide_digit s tail /\ at_end tail = true).
    { destruct Hthen as [H | H]; [exists EmptyString | exists newline];
        (split; [exact H | reflexivity]). }
    destruct H as [tail [[prefix [year_on [number_on [n [Hp [Hs [Hyear [Hn Hnumber]]]]]]]] Hend]].
    destruct n as [|n]; [lia |].
    destruct Hnumber as [after [Hd Hnumber]].
    exists (String.length prefix + 3 + 4 + 1 + 1 + n)%nat, tail. split; [| reflexivity].
    exists 0%nat, s. split; [auto |].
    exists (0 + String.length prefix)%nat, ("-S-" ++ year_on)%string.
    split.
    { destruct Hp as [Hp | Hp]; [left | right]; apply consumes_lit; subst prefix;
        split; [exact Hs | reflexivity | exact Hs | reflexivity]. }
    exists (0 + String.length prefix + String.length "-S-")%nat, year_on.
    split; [apply consumes_lit; auto |].
    exists (0 + String.length prefix + String.length "-S-" + 4)%nat, ("-" ++ number_on)%string.
    split; [apply consumes_times_digit; auto |].
    exists (S (0 + String.length prefix + String.length "-S-" + 4)), number_on.
    split; [split; reflexivity |].
    exists (String.length prefix + 3 + 4 + 1 + 1 + n)%nat, tail.
    split; [| split; [exact Hend | auto]].
    exists (S (0 + String.length prefix + String.length "-S-" + 4) + 1)%nat, after.
    split.
    + apply consumes_times_digit. split; [| reflexivity].
      exists after. split; [exact Hd | reflexivity].
    + apply consumes_upto_digit. exists n.
      split; [simpl; lia |]. split; [exact Hnumber | simpl; lia].
Qed.

(** A string that ends in a line feed does not have the shape. *)
Lemma line_feed_breaks_shape :
  ~ identifier_shape wide_digit ("BOE-S-2024-1" ++ newline).
Proof.
  intros [prefix [year_on [number_on [n [Hp [Hs [Hyear [Hn Hnumber]]]]]]]].
  destruct Hp as [-> | ->]; [| discriminate Hs].
  simpl in Hs. injection Hs as Hs. subst year_on.
  destruct Hyear as [a1 [H1 [a2 [H2 [a3 [H3 [a4 [H4 Hyear]]]]]]]].
  cbn in H1. injection H1 as <-.
  cbn in H2. injection H2 as <-.
  cbn in H3. injection H3 as <-.
  cbn in H4. injection H4 as <-.
  simpl in Hyear. injection Hyear as Hyear. subst number_on.
  destruct n as [|[|n]]; [lia | |].
  - destruct Hnumber as [b1 [H1 Hnumber]]. cbn in H1. injection H1 as <-.
    discriminate Hnumber.
  - destruct Hnumber as [b1 [H1 [b2 [H2 _]]]]. cbn in H1. injection H1 as <-.
    discriminate H2.
Qed.

End RegexFacts.

Import re legislation.

(** C10.  [validate_boe_identifier] returns true exactly for the strings
    [(BOE|BORME)-S-<4 digits>-<1 to 3 digits>] and for these strings
    followed by one line feed, a digit being a character that [\d]
    matches.  So it does not return true exactly for the strings of the
    shape: [$] also matches just before a line feed that ends the string,
    and the check accepts [BOE-S-2024-1] followed by a line feed, which is
    not of the shape.  The digits need not be ASCII: with the fullwidth
    digits among those of [\d], the year may be written in them.  It
    returns false for every string that starts with [BOE-A-], hence for
    every identifier of the form [BOE-A-YYYY-NNNNN], and
    [get_consolidated_law] answers each of them with the invalid-parameter
    warning without any call to the client. *)
Theorem validate_boe_identifier_shape :
  forall wide_digit : string -> option string,
    (forall s,
        validate_boe_identifier wide_digit s = true
        <-> identifier_shape wide_digit s \/ identifier_then wide_digit s newline)
    /\ (validate_boe_identifier wide_digit ("BOE-S-2024-1" ++ newline) = true
        /\ ~ identifier_shape wide_digit ("BOE-S-2024-1" ++ newline))
    /\ validate_boe_identifier fullwidth_digit
         ("BOE-S-" ++ fullwidth 2 ++ fullwidth 0 ++ fullwidth 2 ++ fullwidth 4 ++ "-1")%string
       = true
    /\ (forall rest, validate_boe_identifier wide_digit ("BOE-A-" ++ rest) = false)
    /\ validate_boe_identifier wide_digit "BOE-A-2015-10566" = false
    /\ (forall fetch_law rest,
           get_consolidated_law wide_digit fetch_law ("BOE-A-" ++ rest)
           = ([mkTextContent
                 (invalid_parameter_warning "law_id" ("BOE-A-" ++ rest) "BOE-A-YYYY-NNNNN")],
              [])).
Proof.
  intros wide_digit.
  split; [exact (validate_boe_identifier_iff wide_digit) |].
  split; [split; [reflexivity | exact (line_feed_breaks_shape wide_digit)] |].
  split; [reflexivity |].
  repeat split.
Qed.

(* ===================================================================== *)
(** * Part III: further properties of the code                             *)
(* ===================================================================== *)

Import Py_except http_client_endpoints boe_models_metadata legislation_tools spec_more.

(** ** More on the request executor *)

(** The first attempt that is answered with a 2xx status ends the run. *)
Lemma make_request_first_success :
  forall (R : Z) (retry_delay : Q) (request : Z -> result Response)
         (status_error_text : Response -> string) (now : Z)
         (cause : Z -> string) (i : Z) (response : Response),
    0 <= i <= R ->
    (forall j, 0 <= j < i -> request j = Raise (RequestError (cause j))) ->
    request i = Return response ->
    is_success response = true ->
    _make_request R retry_delay request status_error_text now
    = (Return response, backoff retry_delay 0 (Z.to_nat i) ++ [Request i]).
Proof.
  intros R retry_delay request status_error_text now cause i response Hi Hfail Hresp Hok.
  destruct (make_request_reaches R retry_delay request status_error_text now cause i Hi Hfail)
    as [rest [before Hreach]].
  rewrite Hreach. cbn [attempts]. unfold try_request.
  rewrite Hresp. cbn [bind]. rewrite Hok. reflexivity.
Qed.

(** X1.  When the attempts before [i] fail with a transient fault and
    attempt [i <= max_retries] is answered with a 2xx status,
    [_make_request] returns that response; the trace holds the [i] failed
    attempts, each followed by its pause, and ends with the request that
    succeeded. *)
Theorem make_request_succeeds_after_retries :
  forall (R : Z) (retry_delay : Q) (request : Z -> result Response)
         (status_error_text : Response -> string) (now : Z)
         (cause : Z -> string) (i : Z) (response : Response),
    0 <= i <= R ->
    (forall j, 0 <= j < i -> request j = Raise (RequestError (cause j))) ->
    request i = Return response ->
    is_success response = true ->
    _make_request R retry_delay request status_error_text now
    = (Return response, backoff retry_delay 0 (Z.to_nat i) ++ [Request i]).
Proof.
  exact make_request_first_success.
Qed.

Lemma make_request_succeeds_after_retries_witness :
  0 <= 2 <= 3
  /\ _make_request 3 (1 # 2) (fails_then_answers 2 (mkResponse 200 "{}")) status_text 0
     = (Return (mkResponse 200 "{}"),
        [Request 0; Sleep ((1 # 2) * inject_Z (0 + 1));
         Request 1; Sleep ((1 # 2) * inject_Z (1 + 1));
         Request 2]).
Proof.
  split; [lia |].
  exact (make_request_succeeds_after_retries 3 (1 # 2)
           (fails_then_answers 2 (mkResponse 200 "{}")) status_text 0
           (fun _ => "connection refused") 2 (mkResponse 200 "{}")
           ltac:(lia)
           ltac:(intros j Hj; unfold fails_then_answers;
                 destruct (Z.ltb_spec j 2); [reflexivity | lia])
           eq_refl eq_refl).
Defined.

(** X2.  An exception of the transport that is neither a [RequestError]
    nor an [HTTPStatusError] leaves [_make_request] unchanged, at the
    attempt where it occurs: it is not retried and not turned into an
    [APIError]. *)
Theorem make_request_other_exception :
  forall (R : Z) (retry_delay : Q) (request : Z -> result Response)
         (status_error_text : Response -> string) (now : Z)
         (cause : Z -> string) (i : Z) (e : exn),
    0 <= i <= R ->
    (forall j, 0 <= j < i -> request j = Raise (RequestError (cause j))) ->
    request i = Raise e ->
    handled_by_make_request e = false ->
    _make_request R retry_delay request status_error_text now
    = (Raise e, backoff retry_delay 0 (Z.to_nat i) ++ [Request i]).
Proof.
  intros R retry_delay request status_error_text now cause i e Hi Hfail Hresp He.
  destruct (make_request_reaches R retry_delay request status_error_text now cause i Hi Hfail)
    as [rest [before Hreach]].
  rewrite Hreach. cbn [attempts]. unfold try_request.
  rewrite Hresp. cbn [bind]. destruct e; try discriminate He; reflexivity.
Qed.

Lemma make_request_other_exception_witness :
  0 <= 0 <= 3
  /\ _make_request 3 1 (fun _ => Raise (OtherError "cancelled")) status_text 0
     = (Raise (OtherError "cancelled"), [Request 0]).
Proof.
  split; [lia |].
  exact (make_request_other_exception 3 1 (fun _ => Raise (OtherError "cancelled"))
           status_text 0 (fun _ => EmptyString) 0 (OtherError "cancelled")
           ltac:(lia) ltac:(intros j Hj; lia) eq_refl eq_refl).
Defined.

(** Every run over the rest of the range ends with a request, reached
    through retried attempts with their pauses. *)
Lemma attempts_shape :
  forall (R : Z) (retry_delay : Q) (request : Z -> result Response)
         (status_error_text : Response -> string) (now : Z) n start before trace,
    Z.of_nat (start + S n) = R + 1 ->
    exists k, (k <= n)%nat
      /\ snd (attempts R retry_delay request status_error_text now
                       (map Z.of_nat (seq start (S n))) before trace)
         = trace ++ backoff retry_delay start k ++ [Request (Z.of_nat (start + k))].
Proof.
  intros R retry_delay request status_error_text now n.
  induction n as [|n IH]; intros start before trace Hlen.
  - exists 0%nat. split; [lia |]. cbn [seq map attempts]. rewrite Nat.add_0_r.
    destruct (try_request request status_error_text (Z.of_nat start)) as [response|e];
      [reflexivity |].
    destruct e; try reflexivity.
    replace (Z.of_nat start <? R) with false by (symmetry; apply Z.ltb_ge; lia).
    reflexivity.
  - change (seq start (S (S n))) with (start :: seq (S start) (S n)).
    cbn [map attempts].
    destruct (try_request request status_error_text (Z.of_nat start)) as [response|e].
    + exists 0%nat. split; [lia |]. rewrite Nat.add_0_r. reflexivity.
    + destruct e; try (exists 0%nat; split; [lia |]; rewrite Nat.add_0_r; reflexivity).
      replace (Z.of_nat start <? R) with true by (symmetry; apply Z.ltb_lt; lia).
      destruct (IH (S start) (Some msg)
                   ((trace ++ [Request (Z.of_nat start)])
                    ++ [Sleep (retry_delay * inject_Z (Z.of_nat start + 1))]))
        as [k [Hk Hshape]]; [lia |].
      exists (S k). split; [lia |].
      rewrite Hshape. unfold backoff. cbn [seq map flat_map].
      rewrite <- !app_assoc. cbn [app].
      replace (S start + k)%nat with (start + S k)%nat by lia. reflexivity.
Qed.

(** X3.  Whatever the transport does, a run of [_make_request] has one of
    two shapes.  With [max_retries < 0] no request is sent and the
    [raise] after the loop is given an [APIError] whose [detalles] is the
    text [None].  Otherwise the run is the attempts [0 .. k] for some
    [k <= max_retries]: never more than [max_retries + 1] requests, a
    pause of [retry_delay * (j + 1)] after each attempt [j < k], and no
    pause after the last request. *)
Theorem make_request_trace_shape :
  forall (R : Z) (retry_delay : Q) (request : Z -> result Response)
         (status_error_text : Response -> string) (now : Z),
    let out := _make_request R retry_delay request status_error_text now in
    (R < 0
     /\ out = (py_raise (Model (retries_exhausted now None)), [])
     /\ detalles (retries_exhausted now None) = Some "None")
    \/ (exists k,
          0 <= k <= R
          /\ snd out = backoff retry_delay 0 (Z.to_nat k) ++ [Request k]
          /\ requests_of (snd out) = range (k + 1)
          /\ sleeps_of (snd out)
             = map (fun attempt => (retry_delay * inject_Z (attempt + 1))%Q) (range k)).
Proof.
  intros R retry_delay request status_error_text now out.
  destruct (Z.ltb_spec R 0) as [Hneg | Hpos].
  - left. split; [exact Hneg |]. split; [| reflexivity].
    unfold out, _make_request, range.
    replace (Z.to_nat (R + 1)) with 0%nat by lia. reflexivity.
  - right.
    destruct (attempts_shape R retry_delay request status_error_text now
                             (Z.to_nat R) 0 None []) as [k [Hk Hshape]]; [lia |].
    exists (Z.of_nat k).
    assert (Hout : snd out = backoff retry_delay 0 (Z.to_nat (Z.of_nat k)) ++ [Request (Z.of_nat k)]).
    { unfold out, _make_request, range.
      replace (Z.to_nat (R + 1)) with (S (Z.to_nat R)) by lia.
      rewrite Hshape, Nat2Z.id. reflexivity. }
    split; [lia |]. split; [exact Hout |]. rewrite Hout. split.
    + rewrite requests_of_app, requests_of_backoff, Nat2Z.id.
      rewrite (range_last (Z.of_nat k)) by lia. rewrite Nat2Z.id. reflexivity.
    + rewrite sleeps_of_app, sleeps_of_backoff, Nat2Z.id. simpl sleeps_of.
      rewrite app_nil_r. unfold range. rewrite Nat2Z.id. reflexivity.
Qed.

(** ** The endpoint methods *)

Lemma dict_get_absent :
  forall key (d : dict), ~ In key (map fst d) -> dict_get key d = None.
Proof.
  intros key d. induction d as [|[k v] d IH]; intros Hnot; simpl; [reflexivity |].
  destruct (String.eqb key k) eqn:E.
  - apply String.eqb_eq in E. subst k. exfalso. apply Hnot. left. reflexivity.
  - apply IH. intros Hin. apply Hnot. right. exact Hin.
Qed.

(** [d.update(other)] binds a key as [other] does, and as [d] does where
    [other] has no such key. *)
Lemma dict_get_update :
  forall (other d : dict) key,
    NoDup (map fst other) ->
    dict_get key (dict_update d other)
    = match dict_get key other with
      | Some v => Some v
      | None => dict_get key d
      end.
Proof.
  unfold dict_update.
  induction other as [|[k v] other IH]; intros d key Hnodup; [reflexivity |].
  simpl in Hnodup. inversion Hnodup as [|k' l Hnotin Hrest]; subst.
  cbn [fold_left fst snd dict_get]. rewrite IH by exact Hrest.
  destruct (String.eqb key k) eqn:E.
  - apply String.eqb_eq in E. subst k.
    rewrite (dict_get_absent key other Hnotin). apply dict_get_set_same.
  - destruct (dict_get key other); [reflexivity |].
    apply dict_get_set_other. intros ->. rewrite String.eqb_refl in E. discriminate.
Qed.

(** X4.  [get] sends a [GET] for [BASE_URL + endpoint] with the given
    parameters and the [Accept] header laid over the default headers.
    When that request fails transiently [i <= max_retries] times and is
    then answered with a 2xx status and a body that [json.loads] reads,
    [get] returns the value read, after [i + 1] requests. *)
Theorem get_returns_first_success :
  forall (R : Z) (retry_delay : Q) (status_error_text : Response -> string) (now : Z)
         (json_loads : string -> pyval + string)
         (etree_fromstring : string -> element + string) (user_agent : option string)
         (transport : http_request -> Z -> result Response)
         (endpoint : string) (params : dict) (cause : Z -> string) (i : Z)
         (response : Response) (value : pyval),
    let sent := mkRequest "GET" (BASE_URL ++ endpoint) params
                          (dict_update (default_headers user_agent)
                                       [("Accept", PStr "application/json")]) in
    0 <= i <= R ->
    (forall j, 0 <= j < i -> transport sent j = Raise (RequestError (cause j))) ->
    transport sent i = Return response ->
    is_success response = true ->
    json_loads (text response) = inl value ->
    get R retry_delay status_error_text now json_loads etree_fromstring user_agent
        transport endpoint params "application/json"
    = (Return value, backoff retry_delay 0 (Z.to_nat i) ++ [Request i]).
Proof.
  intros R retry_delay status_error_text now json_loads etree_fromstring user_agent
         transport endpoint params cause i response value sent Hi Hfail Hresp Hok Hjson.
  unfold get, send. fold sent.
  rewrite (make_request_first_success R retry_delay (transport sent)
             status_error_text now cause i response Hi Hfail Hresp Hok).
  unfold _parse_response, parse_body. simpl. rewrite Hjson. reflexivity.
Qed.

Lemma get_returns_first_success_witness :
  0 <= 1 <= 3
  /\ get 3 1 status_text 0 small_loads example_fromstring None
         (fun _ => fails_then_answers 1 (mkResponse 200 "{}"))
         "/tablas-auxiliares/rangos" [] "application/json"
     = (Return (PDict []), [Request 0; Sleep (1 * inject_Z (0 + 1)); Request 1]).
Proof.
  split; [lia |].
  exact (get_returns_first_success 3 1 status_text 0 small_loads example_fromstring None
           (fun _ => fails_then_answers 1 (mkResponse 200 "{}"))
           "/tablas-auxiliares/rangos" [] (fun _ => "connection refused") 1
           (mkResponse 200 "{}") (PDict [])
           ltac:(lia)
           ltac:(intros j Hj; unfold fails_then_answers;
                 destruct (Z.ltb_spec j 1); [reflexivity | lia])
           eq_refl eq_refl eq_refl).
Defined.

(** X5.  For an [accept_format] other than [application/json] and
    [application/xml], [get] still sends the request; once it is answered
    with a 2xx status, the call ends in [UnboundLocalError] (the handler of
    [_parse_response] reads the unbound name [etree]) and not in the
    [APIError] with [codigo = 400] that the code builds. *)
Theorem get_unsupported_format :
  forall (R : Z) (retry_delay : Q) (status_error_text : Response -> string) (now : Z)
         (json_loads : string -> pyval + string)
         (etree_fromstring : string -> element + string) (user_agent : option string)
         (transport : http_request -> Z -> result Response)
         (endpoint : string) (params : dict) (accept_format : string)
         (response : Response),
    0 <= R ->
    String.eqb accept_format "application/json" = false ->
    String.eqb accept_format "application/xml" = false ->
    transport (mkRequest "GET" (BASE_URL ++ endpoint) params
                         (dict_update (default_headers user_agent)
                                      [("Accept", PStr accept_format)])) 0
    = Return response ->
    is_success response = true ->
    get R retry_delay status_error_text now json_loads etree_fromstring user_agent
        transport endpoint params accept_format
    = (Raise (UnboundLocalError "etree"), [Request 0]).
Proof.
  intros R retry_delay status_error_text now json_loads etree_fromstring user_agent
         transport endpoint params accept_format response HR Hjson Hxml Hresp Hok.
  unfold get, send.
  rewrite (make_request_first_success R retry_delay _ status_error_text now
             (fun _ => EmptyString) 0 response)
    by (lia || assumption || (intros j Hj; lia)).
  unfold _parse_response, parse_body. rewrite Hjson, Hxml. reflexivity.
Qed.

Lemma get_unsupported_format_witness :
  0 <= 3
  /\ get 3 1 status_text 0 small_loads example_fromstring None
         (fun _ _ => Return (mkResponse 200 "<html/>"))
         "/boe/sumario/20240529" [] "text/html"
     = (Raise (UnboundLocalError "etree"), [Request 0]).
Proof.
  split; [lia |].
  exact (get_unsupported_format 3 1 status_text 0 small_loads example_fromstring None
           (fun _ _ => Return (mkResponse 200 "<html/>"))
           "/boe/sumario/20240529" [] "text/html" (mkResponse 200 "<html/>")
           ltac:(lia) eq_refl eq_refl eq_refl eq_refl).
Defined.

(** X6.  [health_check] never returns [False].  It returns [True] when
    [search_legislation(limit=1)] returns, and when that call raises, the
    clause [except APIError] raises [TypeError], since [APIError] is no
    exception class.  It makes exactly the requests of the search. *)
Theorem health_check_never_false :
  forall (R : Z) (retry_delay : Q) (status_error_text : Response -> string) (now : Z)
         (json_loads : string -> pyval + string)
         (etree_fromstring : string -> element + string) (user_agent : option string)
         (transport : http_request -> Z -> result Response),
    let searched :=
      search_legislation R retry_delay status_error_text now json_loads etree_fromstring
                         user_agent transport None None None 0 1 [] in
    let out :=
      health_check R retry_delay status_error_text now json_loads etree_fromstring
                   user_agent transport in
    snd out = snd searched
    /\ ((exists value, fst searched = Return value /\ fst out = Return true)
        \/ (exists e, fst searched = Raise e
                      /\ fst out = Raise (TypeError not_catchable))).
Proof.
  intros R retry_delay status_error_text now json_loads etree_fromstring user_agent
         transport searched out.
  unfold out, health_check. fold searched.
  destruct searched as [[value | e] trace]; (split; [reflexivity |]).
  - left. exists value. split; reflexivity.
  - right. exists e. split; reflexivity.
Qed.

(** A keyword argument that repeats no parameter name is none of
    [offset], [limit] and [query]. *)
Lemma dict_get_parameter_name :
  forall (kwargs : dict) key,
    existsb repeats_parameter (map fst kwargs) = false ->
    repeats_parameter key = true ->
    dict_get key kwargs = None.
Proof.
  induction kwargs as [|[k v] kwargs IH]; intros key Hnone Hkey; [reflexivity |].
  cbn [map fst existsb] in Hnone. apply orb_false_iff in Hnone as [Hk Hnone].
  cbn [dict_get]. destruct (String.eqb key k) eqn:E.
  - apply String.eqb_eq in E. subst k. congruence.
  - apply IH; assumption.
Qed.

(** X7.  [search_legislation], called with its five parameters by name
    and with further keyword arguments.  When a keyword argument repeats
    the name of a parameter, the call raises [TypeError] and nothing is
    requested.  Otherwise the method is one [get] of the legislation
    endpoint, and the parameters it sends are these: [offset] and [limit]
    are the arguments; a keyword argument [from] or [to], or of any other
    name, is sent as given, also in place of [from_date] and [to_date];
    without such a keyword argument, [query], [from] and [to] are present
    exactly when the argument is a non-empty string; and there is no
    other key. *)
Theorem search_params_lookup :
  forall (R : Z) (retry_delay : Q) (status_error_text : Response -> string) (now : Z)
         (json_loads : string -> pyval + string)
         (etree_fromstring : string -> element + string) (user_agent : option string)
         (transport : http_request -> Z -> result Response)
         (query from_date to_date : option string) (offset limit : Z) (kwargs : dict),
    NoDup (map fst kwargs) ->
    let call :=
      search_legislation R retry_delay status_error_text now json_loads etree_fromstring
                         user_agent transport query from_date to_date offset limit kwargs in
    let params := search_params query from_date to_date offset limit kwargs in
    (existsb repeats_parameter (map fst kwargs) = true ->
     call = (Raise (TypeError multiple_values), []))
    /\ (existsb repeats_parameter (map fst kwargs) = false ->
        call = get R retry_delay status_error_text now json_loads etree_fromstring
                   user_agent transport (ENDPOINTS "legislation") params "application/json"
        /\ dict_get "offset" params = Some (PInt offset)
        /\ dict_get "limit" params = Some (PInt limit)
        /\ forall key,
             dict_get key params
             = match dict_get key kwargs with
               | Some v => Some v
               | None =>
                   if String.eqb key "offset" then Some (PInt offset)
                   else if String.eqb key "limit" then Some (PInt limit)
                   else if String.eqb key "query"
                        then (if truthy query then option_map PStr query else None)
                   else if String.eqb key "from"
                        then (if truthy from_date then option_map PStr from_date else None)
                   else if String.eqb key "to"
                        then (if truthy to_date then option_map PStr to_date else None)
                   else None
               end).
Proof.
  intros R retry_delay status_error_text now json_loads etree_fromstring user_agent
         transport query from_date to_date offset limit kwargs Hnodup call params.
  assert (Hlookup : forall key,
             dict_get key params
             = match dict_get key kwargs with
               | Some v => Some v
               | None =>
                   if String.eqb key "offset" then Some (PInt offset)
                   else if String.eqb key "limit" then Some (PInt limit)
                   else if String.eqb key "query"
                        then (if truthy query then option_map PStr query else None)
                   else if String.eqb key "from"
                        then (if truthy from_date then option_map PStr from_date else None)
                   else if String.eqb key "to"
                        then (if truthy to_date then option_map PStr to_date else None)
                   else None
               end).
  { intros key. unfold params, search_params. rewrite dict_get_update by exact Hnodup.
    destruct (dict_get key kwargs); [reflexivity |].
    destruct query as [q|], from_date as [f|], to_date as [t|]; simpl;
      repeat match goal with
             | |- context [String.eqb ?a ""] => destruct (String.eqb a "")
             end; simpl;
      destruct (String.eqb key "offset") eqn:E1; try reflexivity;
      destruct (String.eqb key "limit") eqn:E2; try reflexivity;
      destruct (String.eqb key "query") eqn:E3; try reflexivity;
      destruct (String.eqb key "from") eqn:E4; try reflexivity;
      destruct (String.eqb key "to") eqn:E5; try reflexivity;
      repeat match goal with
             | H : String.eqb _ _ = true |- _ => apply String.eqb_eq in H
             end; try congruence. }
  unfold call, search_legislation. split.
  - intros Hrepeat. rewrite Hrepeat. reflexivity.
  - intros Hfresh. rewrite Hfresh. split; [reflexivity |].
    split; [| split; [| exact Hlookup]].
    + rewrite Hlookup, (dict_get_parameter_name kwargs "offset" Hfresh eq_refl).
      reflexivity.
    + rewrite Hlookup, (dict_get_parameter_name kwargs "limit" Hfresh eq_refl).
      reflexivity.
Qed.

Lemma search_params_lookup_witness :
  NoDup (map fst [("to", PStr "20241231")])
  /\ NoDup (map fst [("limit", PInt 5)])
  /\ dict_get "to" (search_params (Some "{}") None (Some "20240101") 0 50
                                  [("to", PStr "20241231")])
     = Some (PStr "20241231")
  /\ dict_get "from" (search_params (Some "{}") None (Some "20240101") 0 50
                                    [("to", PStr "20241231")])
     = None
  /\ search_legislation 3 1 status_text 0 small_loads example_fromstring None
       (fun _ _ => Return (mkResponse 200 "{}"))
       (Some "{}") None (Some "20240101") 0 50 [("limit", PInt 5)]
     = (Raise (TypeError multiple_values), []).
Proof.
  split; [repeat constructor; simpl; tauto |].
  split; [repeat constructor; simpl; tauto |].
  destruct (search_params_lookup 3 1 status_text 0 small_loads example_fromstring None
              (fun _ _ => Return (mkResponse 200 "{}"))
              (Some "{}") None (Some "20240101") 0 50 [("to", PStr "20241231")]
              ltac:(repeat constructor; simpl; tauto))
    as [_ Hsent].
  destruct (Hsent eq_refl) as [_ [_ [_ Hlookup]]].
  split; [exact (Hlookup "to") |]. split; [exact (Hlookup "from") |].
  destruct (search_params_lookup 3 1 status_text 0 small_loads example_fromstring None
              (fun _ _ => Return (mkResponse 200 "{}"))
              (Some "{}") None (Some "20240101") 0 50 [("limit", PInt 5)]
              ltac:(repeat constructor; simpl; tauto))
    as [Hraise _].
  exact (Hraise eq_refl).
Defined.

(** ** More on the XML conversion *)

Lemma dict_set_keys :
  forall key value (d : dict),
    map fst (dict_set key value d)
    = if existsb (String.eqb key) (map fst d) then map fst d else map fst d ++ [key].
Proof.
  intros key value d. induction d as [|[k v] d IH]; simpl; [reflexivity |].
  destruct (String.eqb key k) eqn:E; simpl.
  - apply String.eqb_eq in E. subst k. reflexivity.
  - rewrite IH. destruct (existsb (String.eqb key) (map fst d)); reflexivity.
Qed.

Lemma dict_set_NoDup :
  forall key value (d : dict), NoDup (map fst d) -> NoDup (map fst (dict_set key value d)).
Proof.
  intros key value d Hnodup. rewrite dict_set_keys.
  destruct (existsb (String.eqb key) (map fst d)) eqn:E; [exact Hnodup |].
  apply NoDup_app; [exact Hnodup | repeat constructor; simpl; tauto |].
  intros k Hin [Hk | []]. subst k.
  assert (existsb (String.eqb key) (map fst d) = true); [| congruence].
  apply existsb_exists. exists key. split; [exact Hin | apply String.eqb_refl].
Qed.

Lemma add_child_NoDup :
  forall cd tag data, NoDup (map fst cd) -> NoDup (map fst (add_child cd tag data)).
Proof.
  intros cd tag data H. unfold add_child.
  destruct (dict_get tag cd); apply dict_set_NoDup; exact H.
Qed.

Lemma child_dict_of_NoDup :
  forall children, NoDup (map fst (child_dict_of children)).
Proof.
  intros children. induction children as [|child children IH] using rev_ind.
  - constructor.
  - rewrite child_dict_of_snoc. apply add_child_NoDup. exact IH.
Qed.

Lemma attributes_snoc :
  forall attrib k v,
    attributes (attrib ++ [(k, v)]) = dict_set ("@" ++ k) (PStr v) (attributes attrib).
Proof.
  intros attrib k v. unfold attributes. rewrite fold_left_app. reflexivity.
Qed.

Lemma attribute_value_snoc :
  forall name attrib k v,
    attribute_value name (attrib ++ [(k, v)])
    = if String.eqb name k then Some v else attribute_value name attrib.
Proof.
  intros name attrib k v. induction attrib as [|[k' v'] attrib IH]; simpl.
  - reflexivity.
  - rewrite IH. destruct (String.eqb name k); [reflexivity |].
    reflexivity.
Qed.

(** The attribute dictionary binds [@name] to the value of [name], and
    binds no key that does not start with [@]. *)
Lemma attributes_get :
  forall attrib name,
    dict_get ("@" ++ name) (attributes attrib)
    = option_map PStr (attribute_value name attrib).
Proof.
  intros attrib. induction attrib as [|[k v] attrib IH] using rev_ind; intros name.
  - reflexivity.
  - rewrite attributes_snoc, attribute_value_snoc.
    destruct (String.eqb name k) eqn:E.
    + apply String.eqb_eq in E. subst k. apply dict_get_set_same.
    + rewrite dict_get_set_other; [apply IH |].
      intros H. injection H as H. subst k. rewrite String.eqb_refl in E. discriminate.
Qed.

Lemma attributes_get_plain :
  forall attrib c key,
    c <> "@"%char -> dict_get (String c key) (attributes attrib) = None.
Proof.
  intros attrib c key Hc. induction attrib as [|[k v] attrib IH] using rev_ind.
  - reflexivity.
  - rewrite attributes_snoc, dict_get_set_other; [exact IH |].
    intros H. injection H as H _. congruence.
Qed.

(** X8.  In the conversion of an element with child elements, the key
    [text] holds the element's own trimmed text whenever that text is not
    blank, whatever children are tagged [text]; only when the text is
    blank does it hold the conversions of the children tagged [text]. *)
Theorem xml_text_key :
  forall tag attrib text child children,
    dict_get "text" (entries_of (_xml_to_dict (Element tag attrib text (child :: children))))
    = match own_text text with
      | Some t => Some (PStr t)
      | None => grouped (map _xml_to_dict (tagged "text" (child :: children)))
      end.
Proof.
  intros tag attrib text child children.
  cbn [_xml_to_dict entries_of]. fold (child_dict_of (child :: children)).
  pose proof (child_dict_of_NoDup (child :: children)) as Hnodup.
  destruct (own_text text) as [t|].
  - rewrite dict_get_update by (apply dict_set_NoDup; exact Hnodup).
    rewrite dict_get_set_same. reflexivity.
  - rewrite dict_get_update by exact Hnodup.
    rewrite child_dict_of_grouped.
    destruct (grouped _); [reflexivity |].
    apply attributes_get_plain. discriminate.
Qed.

(** X9.  In the conversion of an element with child elements, none of
    them tagged [@name], the key [@name] holds the value of the attribute
    [name] (the last one given), and is absent when there is no such
    attribute.  An element without child elements is converted as if it
    had no attributes. *)
Theorem xml_attributes_need_children :
  forall tag attrib text child children name,
    tagged ("@" ++ name) (child :: children) = [] ->
    dict_get ("@" ++ name)
             (entries_of (_xml_to_dict (Element tag attrib text (child :: children))))
    = option_map PStr (attribute_value name attrib)
    /\ _xml_to_dict (Element tag attrib text []) = _xml_to_dict (Element tag [] text []).
Proof.
  intros tag attrib text child children name Hno. split; [| reflexivity].
  cbn [_xml_to_dict entries_of]. fold (child_dict_of (child :: children)).
  pose proof (child_dict_of_NoDup (child :: children)) as Hnodup.
  assert (Hcd : dict_get ("@" ++ name) (child_dict_of (child :: children)) = None).
  { rewrite child_dict_of_grouped, Hno. reflexivity. }
  destruct (own_text text) as [t|].
  - rewrite dict_get_update by (apply dict_set_NoDup; exact Hnodup).
    rewrite dict_get_set_other by discriminate.
    rewrite Hcd. apply attributes_get.
  - rewrite dict_get_update by exact Hnodup.
    rewrite Hcd. apply attributes_get.
Qed.

Lemma xml_attributes_need_children_witness :
  tagged ("@" ++ "x") [Element "b" [] (Some "2") []] = []
  /\ dict_get "@x" (entries_of (_xml_to_dict xml_mixed)) = Some (PStr "1")
  /\ _xml_to_dict xml_attribute = PStr "hi".
Proof.
  split; [reflexivity |].
  exact (xml_attributes_need_children "a" [("x", "1")] (Some "hi")
           (Element "b" [] (Some "2") []) [] "x" eq_refl).
Defined.

(** ** More on the search-result validator *)

Lemma filter_split_length :
  forall (A : Type) (f : A -> bool) (l : list A),
    (length (filter f l) + length (filter (fun a => negb (f a)) l) = length l)%nat.
Proof.
  intros A f l. induction l as [|a l IH]; simpl; [reflexivity |].
  destruct (f a); simpl; lia.
Qed.

Lemma ratio_in_unit_interval :
  forall m t, 0 <= m <= t -> 0 < t ->
    (0 <= inject_Z m / inject_Z t)%Q /\ (inject_Z m / inject_Z t <= 1)%Q.
Proof.
  intros m t Hm Ht.
  assert (HtQ : (0 < inject_Z t)%Q).
  { change 0%Q with (inject_Z 0). rewrite <- Zlt_Qlt. exact Ht. }
  split.
  - apply Qle_shift_div_l; [exact HtQ |]. rewrite Qmult_0_l.
    change 0%Q with (inject_Z 0). rewrite <- Zle_Qle. lia.
  - apply Qle_shift_div_r; [exact HtQ |]. rewrite Qmult_1_l.
    rewrite <- Zle_Qle. lia.
Qed.

(** X10.  In the report of [validate_search_results] every result is
    either counted as matching or listed as mismatched:
    [matching_results + len(mismatched_titles) = total_results]; the
    search text is echoed, and the confidence lies between 0 and 1. *)
Theorem validation_report_partition :
  forall (lower : string -> string) (text : string) (results : list dict),
    forallb well_formed results = true ->
    exists report,
      validate_search_results lower text results = Return report
      /\ search_text report = text
      /\ matching_results report + Z.of_nat (length (mismatched_titles report))
         = total_results report
      /\ (0 <= confidence report)%Q /\ (confidence report <= 1)%Q.
Proof.
  intros lower text results Hwf.
  eexists. split; [apply validate_search_results_report; exact Hwf |].
  cbn [search_text total_results matching_results confidence mismatched_titles].
  split; [reflexivity |]. split.
  { rewrite length_map.
    pose proof (filter_split_length dict (result_matches lower (split (lower text))) results).
    lia. }
  destruct results as [|r rest].
  - split; [apply Qle_refl | discriminate].
  - apply ratio_in_unit_interval.
    + pose proof (filter_length_le dict (result_matches lower (split (lower text)))
                                   (r :: rest)). lia.
    + simpl length. lia.
Qed.

Lemma validation_report_partition_witness :
  forallb well_formed
          [[("titulo", PStr "Ley 40/2015")]; [("identificador", PStr "BOE-A-2024-789")]]
  = true
  /\ exists report,
       validate_search_results ascii_lower "ley"
         [[("titulo", PStr "Ley 40/2015")]; [("identificador", PStr "BOE-A-2024-789")]]
       = Return report
       /\ search_text report = "ley"
       /\ matching_results report + Z.of_nat (length (mismatched_titles report))
          = total_results report
       /\ (0 <= confidence report)%Q /\ (confidence report <= 1)%Q.
Proof.
  split; [reflexivity |].
  exact (validation_report_partition ascii_lower "ley"
           [[("titulo", PStr "Ley 40/2015")]; [("identificador", PStr "BOE-A-2024-789")]]
           eq_refl).
Defined.

Lemma result_matches_no_tokens :
  forall lower r, result_matches lower [] r = false.
Proof. reflexivity. Qed.

Lemma filter_all :
  forall (A : Type) (f : A -> bool) (l : list A),
    (forall a, f a = true) -> filter f l = l.
Proof.
  intros A f l H. induction l as [|a l IH]; simpl; [reflexivity |].
  rewrite H, IH. reflexivity.
Qed.

Lemma filter_none :
  forall (A : Type) (f : A -> bool) (l : list A),
    (forall a, f a = false) -> filter f l = [].
Proof.
  intros A f l H. induction l as [|a l IH]; simpl; [reflexivity |].
  rewrite H. exact IH.
Qed.

(** X11.  A search text without tokens (empty, or made of whitespace
    only, in the sense of [str.split]: ASCII or not) matches
    nothing: for a non-empty result list, [matching_results] is 0, every
    result is listed as mismatched, the confidence is 0 and
    [likely_incorrect] is true. *)
Theorem validation_without_tokens :
  forall (lower : string -> string) (text : string) (r : dict) (rest : list dict),
    forallb well_formed (r :: rest) = true ->
    split (lower text) = [] ->
    exists report,
      validate_search_results lower text (r :: rest) = Return report
      /\ matching_results report = 0
      /\ mismatched_titles report = map listed_title (r :: rest)
      /\ (confidence report == 0)%Q
      /\ likely_incorrect report = true.
Proof.
  intros lower text r rest Hwf Hsplit.
  eexists. split; [apply validate_search_results_report; exact Hwf |].
  cbn [matching_results confidence mismatched_titles likely_incorrect].
  rewrite Hsplit.
  rewrite (filter_none dict (result_matches lower []) (r :: rest))
    by (intros a; reflexivity).
  rewrite (filter_all dict (fun x => negb (result_matches lower [] x)) (r :: rest))
    by (intros a; reflexivity).
  split; [reflexivity |]. split; [reflexivity |].
  split; [reflexivity |]. reflexivity.
Qed.

Lemma validation_without_tokens_witness :
  forallb well_formed [[("titulo", PStr "Ley de Comercio")]; []] = true
  /\ split (ascii_lower (" " ++ nbsp ++ newline)%string) = []
  /\ exists report,
       validate_search_results ascii_lower (" " ++ nbsp ++ newline)%string
                               [[("titulo", PStr "Ley de Comercio")]; []]
       = Return report
       /\ matching_results report = 0
       /\ mismatched_titles report = [PStr "Ley de Comercio"; PStr "Sin título"]
       /\ (confidence report == 0)%Q
       /\ likely_incorrect report = true.
Proof.
  split; [reflexivity |]. split; [reflexivity |].
  exact (validation_without_tokens ascii_lower (" " ++ nbsp ++ newline)%string
           [("titulo", PStr "Ley de Comercio")]
           [[]] eq_refl eq_refl).
Defined.

(** A result whose title or identifier is no string stops the loop with
    the [AttributeError] of [.lower()]. *)
Lemma check_results_attribute_error :
  forall lower search_terms results v,
    forallb well_formed results = false ->
    check_results lower search_terms results v = Raise (AttributeError "lower").
Proof.
  intros lower search_terms results.
  induction results as [|r rest IH]; intros v Hwf; [discriminate |].
  simpl in Hwf. cbn [check_results].
  unfold well_formed, dict_get_default in *.
  destruct (dict_get "titulo" r) as [[]|]; cbn in *; try reflexivity;
    destruct (dict_get "identificador" r) as [[]|]; cbn in *; try reflexivity;
      apply IH; exact Hwf.
Qed.

(** X12.  When some result carries a title or an identifier that is not a
    string ([null], a number, a nested object), [validate_search_results]
    returns no report: it raises the [AttributeError] of [.lower()]. *)
Theorem validation_rejects_non_strings :
  forall (lower : string -> string) (text : string) (results : list dict),
    forallb well_formed results = false ->
    validate_search_results lower text results = Raise (AttributeError "lower").
Proof.
  intros lower text results Hwf. unfold validate_search_results.
  destruct results as [|r rest]; [discriminate |].
  rewrite check_results_attribute_error by exact Hwf. reflexivity.
Qed.

Lemma validation_rejects_non_strings_witness :
  forallb well_formed [[("titulo", PStr "Ley 40/2015")]; [("titulo", PNone)]] = false
  /\ validate_search_results ascii_lower "ley"
       [[("titulo", PStr "Ley 40/2015")]; [("titulo", PNone)]]
     = Raise (AttributeError "lower").
Proof.
  split; [reflexivity |].
  exact (validation_rejects_non_strings ascii_lower "ley"
           [[("titulo", PStr "Ley 40/2015")]; [("titulo", PNone)]] eq_refl).
Defined.

(** ** More on the query builder *)

Lemma clause_length :
  forall present render, length (clause present render) = if truthy present then 1%nat else 0%nat.
Proof.
  intros [value|] render; unfold clause; [| reflexivity].
  destruct (truthy (Some value)); reflexivity.
Qed.

(** X13.  Each of the five filters of [build_search_query] contributes
    exactly one clause when it is a non-empty string and none otherwise;
    with no filter supplied the query string is empty, and in every case
    it is the clauses joined by [AND]. *)
Theorem query_parts_count :
  forall text title department legal_range matter : option string,
    length (query_parts text title department legal_range matter)
    = supplied [text; title; department; legal_range; matter]
    /\ (supplied [text; title; department; legal_range; matter] = 0%nat ->
        query_string (query_parts text title department legal_range matter) = "")
    /\ query_string (query_parts text title department legal_range matter)
       = join " AND " (query_parts text title department legal_range matter).
Proof.
  intros text title department legal_range matter.
  assert (Hlen : length (query_parts text title department legal_range matter)
                 = supplied [text; title; department; legal_range; matter]).
  { unfold query_parts, supplied. rewrite !length_app, !clause_length. cbn [filter].
    destruct (truthy text), (truthy title), (truthy department), (truthy legal_range),
      (truthy matter); reflexivity. }
  split; [exact Hlen |]. split.
  - intros Hzero. rewrite Hzero in Hlen.
    destruct (query_parts text title department legal_range matter); [reflexivity | discriminate].
  - destruct (query_parts text title department legal_range matter); reflexivity.
Qed.

(** Every payload of [build_search_query] is a document of texts and maps
    with distinct keys. *)
Lemma query_json_representable :
  forall text title department legal_range matter date_from date_to : option string,
    representable (query_json text title department legal_range matter date_from date_to)
    = true.
Proof.
  intros text title department legal_range matter date_from date_to.
  unfold query_json, date_range.
  destruct date_from as [f|], date_to as [t|]; simpl;
    repeat match goal with
           | |- context [String.eqb ?a ""] => destruct (String.eqb a "")
           end; reflexivity.
Qed.

(** X17.  The string that [build_search_query] returns is a JSON text,
    whatever the filters hold (quotes, backslashes, line feeds, characters
    outside ASCII): [json.loads] reads it back as the payload
    [query_json], whose query string is the clauses joined by [AND], so
    [_parse_response] under [application/json] returns the payload for
    it. *)
Theorem build_search_query_reads_back :
  forall (now : Z) (parse_int parse_float parse_constant : string -> pyval + string)
         (etree_fromstring : string -> element + string)
         (text title department legal_range matter date_from date_to : option string),
    let payload := query_json text title department legal_range matter date_from date_to in
    let sent :=
      build_search_query json.dumps text title department legal_range matter
                         date_from date_to in
    json.loads parse_int parse_float parse_constant sent = inl payload
    /\ _parse_response now (json.loads parse_int parse_float parse_constant)
                       etree_fromstring sent "application/json"
       = Return payload
    /\ at_path ["query"; "query_string"; "query"] payload
       = Some (PStr (join " AND " (query_parts text title department legal_range matter))).
Proof.
  intros now parse_int parse_float parse_constant etree_fromstring
         text title department legal_range matter date_from date_to payload sent.
  assert (Hloads : json.loads parse_int parse_float parse_constant sent = inl payload).
  { unfold sent, build_search_query. apply loads_dumps.
    apply query_json_representable. }
  split; [exact Hloads |]. split.
  - unfold _parse_response, parse_body. simpl. rewrite Hloads. reflexivity.
  - unfold payload, query_json.
    destruct (truthy date_from || truthy date_to); simpl;
      destruct (query_parts text title department legal_range matter); reflexivity.
Qed.

(** ** The identifier check of the law metadata *)

Section MetadataFacts.

Variable wide_digit : string -> option string.

Lemma consumes_any_of :
  forall others first pos s pos' s',
    consumes wide_digit (any_of first others) pos s pos' s'
    <-> exists c, (c = first \/ In c (list_ascii_of_string others))
                  /\ s = String c s' /\ pos' = S pos.
Proof.
  induction others as [|next rest IH]; intros first pos s pos' s'; cbn [any_of consumes].
  - split.
    + intros [H1 H2]. exists first. auto.
    + intros [c [[-> | []] H]]. exact H.
  - rewrite IH. cbn [list_ascii_of_string In]. split.
    + intros [[H1 H2] | [c [Hc H]]].
      * exists first. auto.
      * exists c. split; [right; destruct Hc; auto | exact H].
    + intros [c [[Hc | [Hc | Hc]] H]].
      * subst c. left. exact H.
      * right. exists c. split; [left; symmetry; exact Hc | exact H].
      * right. exists c. split; [right; exact Hc | exact H].
Qed.

Lemma upper_members :
  forall c,
    (c = "A"%char \/ In c (list_ascii_of_string "BCDEFGHIJKLMNOPQRSTUVWXYZ"))
    <-> is_upper c = true.
Proof.
  intros c. split.
  - cbn [list_ascii_of_string In].
    intros H. repeat (destruct H as [H | H]; [subst c; reflexivity |]). destruct H.
  - destruct c as [[] [] [] [] [] [] [] []]; intros H; try discriminate H;
      cbn [list_ascii_of_string In]; intuition.
Qed.

Lemma consumes_upper :
  forall pos s pos' s',
    consumes wide_digit upper pos s pos' s'
    <-> exists c, is_upper c = true /\ s = String c s' /\ pos' = S pos.
Proof.
  intros pos s pos' s'. unfold upper. rewrite consumes_any_of.
  split; intros [c [Hc H]]; exists c; (split; [apply upper_members; exact Hc | exact H]).
Qed.

(** The metadata pattern matches exactly the strings of its shape, with or
    without one line feed after them. *)
Lemma identificador_pattern_iff :
  forall v,
    matches wide_digit identificador_pattern v = true
    <-> metadata_then wide_digit v EmptyString \/ metadata_then wide_digit v newline.
Proof.
  intros v. unfold matches. rewrite run_consumes.
  unfold identificador_pattern, between. cbn [consumes].
  split.
  - intros [pos' [s' [H _]]].
    destruct H as [p1 [s1 [[_ [-> ->]] H]]].
    destruct H as [p2 [s2 [Hprefix H]]].
    destruct H as [p3 [s3 [Hseries H]]].
    destruct H as [p4 [s4 [[Hdash1 _] H]]].
    destruct H as [p5 [s5 [Hyear H]]].
    destruct H as [p6 [s6 [[Hdash2 _] H]]].
    destruct H as [p7 [s7 [Hnumber [Hend [_ ->]]]]].
    destruct Hnumber as [p8 [s8 [Hn1 Hn2]]].
    apply consumes_lit in Hprefix as [Hprefix _].
    apply consumes_upper in Hseries as [series [Hupper [Hseries _]]].
    apply consumes_times_digit in Hyear as [Hyear _].
    apply consumes_times_digit in Hn1 as [Hn1 _].
    apply consumes_upto_digit in Hn2 as [k [Hk [Hn2 _]]].
    apply at_end_iff in Hend.
    assert (Hthen : metadata_then wide_digit v s7).
    { exists series, s4, s6, (1 + k)%nat. subst s2 s3 s5.
      split; [exact Hupper |]. split; [exact Hprefix |]. split; [exact Hyear |].
      split; [simpl in Hk; lia |].
      exact (digits_then_add wide_digit 1 k s6 s8 s7 Hn1 Hn2). }
    destruct Hend as [Hend | Hend]; subst s7; [left | right]; exact Hthen.
  - intros Hthen.
    assert (H : exists tail, metadata_then wide_digit v tail /\ at_end tail = true).
    { destruct Hthen as [H | H]; [exists EmptyString | exists newline];
        (split; [exact H | reflexivity]). }
    destruct H as [tail [[series [year_on [number_on [n [Hupper [Hv [Hyear [Hn Hnumber]]]]]]]] Hend]].
    destruct n as [|n]; [lia |].
    destruct Hnumber as [after [Hd Hnumber]].
    exists (12 + n)%nat, tail. split; [| reflexivity].
    exists 0%nat, v. split; [auto |].
    exists 4%nat, (String series ("-" ++ year_on))%string.
    split; [apply consumes_lit; auto |].
    exists 5%nat, ("-" ++ year_on)%string.
    split; [apply consumes_upper; exists series; auto |].
    exists 6%nat, year_on.
    split; [split; reflexivity |].
    exists 10%nat, ("-" ++ number_on)%string.
    split; [apply consumes_times_digit; auto |].
    exists 11%nat, number_on.
    split; [split; reflexivity |].
    exists (12 + n)%nat, tail.
    split; [| split; [exact Hend | auto]].
    exists 12%nat, after.
    split.
    + apply consumes_times_digit. split; [| reflexivity].
      exists after. split; [exact Hd | reflexivity].
    + apply consumes_upto_digit. exists n.
      split; [simpl; lia |]. split; [exact Hnumber | reflexivity].
Qed.

End MetadataFacts.

(** X14.  [ConsolidatedLawMetadata.validate_identificador] returns its
    argument exactly for the strings
    [BOE-<A to Z>-<4 digits>-<1 to 5 digits>] and for these strings
    followed by one line feed, a digit being a character that [\d]
    matches; it raises [ValueError] with the text
    [Identificador inválido: <v>] for every other string. *)
Theorem validate_identificador_shape :
  forall (wide_digit : string -> option string) (v : string),
    (validate_identificador wide_digit v = inl v
     <-> metadata_then wide_digit v EmptyString \/ metadata_then wide_digit v newline)
    /\ (validate_identificador wide_digit v = inl v
        \/ validate_identificador wide_digit v = inr ("Identificador inválido: " ++ v)%string).
Proof.
  intros wide_digit v. unfold validate_identificador.
  rewrite <- identificador_pattern_iff.
  destruct (matches wide_digit identificador_pattern v); simpl.
  - split; [tauto | left; reflexivity].
  - split; [split; discriminate | right; reflexivity].
Qed.

(** X15.  The two identifier checks disagree on the law identifiers: every
    [BOE-A-<4 digits>-<1 to 5 digits>] is accepted by the metadata model's
    [validate_identificador] and rejected by [validate_boe_identifier],
    so [get_consolidated_law] answers it with the invalid-parameter
    warning, without a request. *)
Theorem law_identifiers_split_the_validators :
  forall (wide_digit : string -> option string) (year number : string),
    String.length year = 4%nat -> all_digits year = true ->
    (1 <= String.length number <= 5)%nat -> all_digits number = true ->
    let v := ("BOE-A-" ++ year ++ "-" ++ number)%string in
    validate_identificador wide_digit v = inl v
    /\ validate_boe_identifier wide_digit v = false
    /\ forall fetch_law,
         get_consolidated_law wide_digit fetch_law v
         = ([mkTextContent (invalid_parameter_warning "law_id" v "BOE-A-YYYY-NNNNN")], []).
Proof.
  intros wide_digit year number Hylen Hydig Hnlen Hndig v.
  split; [| split; [reflexivity | intros fetch_law; reflexivity]].
  unfold validate_identificador.
  replace (matches wide_digit identificador_pattern v) with true; [reflexivity |].
  symmetry. apply identificador_pattern_iff. left.
  exists "A"%char, (year ++ "-" ++ number)%string, number, (String.length number).
  split; [reflexivity |]. split; [reflexivity |].
  split; [rewrite <- Hylen; apply all_digits_then; exact Hydig |].
  split; [exact Hnlen |].
  rewrite <- (string_app_nil_r number) at 2.
  apply all_digits_then. exact Hndig.
Qed.

Lemma law_identifiers_split_the_validators_witness :
  String.length "2015" = 4%nat /\ all_digits "2015" = true
  /\ (1 <= String.length "10566" <= 5)%nat /\ all_digits "10566" = true
  /\ validate_identificador fullwidth_digit "BOE-A-2015-10566" = inl "BOE-A-2015-10566"
  /\ validate_boe_identifier fullwidth_digit "BOE-A-2015-10566" = false.
Proof.
  split; [reflexivity |]. split; [reflexivity |]. split; [simpl; lia |].
  split; [reflexivity |].
  destruct (law_identifiers_split_the_validators fullwidth_digit "2015" "10566"
              eq_refl eq_refl ltac:(simpl; lia) eq_refl) as [H1 [H2 _]].
  split; [exact H1 | exact H2].
Defined.

(** ** The tools that take a law identifier and a section *)

(** X16.  For an identifier that [validate_boe_identifier] rejects,
    [get_law_text_block], [get_law_structure] and [find_related_laws] send
    no request and end in [TypeError]: the [ValueError] they raise meets
    the clause [except APIError] first, and [APIError] is no exception
    class, so the answer [Error interno: ...] of the clause
    [except Exception] is never given. *)
Theorem section_tools_reject_with_type_error :
  forall (R : Z) (retry_delay : Q) (status_error_text : Response -> string) (now : Z)
         (json_loads : string -> pyval + string)
         (etree_fromstring : string -> element + string) (user_agent : option string)
         (transport : http_request -> Z -> result Response)
         (wide_digit : string -> option string)
         (render_block : string -> string -> pyval -> result (list TextContent))
         (render_structure : string -> pyval -> result (list TextContent))
         (render_relations : string -> string -> pyval -> result (list TextContent))
         (law_id block_id relation_type : string),
    validate_boe_identifier wide_digit law_id = false ->
    get_law_text_block R retry_delay status_error_text now json_loads etree_fromstring
                       user_agent transport wide_digit render_block law_id block_id
    = (Raise (TypeError not_catchable), [])
    /\ get_law_structure R retry_delay status_error_text now json_loads etree_fromstring
                         user_agent transport wide_digit render_structure law_id
       = (Raise (TypeError not_catchable), [])
    /\ find_related_laws R retry_delay status_error_text now json_loads etree_fromstring
                         user_agent transport wide_digit render_relations law_id relation_type
       = (Raise (TypeError not_catchable), []).
Proof.
  intros R retry_delay status_error_text now json_loads etree_fromstring user_agent
         transport wide_digit render_block render_structure render_relations
         law_id block_id relation_type Hbad.
  unfold get_law_text_block, get_law_structure, find_related_laws, section_tool,
    section_body.
  rewrite Hbad. repeat split.
Qed.

Lemma section_tools_reject_with_type_error_witness :
  validate_boe_identifier fullwidth_digit "BOE-A-2015-10566" = false
  /\ get_law_text_block 3 1 status_text 0 small_loads example_fromstring None
       (fun _ _ => Return (mkResponse 200 "{}")) fullwidth_digit (fun _ _ _ => Return [])
       "BOE-A-2015-10566" "a1"
     = (Raise (TypeError not_catchable), [])
  /\ get_law_structure 3 1 status_text 0 small_loads example_fromstring None
       (fun _ _ => Return (mkResponse 200 "{}")) fullwidth_digit (fun _ _ => Return [])
       "BOE-A-2015-10566"
     = (Raise (TypeError not_catchable), [])
  /\ find_related_laws 3 1 status_text 0 small_loads example_fromstring None
       (fun _ _ => Return (mkResponse 200 "{}")) fullwidth_digit (fun _ _ _ => Return [])
       "BOE-A-2015-10566" "all"
     = (Raise (TypeError not_catchable), []).
Proof.
  split; [reflexivity |].
  exact (section_tools_reject_with_type_error 3 1 status_text 0 small_loads
           example_fromstring None (fun _ _ => Return (mkResponse 200 "{}"))
           fullwidth_digit
           (fun _ _ _ => Return []) (fun _ _ => Return []) (fun _ _ _ => Return [])
           "BOE-A-2015-10566" "a1" "all" eq_refl).
Defined.
